(** * The gRPC-Web bridge of schedule-management-api

    A shallow embedding of [internal/grpcweb/handler.go] and
    [internal/auth/auth.go], together with the parts of the libraries they
    call ([encoding/binary], [strings], [protowire], [golang-jwt]); then of
    the gRPC side of the server: the interceptors of [internal/middleware]
    and the methods of [internal/handler], over a store, a clock and the
    password and token functions that are taken as given.

    Conventions.
    - A Go [[]byte] is a [list byte]; a Go [string] is a [string]; the
      conversions [[]byte(s)] and [string(b)] are [list_byte_of_string] and
      [string_of_list_byte].
    - Go integers are [Z]; conversions between integer types are written out
      as wrap-around ([uint32], [uint64], [int64], [int32]).  [int] is 64 bits
      wide (the server is built for a 64-bit target).
    - Effects (writes to the [http.ResponseWriter], calls to the backend
      connection and to the in-process handler) are recorded as a trace of
      [Event]s; a run-time panic ends the run.  [log.Printf] is not recorded.
*)

From Stdlib Require Import ZArith List String Ascii Bool Lia.
From Stdlib Require Import Strings.Byte DecimalString DecimalN DecimalPos.
Import ListNotations.
Open Scope Z_scope.

(** ** Go values *)

Definition bytes := list byte.

Definition len {A : Type} (l : list A) : Z := Z.of_nat (List.length l).

(** [uint64(b)] for a byte [b]. *)
Definition u8 (b : byte) : Z := Z.of_N (Byte.to_N b).

(** [byte(x)]: the low eight bits of [x]. *)
Definition byte_of (x : Z) : byte :=
  match Byte.of_N (Z.to_N (x mod 256)) with
  | Some b => b
  | None => x00
  end.

Definition uint32 (x : Z) : Z := x mod 2 ^ 32.
Definition uint64 (x : Z) : Z := x mod 2 ^ 64.
Definition int64 (x : Z) : Z := (x + 2 ^ 63) mod 2 ^ 64 - 2 ^ 63.
Definition int32 (x : Z) : Z := (x + 2 ^ 31) mod 2 ^ 32 - 2 ^ 31.

(** [[]byte(s)], [string(b)] and [len(s)] for a string. *)
Definition bytes_of (s : string) : bytes := list_byte_of_string s.
Definition string_of (b : bytes) : string := string_of_list_byte b.

Definition CRLF : string :=
  String (ascii_of_nat 13) (String (ascii_of_nat 10) EmptyString).

(** Slice expressions.  [b[lo:hi]] panics (here: [None]) unless
    [0 <= lo <= hi <= len(b)]; the slices of this program never have spare
    capacity beyond their length that is observed. *)
Definition slice (b : bytes) (lo hi : Z) : option bytes :=
  if (lo <? 0) || (hi <? lo) || (len b <? hi) then None
  else Some (firstn (Z.to_nat (hi - lo)) (skipn (Z.to_nat lo) b)).

Definition slice_from (b : bytes) (lo : Z) : option bytes :=
  slice b lo (len b).

(** [make([]byte, n)] *)
Definition make (n : Z) : bytes := repeat x00 (Z.to_nat n).

(** [b[i] = v] *)
Fixpoint store_nat (b : bytes) (i : nat) (v : byte) : option bytes :=
  match b, i with
  | [], _ => None
  | _ :: t, O => Some (v :: t)
  | h :: t, S j => option_map (cons h) (store_nat t j v)
  end.

Definition store (b : bytes) (i : Z) (v : byte) : option bytes :=
  if i <? 0 then None else store_nat b (Z.to_nat i) v.

(** [copy(dst[off:], src)]: copies [min(len(dst)-off, len(src))] bytes and
    panics only when [off] is not a valid slice bound of [dst]. *)
Fixpoint overwrite (dst src : bytes) : bytes :=
  match dst, src with
  | [], _ => []
  | _, [] => dst
  | _ :: d, s :: r => s :: overwrite d r
  end.

Definition copy_at (dst : bytes) (off : Z) (src : bytes) : option bytes :=
  if (off <? 0) || (len dst <? off) then None
  else Some (firstn (Z.to_nat off) dst ++ overwrite (skipn (Z.to_nat off) dst) src).

(** ** [strings] *)

Module strings.

Fixpoint HasPrefix (s p : string) : bool :=
  match p, s with
  | EmptyString, _ => true
  | String _ _, EmptyString => false
  | String b p', String a s' => Ascii.eqb a b && HasPrefix s' p'
  end.

Definition TrimPrefix (s p : string) : string :=
  if HasPrefix s p
  then substring (String.length p) (String.length s - String.length p) s
  else s.

Definition rev_string (s : string) : string :=
  string_of_list_ascii (rev (list_ascii_of_string s)).

Definition HasSuffix (s p : string) : bool :=
  HasPrefix (rev_string s) (rev_string p).

(** [Split(s, sep)] for a one-character separator. *)
Fixpoint Split (s : string) (sep : ascii) : list string :=
  match s with
  | EmptyString => [EmptyString]
  | String c r =>
      if Ascii.eqb c sep then EmptyString :: Split r sep
      else match Split r sep with
           | [] => [String c EmptyString]
           | h :: t => String c h :: t
           end
  end.

Definition Join2 (a b sep : string) : string := (a ++ sep ++ b)%string.

End strings.

(** ** [encoding/binary], big endian *)

Module binary.

(** [BigEndian.Uint32(b)]: panics when [len(b) < 4]. *)
Definition Uint32 (b : bytes) : option Z :=
  match b with
  | b0 :: b1 :: b2 :: b3 :: _ =>
      Some (Z.lor (Z.lor (Z.lor (u8 b3) (Z.shiftl (u8 b2) 8))
                         (Z.shiftl (u8 b1) 16))
                  (Z.shiftl (u8 b0) 24))
  | _ => None
  end.

(** The four bytes [BigEndian.PutUint32] stores for [v]. *)
Definition be32 (v : Z) : bytes :=
  [byte_of (Z.shiftr v 24); byte_of (Z.shiftr v 16);
   byte_of (Z.shiftr v 8); byte_of v].

(** [BigEndian.PutUint32(b[lo:hi], v)], the write going through to [b]. *)
Definition PutUint32 (b : bytes) (lo hi : Z) (v : Z) : option bytes :=
  match slice b lo hi with
  | None => None
  | Some window =>
      if len window <? 4 then None
      else copy_at b lo (be32 v)
  end.

End binary.

(** ** [google.golang.org/protobuf/encoding/protowire]

    The library functions the bridge calls, with the library's conventions:
    a consumer returns the number of bytes it read, or a negative error
    code. *)

Module protowire.

Definition VarintType : Z := 0.
Definition Fixed64Type : Z := 1.
Definition BytesType : Z := 2.
Definition StartGroupType : Z := 3.
Definition EndGroupType : Z := 4.
Definition Fixed32Type : Z := 5.

Definition errCodeTruncated : Z := -1.
Definition errCodeFieldNumber : Z := -2.
Definition errCodeOverflow : Z := -3.
Definition errCodeReserved : Z := -4.
Definition errCodeEndGroup : Z := -5.
Definition errCodeRecursionDepth : Z := -6.

Definition MinValidNumber : Z := 1.
Definition MaxInt32 : Z := 2 ^ 31 - 1.
Definition DefaultRecursionLimit : Z := 10000.

(** [ConsumeVarint]: the library unrolls the ten steps; [left] counts the
    bytes that may still be read, [shift] is seven times the number of
    bytes read so far, [n] that number, [v] the value accumulated from
    them.  The tenth byte may only contribute one bit. *)
Fixpoint consumeVarintAt (left : nat) (shift v n : Z) (b : bytes) : Z * Z :=
  match left with
  | O => (0, errCodeOverflow)
  | S left' =>
      match b with
      | [] => (0, errCodeTruncated)
      | y :: rest =>
          let v := v + Z.shiftl (u8 y) shift in
          match left' with
          | O => if u8 y <? 2 then (v, n + 1) else (0, errCodeOverflow)
          | S _ =>
              if u8 y <? 128 then (v, n + 1)
              else consumeVarintAt left' (shift + 7)
                     (v - Z.shiftl 128 shift) (n + 1) rest
          end
      end
  end.

Definition ConsumeVarint (b : bytes) : Z * Z := consumeVarintAt 10 0 0 0 b.

(** [AppendVarint]: the library switches on the size of [v : uint64] and
    appends that many bytes, seven bits each, low bits first. *)
Fixpoint varint (k : nat) (v : Z) : bytes :=
  match k with
  | O => []
  | S k' =>
      if v <? 128 then [byte_of v]
      else byte_of (Z.lor (Z.land v 127) 128) :: varint k' (Z.shiftr v 7)
  end.

Definition AppendVarint (b : bytes) (v : Z) : bytes := b ++ varint 10 v.

Definition DecodeTag (x : Z) : Z * Z :=
  if Z.shiftr x 3 >? MaxInt32 then (-1, 0)
  else (Z.shiftr x 3, Z.land x 7).

Definition EncodeTag (num typ : Z) : Z :=
  Z.lor (Z.shiftl (uint64 num) 3) (uint64 (Z.land typ 7)).

Definition ConsumeTag (b : bytes) : Z * Z * Z :=
  let '(v, n) := ConsumeVarint b in
  if n <? 0 then (0, 0, n)
  else
    let '(num, typ) := DecodeTag v in
    if num <? MinValidNumber then (0, 0, errCodeFieldNumber)
    else (num, typ, n).

Definition AppendTag (b : bytes) (num typ : Z) : bytes :=
  AppendVarint b (EncodeTag num typ).

Definition ConsumeFixed32 (b : bytes) : Z :=
  if len b <? 4 then errCodeTruncated else 4.

Definition ConsumeFixed64 (b : bytes) : Z :=
  if len b <? 8 then errCodeTruncated else 8.

(** [ConsumeBytes]: on an error the value is [nil]. *)
Definition ConsumeBytes (b : bytes) : bytes * Z :=
  let '(m, n) := ConsumeVarint b in
  if n <? 0 then ([], n)
  else
    let rest := skipn (Z.to_nat n) b in
    if m >? len rest then ([], errCodeTruncated)
    else (firstn (Z.to_nat m) rest, n + m).

Definition AppendBytes (b v : bytes) : bytes :=
  AppendVarint b (uint64 (len v)) ++ v.

Definition AppendString (b : bytes) (v : string) : bytes :=
  AppendBytes b (bytes_of v).

(** [consumeFieldValueD].  A group is skipped by a loop over its fields
    ([skipGroup]), each field skipped by [consumeFieldValueD] one level
    deeper ([skip]); every level reads at least its tag, so the recursion
    is bounded by the length of the input: [fuel] and [k] bound it, and
    [None] says that a bound was too small. *)
Fixpoint skipGroup (skip : Z -> Z -> bytes -> option Z) (num i0 : Z)
    (k : nat) (b : bytes) {struct k} : option Z :=
  match k with
  | O => None
  | S k' =>
      let '(num2, typ2, n) := ConsumeTag b in
      if n <? 0 then Some n
      else
        let b := skipn (Z.to_nat n) b in
        if typ2 =? EndGroupType then
          if negb (num =? num2) then Some errCodeEndGroup
          else Some (i0 - len b)
        else
          match skip num2 typ2 b with
          | None => None
          | Some n =>
              if n <? 0 then Some n
              else skipGroup skip num i0 k' (skipn (Z.to_nat n) b)
          end
  end.

Fixpoint consumeFieldValueD (fuel : nat) (num typ : Z) (b : bytes) (depth : Z)
  {struct fuel} : option Z :=
  match fuel with
  | O => None
  | S fuel' =>
      if typ =? VarintType then Some (snd (ConsumeVarint b))
      else if typ =? Fixed32Type then Some (ConsumeFixed32 b)
      else if typ =? Fixed64Type then Some (ConsumeFixed64 b)
      else if typ =? BytesType then Some (snd (ConsumeBytes b))
      else if typ =? StartGroupType then
        if depth <? 0 then Some errCodeRecursionDepth
        else
          skipGroup (fun num2 typ2 b => consumeFieldValueD fuel' num2 typ2 b (depth - 1))
                    num (len b) fuel b
      else if typ =? EndGroupType then Some errCodeEndGroup
      else Some errCodeReserved
  end.

(** [ConsumeFieldValue]: the bound [S (length b)] is always enough
    (lemma [consumeFieldValueD_enough_fuel]), so the default is never
    taken. *)
Definition ConsumeFieldValue (num typ : Z) (b : bytes) : Z :=
  match consumeFieldValueD (S (List.length b)) num typ b DefaultRecursionLimit with
  | Some n => n
  | None => errCodeRecursionDepth
  end.

End protowire.

(** ** Results and errors *)

Inductive result (E A : Type) : Type :=
| Ok (a : A)
| Err (e : E).
Arguments Ok {E A} a.
Arguments Err {E A} e.

(** The Go [error] values of the token code: the sentinel of
    [internal/auth], the sentinels of the token library, and an error that
    wraps another one. *)
Inductive error : Type :=
| ErrBadToken
| ErrTokenMalformed
| ErrTokenUnverifiable
| ErrTokenSignatureInvalid
| ErrTokenInvalidClaims
| ErrWrapped (outer inner : error).

(** ** [github.com/golang-jwt/jwt/v5]

    The flow of [Parser.ParseWithClaims].  Decoding of the segments
    (base64url and JSON), signature verification and claim validation
    (which reads the clock) belong to the library and its environment and
    are taken as the fields of [Lib]. *)

Module jwt.

Inductive SigningMethod : Type :=
| SigningMethodHMAC (name : string)
| SigningMethodRSA (name : string)
| SigningMethodRSAPSS (name : string)
| SigningMethodECDSA (name : string)
| SigningMethodEd25519
| signingMethodNone.

(** The library's registry of signing methods, by [alg] name. *)
Definition GetSigningMethod (alg : string) : option SigningMethod :=
  if String.eqb alg "HS256" || String.eqb alg "HS384" || String.eqb alg "HS512"
  then Some (SigningMethodHMAC alg)
  else if String.eqb alg "RS256" || String.eqb alg "RS384" || String.eqb alg "RS512"
  then Some (SigningMethodRSA alg)
  else if String.eqb alg "PS256" || String.eqb alg "PS384" || String.eqb alg "PS512"
  then Some (SigningMethodRSAPSS alg)
  else if String.eqb alg "ES256" || String.eqb alg "ES384" || String.eqb alg "ES512"
  then Some (SigningMethodECDSA alg)
  else if String.eqb alg "EdDSA" then Some SigningMethodEd25519
  else if String.eqb alg "none" then Some signingMethodNone
  else None.

Section Parser.

Variable Claims : Type.

Record Token : Type := mkToken {
  Raw : string;
  Method : SigningMethod;
  TokenClaims : Claims;
  Signature : bytes;
  Valid : bool
}.

Record Lib : Type := mkLib {
  (** the [alg] entry of the decoded header segment: [None] when the
      segment does not decode, [Some None] when it has no string [alg] *)
  header_alg : string -> option (option string);
  (** the claims segment decoded into the caller's claims *)
  decode_claims : string -> option Claims;
  (** [Parser.DecodeSegment] *)
  DecodeSegment : string -> option bytes;
  (** [SigningMethod.Verify(signingString, sig, key)] *)
  Verify : SigningMethod -> string -> bytes -> bytes -> bool;
  (** [Validator.Validate(claims)] *)
  Validate : Claims -> bool
}.

Variable L : Lib.

Definition ParseUnverified (tokenString : string)
  : result error (Token * (string * string * string)) :=
  match strings.Split tokenString "."%char with
  | [p0; p1; p2] =>
      match header_alg L p0 with
      | None => Err ErrTokenMalformed
      | Some halg =>
          match decode_claims L p1 with
          | None => Err ErrTokenMalformed
          | Some c =>
              match halg with
              | None => Err ErrTokenUnverifiable
              | Some alg =>
                  match GetSigningMethod alg with
                  | None => Err ErrTokenUnverifiable
                  | Some m => Ok (mkToken tokenString m c [] false, (p0, p1, p2))
                  end
              end
          end
      end
  | _ => Err ErrTokenMalformed
  end.

Definition ParseWithClaims (tokenString : string)
    (keyFunc : Token -> result error bytes) : result error Token :=
  match ParseUnverified tokenString with
  | Err e => Err e
  | Ok (token, (p0, p1, p2)) =>
      match DecodeSegment L p2 with
      | None => Err ErrTokenMalformed
      | Some sig =>
          let token := mkToken (Raw token) (Method token) (TokenClaims token) sig false in
          let text := strings.Join2 p0 p1 "." in
          match keyFunc token with
          | Err e => Err (ErrWrapped ErrTokenUnverifiable e)
          | Ok have =>
              if negb (Verify L (Method token) text (Signature token) have)
              then Err ErrTokenSignatureInvalid
              else if negb (Validate L (TokenClaims token))
              then Err ErrTokenInvalidClaims
              else Ok (mkToken (Raw token) (Method token) (TokenClaims token)
                               (Signature token) true)
          end
      end
  end.

End Parser.

Arguments Raw {Claims} _.
Arguments Method {Claims} _.
Arguments TokenClaims {Claims} _.
Arguments Signature {Claims} _.
Arguments Valid {Claims} _.
Arguments ParseUnverified {Claims} L tokenString.
Arguments ParseWithClaims {Claims} L tokenString keyFunc.

End jwt.

(** ** [internal/auth] *)

Module auth.

Record RegisteredClaims : Type := {
  ExpiresAt : option Z;
  IssuedAt : option Z
}.

Record Claims : Type := {
  UserID : string;
  Registered : RegisteredClaims
}.

Definition isHMAC (m : jwt.SigningMethod) : bool :=
  match m with
  | jwt.SigningMethodHMAC _ => true
  | _ => false
  end.

(** The key function of [ParseToken]: it refuses every signing method
    that is not of the HMAC family. *)
Definition keyFunc (secret : string) (t : jwt.Token Claims) : result error bytes :=
  if negb (isHMAC (jwt.Method t)) then Err ErrBadToken
  else Ok (bytes_of secret).

Definition ParseToken (L : jwt.Lib Claims) (raw secret : string)
  : result error Claims :=
  match jwt.ParseWithClaims L raw (keyFunc secret) with
  | Err e => Err e
  | Ok tok =>
      if negb (jwt.Valid tok) then Err ErrBadToken
      else Ok (jwt.TokenClaims tok)
  end.

End auth.

(** ** [google.golang.org/grpc/codes] and [status] *)

Module codes.
Definition OK : Z := 0.
Definition Unknown : Z := 2.
Definition InvalidArgument : Z := 3.
Definition NotFound : Z := 5.
Definition AlreadyExists : Z := 6.
Definition ResourceExhausted : Z := 8.
Definition Internal : Z := 13.
Definition Unauthenticated : Z := 16.
End codes.

(** What [status.FromError(err)] yields for a non-nil error: its code and
    message. *)
Record Status : Type := mkStatus {
  Code : Z;
  Message : string
}.

(** ** The messages of [gen/appointment/v1]

    The generated package is not part of the sources at hand; the fields
    are the ones [handler.go] reads and writes.  A pointer field is an
    [option], [nil] being [None]. *)

Module pb.

Record Timestamp : Type := mkTimestamp {
  Seconds : Z;   (* int64 *)
  Nanos : Z      (* int32 *)
}.

Record Appointment : Type := mkAppointment {
  Id : string;
  Title : string;
  Description : string;
  StartTime : option Timestamp;
  EndTime : option Timestamp;
  UserId : string;
  Status : string;
  Location : string;
  AttendeeIds : list string;
  CreatedAt : option Timestamp;
  UpdatedAt : option Timestamp
}.

Module LoginRequest.
Record t : Type := mk { Email : string; Password : string }.
Definition zero : t := mk "" "".
Definition set_Email (v : string) (r : t) : t := mk v (Password r).
Definition set_Password (v : string) (r : t) : t := mk (Email r) v.
End LoginRequest.

Module LoginResponse.
Record t : Type := mk { Token : string; UserId : string; Name : string }.
End LoginResponse.

Module RegisterRequest.
Record t : Type := mk { Email : string; Password : string; Name : string }.
Definition zero : t := mk "" "" "".
Definition set_Email (v : string) (r : t) : t := mk v (Password r) (Name r).
Definition set_Password (v : string) (r : t) : t := mk (Email r) v (Name r).
Definition set_Name (v : string) (r : t) : t := mk (Email r) (Password r) v.
End RegisterRequest.

Module RegisterResponse.
Record t : Type := mk { UserId : string; Token : string }.
End RegisterResponse.

Module ListAppointmentsRequest.
Record t : Type := mk {
  RangeStart : option Timestamp;
  RangeEnd : option Timestamp
}.
Definition zero : t := mk None None.
Definition set_RangeStart (v : option Timestamp) (r : t) : t := mk v (RangeEnd r).
Definition set_RangeEnd (v : option Timestamp) (r : t) : t := mk (RangeStart r) v.
End ListAppointmentsRequest.

Module ListAppointmentsResponse.
Record t : Type := mk { Appointments : list (option Appointment) }.
End ListAppointmentsResponse.

Module CreateAppointmentRequest.
Record t : Type := mk {
  Title : string;
  Description : string;
  StartTime : option Timestamp;
  EndTime : option Timestamp;
  Location : string;
  AttendeeIds : list string
}.
Definition zero : t := mk "" "" None None "" [].
Definition set_Title (v : string) (r : t) : t :=
  mk v (Description r) (StartTime r) (EndTime r) (Location r) (AttendeeIds r).
Definition set_Description (v : string) (r : t) : t :=
  mk (Title r) v (StartTime r) (EndTime r) (Location r) (AttendeeIds r).
Definition set_StartTime (v : option Timestamp) (r : t) : t :=
  mk (Title r) (Description r) v (EndTime r) (Location r) (AttendeeIds r).
Definition set_EndTime (v : option Timestamp) (r : t) : t :=
  mk (Title r) (Description r) (StartTime r) v (Location r) (AttendeeIds r).
Definition set_Location (v : string) (r : t) : t :=
  mk (Title r) (Description r) (StartTime r) (EndTime r) v (AttendeeIds r).
Definition set_AttendeeIds (v : list string) (r : t) : t :=
  mk (Title r) (Description r) (StartTime r) (EndTime r) (Location r) v.
End CreateAppointmentRequest.

Module CreateAppointmentResponse.
Record t : Type := mk { Appointment : option pb.Appointment }.
End CreateAppointmentResponse.

Module GetAppointmentRequest.
Record t : Type := mk { Id : string }.
Definition zero : t := mk "".
Definition set_Id (v : string) (r : t) : t := mk v.
End GetAppointmentRequest.

Module GetAppointmentResponse.
Record t : Type := mk { Appointment : option pb.Appointment }.
End GetAppointmentResponse.

Module UpdateAppointmentRequest.
Record t : Type := mk {
  Id : string;
  Title : string;
  Description : string;
  StartTime : option Timestamp;
  EndTime : option Timestamp;
  Location : string;
  AttendeeIds : list string
}.
Definition zero : t := mk "" "" "" None None "" [].
Definition set_Id (v : string) (r : t) : t :=
  mk v (Title r) (Description r) (StartTime r) (EndTime r) (Location r) (AttendeeIds r).
Definition set_Title (v : string) (r : t) : t :=
  mk (Id r) v (Description r) (StartTime r) (EndTime r) (Location r) (AttendeeIds r).
Definition set_Description (v : string) (r : t) : t :=
  mk (Id r) (Title r) v (StartTime r) (EndTime r) (Location r) (AttendeeIds r).
Definition set_StartTime (v : option Timestamp) (r : t) : t :=
  mk (Id r) (Title r) (Description r) v (EndTime r) (Location r) (AttendeeIds r).
Definition set_EndTime (v : option Timestamp) (r : t) : t :=
  mk (Id r) (Title r) (Description r) (StartTime r) v (Location r) (AttendeeIds r).
Definition set_Location (v : string) (r : t) : t :=
  mk (Id r) (Title r) (Description r) (StartTime r) (EndTime r) v (AttendeeIds r).
Definition set_AttendeeIds (v : list string) (r : t) : t :=
  mk (Id r) (Title r) (Description r) (StartTime r) (EndTime r) (Location r) v.
End UpdateAppointmentRequest.

Module UpdateAppointmentResponse.
Record t : Type := mk { Appointment : option pb.Appointment }.
End UpdateAppointmentResponse.

Module DeleteAppointmentRequest.
Record t : Type := mk { Id : string }.
Definition zero : t := mk "".
Definition set_Id (v : string) (r : t) : t := mk v.
End DeleteAppointmentRequest.

Module DeleteAppointmentResponse.
Record t : Type := mk { }.
End DeleteAppointmentResponse.

End pb.

(** ** Collaborators and effects *)

(** A [context.Context] as far as the bridge builds it: the outgoing
    [authorization] metadata and the value stored under
    [middleware.UserIDKey]. *)
Record Context : Type := mkContext {
  authorization_md : list string;
  UserIDValue : option string
}.

(** [internal/handler]: one operation per method.  An operation answers
    with a response or with the status of its error. *)
Module handler.
Record Handler : Type := mkHandler {
  Login : Context -> pb.LoginRequest.t -> result Status pb.LoginResponse.t;
  Register : Context -> pb.RegisterRequest.t -> result Status pb.RegisterResponse.t;
  ListAppointments : Context -> pb.ListAppointmentsRequest.t
                     -> result Status pb.ListAppointmentsResponse.t;
  CreateAppointment : Context -> pb.CreateAppointmentRequest.t
                      -> result Status pb.CreateAppointmentResponse.t;
  GetAppointment : Context -> pb.GetAppointmentRequest.t
                   -> result Status pb.GetAppointmentResponse.t;
  UpdateAppointment : Context -> pb.UpdateAppointmentRequest.t
                      -> result Status pb.UpdateAppointmentResponse.t;
  DeleteAppointment : Context -> pb.DeleteAppointmentRequest.t
                      -> result Status pb.DeleteAppointmentResponse.t
}.
End handler.

(** The call made to the in-process handler. *)
Inductive HandlerCall : Type :=
| CallLogin (ctx : Context) (req : pb.LoginRequest.t)
| CallRegister (ctx : Context) (req : pb.RegisterRequest.t)
| CallListAppointments (ctx : Context) (req : pb.ListAppointmentsRequest.t)
| CallCreateAppointment (ctx : Context) (req : pb.CreateAppointmentRequest.t)
| CallGetAppointment (ctx : Context) (req : pb.GetAppointmentRequest.t)
| CallUpdateAppointment (ctx : Context) (req : pb.UpdateAppointmentRequest.t)
| CallDeleteAppointment (ctx : Context) (req : pb.DeleteAppointmentRequest.t).

Inductive Event : Type :=
| SetHeader (key value : string)            (* w.Header().Set *)
| WriteHeader (statusCode : Z)              (* w.WriteHeader *)
| Write (b : bytes)                         (* w.Write *)
| HttpError (msg : string) (statusCode : Z) (* http.Error *)
| Invoke (ctx : Context) (method : string) (req : bytes)  (* b.conn.Invoke *)
| Call (c : HandlerCall).                   (* b.direct.<Method> *)

(** The outcome of a run: a value, a run-time panic, or a loop bound that
    was too small (never the case, see [for_loop_enough_fuel]). *)
Inductive Res (A : Type) : Type :=
| Val (a : A)
| Panic
| OutOfFuel.
Arguments Val {A} a.
Arguments Panic {A}.
Arguments OutOfFuel {A}.

Definition M (A : Type) : Type := (list Event * Res A)%type.

Definition ret {A : Type} (a : A) : M A := ([], Val a).

Definition bind {A B : Type} (m : M A) (k : A -> M B) : M B :=
  match m with
  | (t, Val a) => let (t', r) := k a in (t ++ t', r)
  | (t, Panic) => (t, Panic)
  | (t, OutOfFuel) => (t, OutOfFuel)
  end.

Definition emit (e : Event) : M unit := ([e], Val tt).
Definition panic {A : Type} : M A := ([], Panic).

(** A partial Go operation: its failure is a panic. *)
Definition must {A : Type} (o : option A) : M A :=
  match o with
  | Some a => ret a
  | None => panic
  end.

Declare Scope go_scope.
Delimit Scope go_scope with go.
Notation "x <- m ;; k" := (bind m (fun x => k))
  (at level 61, m at next level, right associativity) : go_scope.
Notation "m ;; k" := (bind m (fun _ => k))
  (at level 61, right associativity) : go_scope.
Open Scope go_scope.

(** A [for cond { body }] loop inside a function: an iteration either
    continues with a new state or returns from the function. *)
Inductive Ctl (S R : Type) : Type :=
| Continue (s : S)
| Return (r : R).
Arguments Continue {S R} s.
Arguments Return {S R} r.

Fixpoint for_loop {S R : Type} (fuel : nat) (cond : S -> bool)
    (body : S -> M (Ctl S R)) (s : S) : M (Ctl S R) :=
  if cond s then
    match fuel with
    | O => ([], OutOfFuel)
    | Datatypes.S fuel' =>
        c <- body s ;;
        match c with
        | Continue s' => for_loop fuel' cond body s'
        | Return r => ret (Return r)
        end
    end
  else ret (Continue s).

(** The backend connection with the pass-through codec: [Invoke] sends
    the bytes [rawCodec.Marshal] hands it and yields the bytes handed to
    [rawCodec.Unmarshal], or the status of its error. *)
Definition ClientConn : Type := Context -> string -> bytes -> result Status bytes.

Record Bridge : Type := mkBridge {
  conn : ClientConn;
  direct : option handler.Handler;
  secret : string
}.

(** An [http.Request] as far as the bridge reads it.  [Body] is what
    [io.ReadAll(r.Body)] yields, [None] when it fails. *)
Record Request : Type := mkRequest {
  Method : string;
  URLPath : string;
  Header : string -> list string;
  Body : option bytes
}.

Definition Header_Values (h : string -> list string) (key : string) : list string :=
  h key.

Definition Header_Get (h : string -> list string) (key : string) : string :=
  match h key with
  | [] => ""
  | v :: _ => v
  end.

(** ** [internal/grpcweb]: frames *)

Record rawMsg : Type := mkRawMsg { data : bytes }.

Module rawCodec.
Definition Marshal (v : rawMsg) : bytes := data v.
Definition Unmarshal (d : bytes) : rawMsg := mkRawMsg ([] ++ d).
Definition Name : string := "raw".
End rawCodec.

(** [%d] of a status code. *)
Definition format_d (code : Z) : string :=
  NilZero.string_of_uint (N.to_uint (Z.to_N code)).

Definition writeError (code : Z) (msg : string) : M unit :=
  emit (SetHeader "Content-Type" "application/grpc-web+proto") ;;
  emit (WriteHeader 200) ;;
  let trailer :=
    ("grpc-status:" ++ format_d code ++ CRLF ++ "grpc-message:" ++ msg ++ CRLF)%string in
  let tf := make (5 + len (bytes_of trailer)) in
  tf <- must (store tf 0 x80) ;;
  tf <- must (binary.PutUint32 tf 1 5 (uint32 (len (bytes_of trailer)))) ;;
  tf <- must (copy_at tf 5 (bytes_of trailer)) ;;
  emit (Write tf).

Definition writeSuccess (data : bytes) : M unit :=
  emit (SetHeader "Content-Type" "application/grpc-web+proto") ;;
  emit (WriteHeader 200) ;;
  (* data frame *)
  let df := make (5 + len data) in
  df <- must (store df 0 x00) ;;
  df <- must (binary.PutUint32 df 1 5 (uint32 (len data))) ;;
  df <- must (copy_at df 5 data) ;;
  emit (Write df) ;;
  (* trailer frame *)
  let trailer := ("grpc-status:0" ++ CRLF)%string in
  let tf := make (5 + len (bytes_of trailer)) in
  tf <- must (store tf 0 x80) ;;
  tf <- must (binary.PutUint32 tf 1 5 (uint32 (len (bytes_of trailer)))) ;;
  tf <- must (copy_at tf 5 (bytes_of trailer)) ;;
  emit (Write tf).

(** ** [internal/grpcweb]: direct dispatch *)

Section DirectDispatch.

(** The token library's environment, fixed for the process. *)
Variable L : jwt.Lib auth.Claims.

Import protowire.

Definition parse_error {S : Type} : M (Ctl S unit) :=
  writeError codes.InvalidArgument "parse error" ;; ret (Return tt).

Definition more {S : Type} (st : S * bytes) : bool := len (snd st) >? 0.

Definition manualAuth (b : Bridge) (ctx : Context) (authHeader : string)
  : result Status Context :=
  if String.eqb authHeader "" then
    Err (mkStatus codes.Unauthenticated "no token")
  else
    let raw := strings.TrimPrefix authHeader "Bearer " in
    match auth.ParseToken L raw (secret b) with
    | Err _ => Err (mkStatus codes.Unauthenticated "bad token")
    | Ok claims =>
        Ok (mkContext (authorization_md ctx) (Some (auth.UserID claims)))
    end.

(** *** Login *)

Definition manualLogin_body (st : pb.LoginRequest.t * bytes)
  : M (Ctl (pb.LoginRequest.t * bytes) unit) :=
  let '(req, payload) := st in
  let '(num, typ, n) := ConsumeTag payload in
  if n <? 0 then parse_error
  else
    payload <- must (slice_from payload n) ;;
    if (num =? 1) && (typ =? BytesType) then
      let '(v, n) := ConsumeBytes payload in
      let req := pb.LoginRequest.set_Email (string_of v) req in
      payload <- must (slice_from payload n) ;;
      ret (Continue (req, payload))
    else if (num =? 2) && (typ =? BytesType) then
      let '(v, n) := ConsumeBytes payload in
      let req := pb.LoginRequest.set_Password (string_of v) req in
      payload <- must (slice_from payload n) ;;
      ret (Continue (req, payload))
    else
      let n := ConsumeFieldValue num typ payload in
      if n <? 0 then parse_error
      else
        payload <- must (slice_from payload n) ;;
        ret (Continue (req, payload)).

Definition manualLogin (b : Bridge) (ctx : Context) (payload : bytes) : M unit :=
  c <- for_loop (S (List.length payload)) more manualLogin_body
         (pb.LoginRequest.zero, payload) ;;
  match c with
  | Return _ => ret tt
  | Continue (req, _) =>
      h <- must (direct b) ;;
      emit (Call (CallLogin ctx req)) ;;
      match handler.Login h ctx req with
      | Err st => writeError (Code st) (Message st)
      | Ok resp =>
          let out := [] in
          let out := AppendTag out 1 BytesType in
          let out := AppendString out (pb.LoginResponse.Token resp) in
          let out := AppendTag out 2 BytesType in
          let out := AppendString out (pb.LoginResponse.UserId resp) in
          let out := AppendTag out 3 BytesType in
          let out := AppendString out (pb.LoginResponse.Name resp) in
          writeSuccess out
      end
  end.

(** *** Register *)

Definition manualRegister_body (st : pb.RegisterRequest.t * bytes)
  : M (Ctl (pb.RegisterRequest.t * bytes) unit) :=
  let '(req, payload) := st in
  let '(num, typ, n) := ConsumeTag payload in
  if n <? 0 then parse_error
  else
    payload <- must (slice_from payload n) ;;
    if (num =? 1) && (typ =? BytesType) then
      let '(v, n) := ConsumeBytes payload in
      let req := pb.RegisterRequest.set_Email (string_of v) req in
      payload <- must (slice_from payload n) ;;
      ret (Continue (req, payload))
    else if (num =? 2) && (typ =? BytesType) then
      let '(v, n) := ConsumeBytes payload in
      let req := pb.RegisterRequest.set_Password (string_of v) req in
      payload <- must (slice_from payload n) ;;
      ret (Continue (req, payload))
    else if (num =? 3) && (typ =? BytesType) then
      let '(v, n) := ConsumeBytes payload in
      let req := pb.RegisterRequest.set_Name (string_of v) req in
      payload <- must (slice_from payload n) ;;
      ret (Continue (req, payload))
    else
      let n := ConsumeFieldValue num typ payload in
      if n <? 0 then parse_error
      else
        payload <- must (slice_from payload n) ;;
        ret (Continue (req, payload)).

Definition manualRegister (b : Bridge) (ctx : Context) (payload : bytes) : M unit :=
  c <- for_loop (S (List.length payload)) more manualRegister_body
         (pb.RegisterRequest.zero, payload) ;;
  match c with
  | Return _ => ret tt
  | Continue (req, _) =>
      h <- must (direct b) ;;
      emit (Call (CallRegister ctx req)) ;;
      match handler.Register h ctx req with
      | Err st => writeError (Code st) (Message st)
      | Ok resp =>
          let out := [] in
          let out := AppendTag out 1 BytesType in
          let out := AppendString out (pb.RegisterResponse.UserId resp) in
          let out := AppendTag out 2 BytesType in
          let out := AppendString out (pb.RegisterResponse.Token resp) in
          writeSuccess out
      end
  end.

(** *** Timestamps and appointments on the wire *)

Definition parseTimestamp_body (st : pb.Timestamp * bytes)
  : M (Ctl (pb.Timestamp * bytes) pb.Timestamp) :=
  let '(ts, b) := st in
  let '(num, typ, n) := ConsumeTag b in
  if n <? 0 then ret (Return ts)
  else
    b <- must (slice_from b n) ;;
    if (num =? 1) && (typ =? VarintType) then
      let '(v, n) := ConsumeVarint b in
      let ts := pb.mkTimestamp (int64 v) (pb.Nanos ts) in
      b <- must (slice_from b n) ;;
      ret (Continue (ts, b))
    else if (num =? 2) && (typ =? VarintType) then
      let '(v, n) := ConsumeVarint b in
      let ts := pb.mkTimestamp (pb.Seconds ts) (int32 v) in
      b <- must (slice_from b n) ;;
      ret (Continue (ts, b))
    else
      let n := ConsumeFieldValue num typ b in
      if n <? 0 then ret (Return ts)
      else
        b <- must (slice_from b n) ;;
        ret (Continue (ts, b)).

(** The result is never [nil]. *)
Definition parseTimestamp (b : bytes) : M (option pb.Timestamp) :=
  c <- for_loop (S (List.length b)) more parseTimestamp_body
         (pb.mkTimestamp 0 0, b) ;;
  match c with
  | Return ts => ret (Some ts)
  | Continue (ts, _) => ret (Some ts)
  end.

Definition appendTimestamp (out : bytes) (num : Z) (ts : option pb.Timestamp) : bytes :=
  match ts with
  | None => out
  | Some ts =>
      let inner := [] in
      let inner :=
        if negb (pb.Seconds ts =? 0) then
          AppendVarint (AppendTag inner 1 VarintType) (uint64 (pb.Seconds ts))
        else inner in
      let inner :=
        if negb (pb.Nanos ts =? 0) then
          AppendVarint (AppendTag inner 2 VarintType) (uint64 (pb.Nanos ts))
        else inner in
      let out := AppendTag out num BytesType in
      AppendBytes out inner
  end.

Definition appendAppointment (out : bytes) (num : Z) (a : option pb.Appointment) : bytes :=
  match a with
  | None => out
  | Some a =>
      let inner := [] in
      let inner := AppendTag inner 1 BytesType in
      let inner := AppendString inner (pb.Id a) in
      let inner := AppendTag inner 2 BytesType in
      let inner := AppendString inner (pb.Title a) in
      let inner := AppendTag inner 3 BytesType in
      let inner := AppendString inner (pb.Description a) in
      let inner := appendTimestamp inner 4 (pb.StartTime a) in
      let inner := appendTimestamp inner 5 (pb.EndTime a) in
      let inner := AppendTag inner 6 BytesType in
      let inner := AppendString inner (pb.UserId a) in
      let inner := AppendTag inner 7 BytesType in
      let inner := AppendString inner (pb.Status a) in
      let inner := AppendTag inner 8 BytesType in
      let inner := AppendString inner (pb.Location a) in
      let inner :=
        fold_left (fun inner att =>
                     AppendString (AppendTag inner 9 BytesType) att)
                  (pb.AttendeeIds a) inner in
      let inner := appendTimestamp inner 10 (pb.CreatedAt a) in
      let inner := appendTimestamp inner 11 (pb.UpdatedAt a) in
      let out := AppendTag out num BytesType in
      AppendBytes out inner
  end.

(** *** ListAppointments *)

Definition manualListAppointments_body (st : pb.ListAppointmentsRequest.t * bytes)
  : M (Ctl (pb.ListAppointmentsRequest.t * bytes) unit) :=
  let '(req, payload) := st in
  let '(num, typ, n) := ConsumeTag payload in
  if n <? 0 then parse_error
  else
    payload <- must (slice_from payload n) ;;
    if (num =? 1) && (typ =? BytesType) then
      let '(v, n) := ConsumeBytes payload in
      ts <- parseTimestamp v ;;
      let req := pb.ListAppointmentsRequest.set_RangeStart ts req in
      payload <- must (slice_from payload n) ;;
      ret (Continue (req, payload))
    else if (num =? 2) && (typ =? BytesType) then
      let '(v, n) := ConsumeBytes payload in
      ts <- parseTimestamp v ;;
      let req := pb.ListAppointmentsRequest.set_RangeEnd ts req in
      payload <- must (slice_from payload n) ;;
      ret (Continue (req, payload))
    else
      let n := ConsumeFieldValue num typ payload in
      if n <? 0 then parse_error
      else
        payload <- must (slice_from payload n) ;;
        ret (Continue (req, payload)).

Definition manualListAppointments (b : Bridge) (ctx : Context) (payload : bytes)
    (authHeader : string) : M unit :=
  match manualAuth b ctx authHeader with
  | Err st => writeError (Code st) (Message st)
  | Ok ctx =>
      c <- for_loop (S (List.length payload)) more manualListAppointments_body
             (pb.ListAppointmentsRequest.zero, payload) ;;
      match c with
      | Return _ => ret tt
      | Continue (req, _) =>
          h <- must (direct b) ;;
          emit (Call (CallListAppointments ctx req)) ;;
          match handler.ListAppointments h ctx req with
          | Err st => writeError (Code st) (Message st)
          | Ok resp =>
              let out :=
                fold_left (fun out appt => appendAppointment out 1 appt)
                          (pb.ListAppointmentsResponse.Appointments resp) [] in
              writeSuccess out
          end
      end
  end.

(** *** CreateAppointment *)

Definition manualCreateAppointment_body (st : pb.CreateAppointmentRequest.t * bytes)
  : M (Ctl (pb.CreateAppointmentRequest.t * bytes) unit) :=
  let '(req, payload) := st in
  let '(num, typ, n) := ConsumeTag payload in
  if n <? 0 then parse_error
  else
    payload <- must (slice_from payload n) ;;
    if (num =? 1) && (typ =? BytesType) then
      let '(v, n) := ConsumeBytes payload in
      let req := pb.CreateAppointmentRequest.set_Title (string_of v) req in
      payload <- must (slice_from payload n) ;;
      ret (Continue (req, payload))
    else if (num =? 2) && (typ =? BytesType) then
      let '(v, n) := ConsumeBytes payload in
      let req := pb.CreateAppointmentRequest.set_Description (string_of v) req in
      payload <- must (slice_from payload n) ;;
      ret (Continue (req, payload))
    else if (num =? 3) && (typ =? BytesType) then
      let '(v, n) := ConsumeBytes payload in
      ts <- parseTimestamp v ;;
      let req := pb.CreateAppointmentRequest.set_StartTime ts req in
      payload <- must (slice_from payload n) ;;
      ret (Continue (req, payload))
    else if (num =? 4) && (typ =? BytesType) then
      let '(v, n) := ConsumeBytes payload in
      ts <- parseTimestamp v ;;
      let req := pb.CreateAppointmentRequest.set_EndTime ts req in
      payload <- must (slice_from payload n) ;;
      ret (Continue (req, payload))
    else if (num =? 5) && (typ =? BytesType) then
      let '(v, n) := ConsumeBytes payload in
      let req := pb.CreateAppointmentRequest.set_Location (string_of v) req in
      payload <- must (slice_from payload n) ;;
      ret (Continue (req, payload))
    else if (num =? 6) && (typ =? BytesType) then
      let '(v, n) := ConsumeBytes payload in
      let req := pb.CreateAppointmentRequest.set_AttendeeIds
                   (pb.CreateAppointmentRequest.AttendeeIds req ++ [string_of v]) req in
      payload <- must (slice_from payload n) ;;
      ret (Continue (req, payload))
    else
      let n := ConsumeFieldValue num typ payload in
      if n <? 0 then parse_error
      else
        payload <- must (slice_from payload n) ;;
        ret (Continue (req, payload)).

Definition manualCreateAppointment (b : Bridge) (ctx : Context) (payload : bytes)
    (authHeader : string) : M unit :=
  match manualAuth b ctx authHeader with
  | Err st => writeError (Code st) (Message st)
  | Ok ctx =>
      c <- for_loop (S (List.length payload)) more manualCreateAppointment_body
             (pb.CreateAppointmentRequest.zero, payload) ;;
      match c with
      | Return _ => ret tt
      | Continue (req, _) =>
          h <- must (direct b) ;;
          emit (Call (CallCreateAppointment ctx req)) ;;
          match handler.CreateAppointment h ctx req with
          | Err st => writeError (Code st) (Message st)
          | Ok resp =>
              let out := appendAppointment [] 1
                           (pb.CreateAppointmentResponse.Appointment resp) in
              writeSuccess out
          end
      end
  end.

(** *** GetAppointment *)

Definition manualGetAppointment_body (st : pb.GetAppointmentRequest.t * bytes)
  : M (Ctl (pb.GetAppointmentRequest.t * bytes) unit) :=
  let '(req, payload) := st in
  let '(num, typ, n) := ConsumeTag payload in
  if n <? 0 then parse_error
  else
    payload <- must (slice_from payload n) ;;
    if (num =? 1) && (typ =? BytesType) then
      let '(v, n) := ConsumeBytes payload in
      let req := pb.GetAppointmentRequest.set_Id (string_of v) req in
      payload <- must (slice_from payload n) ;;
      ret (Continue (req, payload))
    else
      let n := ConsumeFieldValue num typ payload in
      payload <- must (slice_from payload n) ;;
      ret (Continue (req, payload)).

Definition manualGetAppointment (b : Bridge) (ctx : Context) (payload : bytes)
    (authHeader : string) : M unit :=
  match manualAuth b ctx authHeader with
  | Err st => writeError (Code st) (Message st)
  | Ok ctx =>
      c <- for_loop (S (List.length payload)) more manualGetAppointment_body
             (pb.GetAppointmentRequest.zero, payload) ;;
      match c with
      | Return _ => ret tt
      | Continue (req, _) =>
          h <- must (direct b) ;;
          emit (Call (CallGetAppointment ctx req)) ;;
          match handler.GetAppointment h ctx req with
          | Err st => writeError (Code st) (Message st)
          | Ok resp =>
              let out := appendAppointment [] 1
                           (pb.GetAppointmentResponse.Appointment resp) in
              writeSuccess out
          end
      end
  end.

(** *** UpdateAppointment *)

Definition manualUpdateAppointment_body (st : pb.UpdateAppointmentRequest.t * bytes)
  : M (Ctl (pb.UpdateAppointmentRequest.t * bytes) unit) :=
  let '(req, payload) := st in
  let '(num, typ, n) := ConsumeTag payload in
  if n <? 0 then parse_error
  else
    payload <- must (slice_from payload n) ;;
    if (num =? 1) && (typ =? BytesType) then
      let '(v, n) := ConsumeBytes payload in
      let req := pb.UpdateAppointmentRequest.set_Id (string_of v) req in
      payload <- must (slice_from payload n) ;;
      ret (Continue (req, payload))
    else if (num =? 2) && (typ =? BytesType) then
      let '(v, n) := ConsumeBytes payload in
      let req := pb.UpdateAppointmentRequest.set_Title (string_of v) req in
      payload <- must (slice_from payload n) ;;
      ret (Continue (req, payload))
    else if (num =? 3) && (typ =? BytesType) then
      let '(v, n) := ConsumeBytes payload in
      let req := pb.UpdateAppointmentRequest.set_Description (string_of v) req in
      payload <- must (slice_from payload n) ;;
      ret (Continue (req, payload))
    else if (num =? 4) && (typ =? BytesType) then
      let '(v, n) := ConsumeBytes payload in
      ts <- parseTimestamp v ;;
      let req := pb.UpdateAppointmentRequest.set_StartTime ts req in
      payload <- must (slice_from payload n) ;;
      ret (Continue (req, payload))
    else if (num =? 5) && (typ =? BytesType) then
      let '(v, n) := ConsumeBytes payload in
      ts <- parseTimestamp v ;;
      let req := pb.UpdateAppointmentRequest.set_EndTime ts req in
      payload <- must (slice_from payload n) ;;
      ret (Continue (req, payload))
    else if (num =? 6) && (typ =? BytesType) then
      let '(v, n) := ConsumeBytes payload in
      let req := pb.UpdateAppointmentRequest.set_Location (string_of v) req in
      payload <- must (slice_from payload n) ;;
      ret (Continue (req, payload))
    else if (num =? 7) && (typ =? BytesType) then
      let '(v, n) := ConsumeBytes payload in
      let req := pb.UpdateAppointmentRequest.set_AttendeeIds
                   (pb.UpdateAppointmentRequest.AttendeeIds req ++ [string_of v]) req in
      payload <- must (slice_from payload n) ;;
      ret (Continue (req, payload))
    else
      let n := ConsumeFieldValue num typ payload in
      payload <- must (slice_from payload n) ;;
      ret (Continue (req, payload)).

Definition manualUpdateAppointment (b : Bridge) (ctx : Context) (payload : bytes)
    (authHeader : string) : M unit :=
  match manualAuth b ctx authHeader with
  | Err st => writeError (Code st) (Message st)
  | Ok ctx =>
      c <- for_loop (S (List.length payload)) more manualUpdateAppointment_body
             (pb.UpdateAppointmentRequest.zero, payload) ;;
      match c with
      | Return _ => ret tt
      | Continue (req, _) =>
          h <- must (direct b) ;;
          emit (Call (CallUpdateAppointment ctx req)) ;;
          match handler.UpdateAppointment h ctx req with
          | Err st => writeError (Code st) (Message st)
          | Ok resp =>
              let out := appendAppointment [] 1
                           (pb.UpdateAppointmentResponse.Appointment resp) in
              writeSuccess out
          end
      end
  end.

(** *** DeleteAppointment *)

Definition manualDeleteAppointment_body (st : pb.DeleteAppointmentRequest.t * bytes)
  : M (Ctl (pb.DeleteAppointmentRequest.t * bytes) unit) :=
  let '(req, payload) := st in
  let '(num, typ, n) := ConsumeTag payload in
  if n <? 0 then parse_error
  else
    payload <- must (slice_from payload n) ;;
    if (num =? 1) && (typ =? BytesType) then
      let '(v, n) := ConsumeBytes payload in
      let req := pb.DeleteAppointmentRequest.set_Id (string_of v) req in
      payload <- must (slice_from payload n) ;;
      ret (Continue (req, payload))
    else
      let n := ConsumeFieldValue num typ payload in
      payload <- must (slice_from payload n) ;;
      ret (Continue (req, payload)).

Definition manualDeleteAppointment (b : Bridge) (ctx : Context) (payload : bytes)
    (authHeader : string) : M unit :=
  match manualAuth b ctx authHeader with
  | Err st => writeError (Code st) (Message st)
  | Ok ctx =>
      c <- for_loop (S (List.length payload)) more manualDeleteAppointment_body
             (pb.DeleteAppointmentRequest.zero, payload) ;;
      match c with
      | Return _ => ret tt
      | Continue (req, _) =>
          h <- must (direct b) ;;
          emit (Call (CallDeleteAppointment ctx req)) ;;
          match handler.DeleteAppointment h ctx req with
          | Err st => writeError (Code st) (Message st)
          | Ok _ => writeSuccess []
          end
      end
  end.

(** ** [internal/grpcweb]: the dispatcher and the front door *)

(** The seven methods that are handled in process. *)
Inductive DirectMethod : Type :=
| MLogin | MRegister | MListAppointments | MCreateAppointment
| MGetAppointment | MUpdateAppointment | MDeleteAppointment.

(** The chain of [strings.HasSuffix] tests of [forward], in its order. *)
Definition direct_method (path : string) : option DirectMethod :=
  if strings.HasSuffix path "/Login" then Some MLogin
  else if strings.HasSuffix path "/Register" then Some MRegister
  else if strings.HasSuffix path "/ListAppointments" then Some MListAppointments
  else if strings.HasSuffix path "/CreateAppointment" then Some MCreateAppointment
  else if strings.HasSuffix path "/GetAppointment" then Some MGetAppointment
  else if strings.HasSuffix path "/UpdateAppointment" then Some MUpdateAppointment
  else if strings.HasSuffix path "/DeleteAppointment" then Some MDeleteAppointment
  else None.

Definition manual (m : DirectMethod) (b : Bridge) (ctx : Context)
    (payload : bytes) (authHeader : string) : M unit :=
  match m with
  | MLogin => manualLogin b ctx payload
  | MRegister => manualRegister b ctx payload
  | MListAppointments => manualListAppointments b ctx payload authHeader
  | MCreateAppointment => manualCreateAppointment b ctx payload authHeader
  | MGetAppointment => manualGetAppointment b ctx payload authHeader
  | MUpdateAppointment => manualUpdateAppointment b ctx payload authHeader
  | MDeleteAppointment => manualDeleteAppointment b ctx payload authHeader
  end.

(** The frame of the request body: the length check of [forward] and
    the slice it takes.  [5+msgLen] is computed in [uint32]. *)
Definition frame_payload (body : bytes) : M (result Status bytes) :=
  if len body <? 5 then
    ret (Err (mkStatus codes.InvalidArgument "body too short"))
  else
    hdr <- must (slice body 1 5) ;;
    msgLen <- must (binary.Uint32 hdr) ;;
    if msgLen + 5 >? len body then
      ret (Err (mkStatus codes.InvalidArgument "incomplete frame"))
    else
      payload <- must (slice body 5 (uint32 (5 + msgLen))) ;;
      ret (Ok payload).

(** The pass-through call of [forward]. *)
Definition invoke_raw (b : Bridge) (ctx : Context) (path : string) (payload : bytes)
  : M unit :=
  let req := mkRawMsg payload in
  emit (Invoke ctx path (rawCodec.Marshal req)) ;;
  match conn b ctx path (rawCodec.Marshal req) with
  | Err st => writeError (Code st) (Message st)
  | Ok d =>
      let resp := rawCodec.Unmarshal d in
      writeSuccess (data resp)
  end.

Definition forward (b : Bridge) (r : Request) : M unit :=
  match Body r with
  | None => writeError codes.Internal "read body failed"
  | Some body =>
      f <- frame_payload body ;;
      match f with
      | Err st => writeError (Code st) (Message st)
      | Ok payload =>
          (* forward metadata *)
          let md := Header_Values (Header r) "Authorization" in
          let ctx := mkContext md None in
          match direct b, direct_method (URLPath r) with
          | Some _, Some m =>
              manual m b ctx payload (Header_Get (Header r) "Authorization")
          | _, _ => invoke_raw b ctx (URLPath r) payload
          end
      end
  end.

Definition Handler (b : Bridge) (r : Request) : M unit :=
  let origin := Header_Get (Header r) "Origin" in
  let origin := if String.eqb origin "" then "*"%string else origin in
  emit (SetHeader "Access-Control-Allow-Origin" origin) ;;
  emit (SetHeader "Access-Control-Allow-Methods" "POST, OPTIONS") ;;
  emit (SetHeader "Access-Control-Allow-Headers"
          "Content-Type, X-Grpc-Web, X-User-Agent, Authorization, x-grpc-web") ;;
  emit (SetHeader "Access-Control-Expose-Headers"
          "Grpc-Status, Grpc-Message, Grpc-Status-Details-Bin, grpc-status, grpc-message") ;;
  emit (SetHeader "Access-Control-Max-Age" "86400") ;;
  if String.eqb (Method r) "OPTIONS" then emit (WriteHeader 200)
  else if negb (String.eqb (Method r) "POST") then
    emit (HttpError "method not allowed" 405)
  else
    let ct := Header_Get (Header r) "Content-Type" in
    if negb (strings.HasPrefix ct "application/grpc-web") then
      emit (HttpError "not grpc-web" 415)
    else forward b r.

End DirectDispatch.

(** ** A concrete environment

    A stand-in token library, a backend stub and a handler that answers
    with fixed records: the setting in which the statements below are
    exercised on concrete requests. *)

Module Fixture.

Definition bytes_eqb (a b : bytes) : bool :=
  if list_eq_dec Byte.byte_eq_dec a b then true else false.

(** Tokens of the form [alg.uid.sig]: the header segment is the [alg]
    name, the claims segment the user id, and a signature verifies,
    under every method, when it spells the key. *)
Definition lib : jwt.Lib auth.Claims :=
  jwt.mkLib auth.Claims
    (fun seg => if String.eqb seg "" then None else Some (Some seg))
    (fun seg => Some {| auth.UserID := seg;
                        auth.Registered := {| auth.ExpiresAt := None;
                                              auth.IssuedAt := None |} |})
    (fun seg => Some (bytes_of seg))
    (fun _ _ sig key => bytes_eqb sig key)
    (fun _ => true).

Definition appt : pb.Appointment :=
  pb.mkAppointment "a1" "Standup" "" (Some (pb.mkTimestamp 1700000000 0)) None
                   "u1" "confirmed" "" ["u2"%string] None None.

(** Every lookup fails with [NotFound] except that of ["a1"]. *)
Definition spy : handler.Handler :=
  handler.mkHandler
    (fun _ req => Ok (pb.LoginResponse.mk "abc" "u1" "Ann"))
    (fun _ req => Ok (pb.RegisterResponse.mk "u1" "abc"))
    (fun _ _ => Ok (pb.ListAppointmentsResponse.mk [Some appt]))
    (fun _ _ => Ok (pb.CreateAppointmentResponse.mk (Some appt)))
    (fun _ req =>
       if String.eqb (pb.GetAppointmentRequest.Id req) "a1"
       then Ok (pb.GetAppointmentResponse.mk (Some appt))
       else Err (mkStatus codes.NotFound "not found"))
    (fun _ _ => Ok (pb.UpdateAppointmentResponse.mk (Some appt)))
    (fun _ _ => Ok pb.DeleteAppointmentResponse.mk).

(** A backend that echoes the request of [/echo.Service/Echo] and is
    unavailable for every other method. *)
Definition backend : ClientConn :=
  fun _ path req =>
    if String.eqb path "/echo.Service/Echo" then Ok req
    else Err (mkStatus 14 "unavailable").

Definition bridge : Bridge := mkBridge backend (Some spy) "s3cret".

Definition headers (authz : list string) : string -> list string :=
  fun key =>
    if String.eqb key "Authorization" then authz
    else if String.eqb key "Content-Type" then ["application/grpc-web+proto"%string]
    else [].

Definition post (path : string) (authz : list string) (body : bytes) : Request :=
  mkRequest "POST" path (headers authz) (Some body).

Definition svc : string := "/appointment.v1.ScheduleService".

(** A handler whose Login answers with empty strings. *)
Definition blank : handler.Handler :=
  handler.mkHandler
    (fun _ _ => Ok (pb.LoginResponse.mk "" "" ""))
    (handler.Register spy) (handler.ListAppointments spy)
    (handler.CreateAppointment spy) (handler.GetAppointment spy)
    (handler.UpdateAppointment spy) (handler.DeleteAppointment spy).

(** The appointment all of whose fields have their zero value. *)
Definition zero_appt : pb.Appointment :=
  pb.mkAppointment "" "" "" None None "" "" "" [] None None.

End Fixture.

(** ** Notions used in the statements *)

(** The header and payload that [writeError] and [writeSuccess] assemble
    in their buffers (lemma [build_frame]): the flag, the length in four
    big-endian bytes, the payload. *)
Definition frame (flag : byte) (payload : bytes) : bytes :=
  flag :: binary.be32 (uint32 (len payload)) ++ payload.

(** The text of an error trailer and of the success trailer. *)
Definition error_trailer (code : Z) (msg : string) : string :=
  ("grpc-status:" ++ format_d code ++ CRLF ++ "grpc-message:" ++ msg ++ CRLF)%string.

Definition ok_trailer : string := ("grpc-status:0" ++ CRLF)%string.

(** The length a body declares in bytes 1 to 4. *)
Definition declared_length (body : bytes) : option Z :=
  match slice body 1 5 with
  | Some hdr => binary.Uint32 hdr
  | None => None
  end.

(** The events that reach a collaborator: the backend or the handler. *)
Definition is_contact (e : Event) : bool :=
  match e with
  | Invoke _ _ _ | Call _ => true
  | _ => false
  end.

Definition contacts (t : list Event) : list Event := filter is_contact t.

(** The chunks written to the response body and the status codes set. *)
Definition writes (t : list Event) : list bytes :=
  flat_map (fun e => match e with Write b => [b] | _ => [] end) t.

Definition status_codes (t : list Event) : list Z :=
  flat_map (fun e => match e with
                     | WriteHeader c => [c]
                     | HttpError _ c => [c]
                     | _ => []
                     end) t.

(** The generic field iterator of the wire format: tag, then value, until
    the input is used up; [None] on a parse error.  A field is its number,
    its wire type and the bytes of its value (for a length-delimited field
    the bytes after the length prefix). *)
Fixpoint wire_fields_from (fuel : nat) (b : bytes) : option (list (Z * Z * bytes)) :=
  match b with
  | [] => Some []
  | _ :: _ =>
      match fuel with
      | O => None
      | S fuel' =>
          let '(num, typ, n) := protowire.ConsumeTag b in
          if n <? 0 then None
          else
            let b := skipn (Z.to_nat n) b in
            let m := protowire.ConsumeFieldValue num typ b in
            if m <? 0 then None
            else
              let raw :=
                if typ =? protowire.BytesType then fst (protowire.ConsumeBytes b)
                else firstn (Z.to_nat m) b in
              match wire_fields_from fuel' (skipn (Z.to_nat m) b) with
              | None => None
              | Some fs => Some ((num, typ, raw) :: fs)
              end
      end
  end.

Definition wire_fields (b : bytes) : option (list (Z * Z * bytes)) :=
  wire_fields_from (List.length b) b.

Definition field_numbers (b : bytes) : option (list Z) :=
  option_map (map (fun f => fst (fst f))) (wire_fields b).

(** The signing algorithm that the header of a token declares. *)
Definition declared_alg (L : jwt.Lib auth.Claims) (raw : string) : option string :=
  match strings.Split raw "."%char with
  | [p0; _; _] =>
      match jwt.header_alg auth.Claims L p0 with
      | Some (Some alg) => Some alg
      | _ => None
      end
  | _ => None
  end.

(** The field number of a pointer field, when the pointer is set. *)
Definition present {A : Type} (o : option A) (num : Z) : list Z :=
  match o with
  | Some _ => [num]
  | None => []
  end.

(** The field numbers expected inside a timestamp submessage: seconds (1)
    and nanos (2), each only when it is not zero. *)
Definition timestamp_fields (ts : pb.Timestamp) : list Z :=
  (if pb.Seconds ts =? 0 then [] else [1]) ++ (if pb.Nanos ts =? 0 then [] else [2]).

(** The field numbers expected inside an appointment submessage: every
    string field, one entry per attendee, and the timestamps that are set. *)
Definition appointment_fields (a : pb.Appointment) : list Z :=
  [1; 2; 3] ++ present (pb.StartTime a) 4 ++ present (pb.EndTime a) 5
  ++ [6; 7; 8] ++ map (fun _ => 9) (pb.AttendeeIds a)
  ++ present (pb.CreatedAt a) 10 ++ present (pb.UpdatedAt a) 11.

(** A string whose length fits Go's [int]. *)
Definition fits (s : string) : Prop := len (bytes_of s) < 2 ^ 63.

(** An appointment all of whose strings have such a length. *)
Definition sized (a : pb.Appointment) : Prop :=
  fits (pb.Id a) /\ fits (pb.Title a) /\ fits (pb.Description a)
  /\ fits (pb.UserId a) /\ fits (pb.Status a) /\ fits (pb.Location a)
  /\ Forall fits (pb.AttendeeIds a).

(** The bytes of the submessage that [appendTimestamp] builds for a
    timestamp (lemma [appendTimestamp_Some]). *)
Definition timestamp_inner (ts : pb.Timestamp) : bytes :=
  (if pb.Seconds ts =? 0 then [] else x08 :: protowire.varint 10 (uint64 (pb.Seconds ts)))
  ++ (if pb.Nanos ts =? 0 then [] else x10 :: protowire.varint 10 (uint64 (pb.Nanos ts))).

(** A string field with a one-byte tag [t] as [AppendTag] and
    [AppendString] write it (lemma [AppendString_field]). *)
Definition string_field (t : byte) (s : string) : bytes :=
  t :: protowire.varint 10 (uint64 (len (bytes_of s))) ++ bytes_of s.

(** A timestamp field with a one-byte tag [t] as [appendTimestamp] writes
    it (lemma [appendTimestamp_field]). *)
Definition timestamp_field (t : byte) (o : option pb.Timestamp) : bytes :=
  match o with
  | None => []
  | Some ts => t :: protowire.varint 10 (uint64 (len (timestamp_inner ts))) ++ timestamp_inner ts
  end.

(** The bytes of the submessage that [appendAppointment] builds (lemma
    [appendAppointment_Some]). *)
Definition appointment_inner (a : pb.Appointment) : bytes :=
  string_field x0a (pb.Id a) ++ string_field x12 (pb.Title a)
  ++ string_field x1a (pb.Description a)
  ++ timestamp_field x22 (pb.StartTime a) ++ timestamp_field x2a (pb.EndTime a)
  ++ string_field x32 (pb.UserId a) ++ string_field x3a (pb.Status a)
  ++ string_field x42 (pb.Location a)
  ++ List.concat (map (string_field x4a) (pb.AttendeeIds a))
  ++ timestamp_field x52 (pb.CreatedAt a) ++ timestamp_field x5a (pb.UpdatedAt a).

(** The outcome of one iteration on input [p]: it continues on a strictly
    shorter input without an event, or returns with the events [tr], or
    panics without an event. *)
Inductive iteration {St R : Type} (tr : list Event) (p : bytes)
  : M (Ctl (St * bytes) R) -> Prop :=
| it_continue (s : St) (p' : bytes) :
    len p' < len p -> iteration tr p ([], Val (Continue (s, p')))
| it_return (r : R) : iteration tr p (tr, Val (Return r))
| it_panic : iteration tr p ([], Panic).

(** The outcome of a whole loop: the input is used up, or the function
    returned with the events [tr], or it panicked. *)
Inductive loop_end {St R : Type} (tr : list Event)
  : M (Ctl (St * bytes) R) -> Prop :=
| le_done (s : St) : loop_end tr ([], Val (Continue (s, [])))
| le_return (r : R) : loop_end tr (tr, Val (Return r))
| le_panic : loop_end tr ([], Panic).

(** The events of the parse-error trailer. *)
Definition parse_error_events : list Event :=
  [SetHeader "Content-Type" "application/grpc-web+proto"; WriteHeader 200;
   Write (frame x80 (bytes_of (error_trailer codes.InvalidArgument "parse error")))].

(** The events of a response: the success pair, or a single error trailer
    whose code satisfies [P]. *)
Definition response (P : Z -> Prop) (t : list Event) : Prop :=
  (exists d,
      t = [SetHeader "Content-Type" "application/grpc-web+proto"; WriteHeader 200;
           Write (frame x00 d); Write (frame x80 (bytes_of ok_trailer))])
  \/ (exists code msg,
         P code
         /\ t = [SetHeader "Content-Type" "application/grpc-web+proto"; WriteHeader 200;
                 Write (frame x80 (bytes_of (error_trailer code msg)))]).

(** A run of the bridge panics before any event, or completes with at
    most one call to a collaborator followed by one response. *)
Definition outcome (P : Z -> Prop) (m : M unit) : Prop :=
  m = ([], Panic)
  \/ exists pre t,
       m = (pre ++ t, Val tt)
       /\ (pre = [] \/ exists e, pre = [e] /\ is_contact e = true)
       /\ response P t.

(** [P] holds of the code of every status with which a handler, or the
    collaborators of a bridge, fail. *)
Definition handler_errors (P : Z -> Prop) (h : handler.Handler) : Prop :=
  (forall ctx req st, handler.Login h ctx req = Err st -> P (Code st))
  /\ (forall ctx req st, handler.Register h ctx req = Err st -> P (Code st))
  /\ (forall ctx req st, handler.ListAppointments h ctx req = Err st -> P (Code st))
  /\ (forall ctx req st, handler.CreateAppointment h ctx req = Err st -> P (Code st))
  /\ (forall ctx req st, handler.GetAppointment h ctx req = Err st -> P (Code st))
  /\ (forall ctx req st, handler.UpdateAppointment h ctx req = Err st -> P (Code st))
  /\ (forall ctx req st, handler.DeleteAppointment h ctx req = Err st -> P (Code st)).

Definition collaborator_errors (P : Z -> Prop) (b : Bridge) : Prop :=
  (forall ctx path req st, conn b ctx path req = Err st -> P (Code st))
  /\ (forall h, direct b = Some h -> handler_errors P h).

(** A status code that is not OK. *)
Definition not_OK (code : Z) : Prop := code <> codes.OK.

(** A request with another body. *)
Definition with_body (r : Request) (body : bytes) : Request :=
  mkRequest (Method r) (URLPath r) (Header r) (Some body).

(** * The gRPC server and its handler *)

(** ** [internal/middleware]

    The unary interceptor of the gRPC server.  The incoming metadata of
    the context ([metadata.FromIncomingContext]) is an argument of its
    own; [next] is the rest of the chain and may panic. *)

Module middleware.

Definition MD : Type := string -> list string.

Definition open (fullMethod : string) : bool :=
  String.eqb fullMethod "/appointment.v1.ScheduleService/Register"
  || String.eqb fullMethod "/appointment.v1.ScheduleService/Login".

Section Interceptor.

Variable L : jwt.Lib auth.Claims.
Context {Req Resp : Type}.

Definition Auth (secret : string) (incoming : option MD) (ctx : Context) (req : Req)
    (fullMethod : string) (next : Context -> Req -> option (result Status Resp))
  : option (result Status Resp) :=
  if open fullMethod then next ctx req
  else
    match incoming with
    | None => Some (Err (mkStatus codes.Unauthenticated "missing metadata"))
    | Some md =>
        let raw := ""%string in
        let vals := md "authorization"%string in
        let raw :=
          match vals with
          | v :: _ => strings.TrimPrefix v "Bearer "
          | [] => raw
          end in
        if String.eqb raw "" then
          Some (Err (mkStatus codes.Unauthenticated "no token"))
        else
          match auth.ParseToken L raw secret with
          | Err _ => Some (Err (mkStatus codes.Unauthenticated "bad token"))
          | Ok claims =>
              let ctx := mkContext (authorization_md ctx) (Some (auth.UserID claims)) in
              next ctx req
          end
    end.

End Interceptor.

(** methods that should be rate limited *)
Definition limited (fullMethod : string) : bool :=
  String.eqb fullMethod "/appointment.v1.ScheduleService/Register"
  || String.eqb fullMethod "/appointment.v1.ScheduleService/Login".

(** [RateLimit].  [Allow ip] is the answer of [rl.get(ip).Allow()] to this
    call and [peer] the address of [peer.FromContext]. *)
Definition RateLimit {Req Resp : Type} (Allow : string -> bool) (peer : option string)
    (ctx : Context) (req : Req) (fullMethod : string)
    (next : Context -> Req -> option (result Status Resp))
  : option (result Status Resp) :=
  if negb (limited fullMethod) then next ctx req
  else
    let ip := "unknown"%string in
    let ip :=
      match peer with
      | Some addr => addr
      | None => ip
      end in
    if negb (Allow ip) then
      Some (Err (mkStatus codes.ResourceExhausted "too many requests"))
    else next ctx req.

(** The chain of [cmd/server]: [RateLimit], then [Auth]. *)
Definition chain {Req Resp : Type} (L : jwt.Lib auth.Claims) (Allow : string -> bool)
    (secret : string) (peer : option string) (incoming : option MD) (ctx : Context)
    (req : Req) (fullMethod : string)
    (next : Context -> Req -> option (result Status Resp))
  : option (result Status Resp) :=
  RateLimit Allow peer ctx req fullMethod
    (fun ctx req => Auth L secret incoming ctx req fullMethod next).

End middleware.

(** ** [internal/model] *)

Module model.

Module User.
Record t (Time : Type) : Type := mk {
  ID : string;
  Email : string;
  PasswordHash : string;
  Name : string;
  CreatedAt : Time;
  UpdatedAt : Time
}.
Arguments mk {Time}.
Arguments ID {Time}.
Arguments Email {Time}.
Arguments PasswordHash {Time}.
Arguments Name {Time}.
Arguments CreatedAt {Time}.
Arguments UpdatedAt {Time}.
End User.

Module Appointment.
Record t (Time : Type) : Type := mk {
  ID : string;
  Title : string;
  Description : string;
  StartTime : Time;
  EndTime : Time;
  UserID : string;
  Status : string;
  Location : string;
  AttendeeIDs : list string;
  CreatedAt : Time;
  UpdatedAt : Time
}.
Arguments mk {Time}.
Arguments ID {Time}.
Arguments Title {Time}.
Arguments Description {Time}.
Arguments StartTime {Time}.
Arguments EndTime {Time}.
Arguments UserID {Time}.
Arguments Status {Time}.
Arguments Location {Time}.
Arguments AttendeeIDs {Time}.
Arguments CreatedAt {Time}.
Arguments UpdatedAt {Time}.
End Appointment.

End model.

(** ** [internal/store]

    The queries of the store as the handlers see them: a result or an
    error of the database.  [None] is the [nil] error. *)

Module pgstore.

Record Store (Time E : Type) : Type := mkStore {
  CreateUser : model.User.t Time -> option E;
  UserByEmail : string -> result E (model.User.t Time);
  CreateAppointment : model.Appointment.t Time -> option E;
  HasOverlap : string -> Time -> Time -> string -> result E bool;
  ListAppointments : string -> Time -> Time -> result E (list (model.Appointment.t Time));
  GetAppointment : string -> result E (model.Appointment.t Time);
  UpdateAppointment : model.Appointment.t Time -> option E;
  DeleteAppointment : string -> string -> option E
}.
Arguments CreateUser {Time E}.
Arguments UserByEmail {Time E}.
Arguments CreateAppointment {Time E}.
Arguments HasOverlap {Time E}.
Arguments ListAppointments {Time E}.
Arguments GetAppointment {Time E}.
Arguments UpdateAppointment {Time E}.
Arguments DeleteAppointment {Time E}.

End pgstore.

(** ** [internal/handler]: the methods of [*Handler]

    The clock, [time.Time] and its operations, [timestamppb], [uuid] and
    the password and token functions of [internal/auth] are the fields of
    [Env].  [Now n] is the [n]-th reading of the clock during a call.  A
    method that reads the user id of a context without one panics
    ([None]). *)

Module impl.

Record Env (Time E : Type) : Type := mkEnv {
  (* time *)
  Now : nat -> Time;
  ZeroTime : Time;
  Add : Time -> Z -> Time;
  AddDate : Time -> Z -> Z -> Z -> Time;
  After : Time -> Time -> bool;
  Before : Time -> Time -> bool;
  IsZero : Time -> bool;
  (* timestamppb *)
  AsTime : pb.Timestamp -> Time;
  New : Time -> pb.Timestamp;
  (* uuid.New().String() *)
  NewString : string;
  (* internal/auth *)
  HashPassword : string -> result E string;
  CheckPassword : string -> string -> bool;
  MakeToken : string -> string -> result E string
}.
Arguments Now {Time E}.
Arguments ZeroTime {Time E}.
Arguments Add {Time E}.
Arguments AddDate {Time E}.
Arguments After {Time E}.
Arguments Before {Time E}.
Arguments IsZero {Time E}.
Arguments AsTime {Time E}.
Arguments New {Time E}.
Arguments NewString {Time E}.
Arguments HashPassword {Time E}.
Arguments CheckPassword {Time E}.
Arguments MakeToken {Time E}.

Record Handler (Time E : Type) : Type := mkHandler {
  store : pgstore.Store Time E;
  secret : string
}.
Arguments store {Time E}.
Arguments secret {Time E}.

(** [time.Minute] in nanoseconds. *)
Definition Minute : Z := 60 * 1000000000.

Section Methods.

Context {Time E : Type}.
Variable env : Env Time E.

Definition Register (h : Handler Time E) (ctx : Context) (req : pb.RegisterRequest.t)
  : result Status pb.RegisterResponse.t :=
  if String.eqb (pb.RegisterRequest.Email req) ""
     || String.eqb (pb.RegisterRequest.Password req) ""
     || String.eqb (pb.RegisterRequest.Name req) "" then
    Err (mkStatus codes.InvalidArgument "all fields required")
  else if len (bytes_of (pb.RegisterRequest.Password req)) <? 8 then
    Err (mkStatus codes.InvalidArgument "password too short")
  else
    match HashPassword env (pb.RegisterRequest.Password req) with
    | Err _ => Err (mkStatus codes.Internal "internal error")
    | Ok hash =>
        let u := model.User.mk (NewString env) (pb.RegisterRequest.Email req) hash
                   (pb.RegisterRequest.Name req) (ZeroTime env) (ZeroTime env) in
        match pgstore.CreateUser (store h) u with
        | Some _ => Err (mkStatus codes.AlreadyExists "registration failed")
        | None =>
            match MakeToken env (model.User.ID u) (secret h) with
            | Err _ => Err (mkStatus codes.Internal "internal error")
            | Ok tok => Ok (pb.RegisterResponse.mk (model.User.ID u) tok)
            end
        end
    end.

Definition Login (h : Handler Time E) (ctx : Context) (req : pb.LoginRequest.t)
  : result Status pb.LoginResponse.t :=
  if String.eqb (pb.LoginRequest.Email req) ""
     || String.eqb (pb.LoginRequest.Password req) "" then
    Err (mkStatus codes.InvalidArgument "email and password required")
  else
    match pgstore.UserByEmail (store h) (pb.LoginRequest.Email req) with
    | Err _ => Err (mkStatus codes.Unauthenticated "invalid credentials")
    | Ok u =>
        if negb (CheckPassword env (model.User.PasswordHash u)
                   (pb.LoginRequest.Password req)) then
          Err (mkStatus codes.Unauthenticated "invalid credentials")
        else
          match MakeToken env (model.User.ID u) (secret h) with
          | Err _ => Err (mkStatus codes.Internal "internal error")
          | Ok tok =>
              Ok (pb.LoginResponse.mk tok (model.User.ID u) (model.User.Name u))
          end
    end.

(** [ctx.Value(middleware.UserIDKey).(string)] *)
Definition uid (ctx : Context) : option string := UserIDValue ctx.

Definition toProto (a : model.Appointment.t Time) : pb.Appointment :=
  let stamp (t : Time) := if negb (IsZero env t) then Some (New env t) else None in
  pb.mkAppointment
    (model.Appointment.ID a) (model.Appointment.Title a)
    (model.Appointment.Description a)
    (stamp (model.Appointment.StartTime a)) (stamp (model.Appointment.EndTime a))
    (model.Appointment.UserID a) (model.Appointment.Status a)
    (model.Appointment.Location a) (model.Appointment.AttendeeIDs a)
    (stamp (model.Appointment.CreatedAt a)) (stamp (model.Appointment.UpdatedAt a)).

Definition CreateAppointment (h : Handler Time E) (ctx : Context)
    (req : pb.CreateAppointmentRequest.t)
  : option (result Status pb.CreateAppointmentResponse.t) :=
  match uid ctx with
  | None => None
  | Some userID =>
      Some
        (if String.eqb (pb.CreateAppointmentRequest.Title req) "" then
           Err (mkStatus codes.InvalidArgument "title required")
         else
           match pb.CreateAppointmentRequest.StartTime req,
                 pb.CreateAppointmentRequest.EndTime req with
           | Some st, Some en =>
               let start := AsTime env st in
               let end_ := AsTime env en in
               if negb (After env end_ start) then
                 Err (mkStatus codes.InvalidArgument "end must be after start")
               else if Before env start (Add env (Now env 0) (- 5 * Minute)) then
                 Err (mkStatus codes.InvalidArgument "cannot book in the past")
               else
                 match pgstore.HasOverlap (store h) userID start end_ "" with
                 | Err _ => Err (mkStatus codes.Internal "internal error")
                 | Ok true =>
                     Err (mkStatus codes.AlreadyExists
                            "time conflicts with existing appointment")
                 | Ok false =>
                     let apt :=
                       model.Appointment.mk (NewString env)
                         (pb.CreateAppointmentRequest.Title req)
                         (pb.CreateAppointmentRequest.Description req)
                         start end_ userID "confirmed"
                         (pb.CreateAppointmentRequest.Location req)
                         (pb.CreateAppointmentRequest.AttendeeIds req)
                         (ZeroTime env) (ZeroTime env) in
                     match pgstore.CreateAppointment (store h) apt with
                     | Some _ =>
                         Err (mkStatus codes.AlreadyExists
                                "time conflicts with existing appointment")
                     | None =>
                         Ok (pb.CreateAppointmentResponse.mk (Some (toProto apt)))
                     end
                 end
           | _, _ => Err (mkStatus codes.InvalidArgument "times required")
           end)
  end.

Definition ListAppointments (h : Handler Time E) (ctx : Context)
    (req : pb.ListAppointmentsRequest.t)
  : option (result Status pb.ListAppointmentsResponse.t) :=
  match uid ctx with
  | None => None
  | Some userID =>
      let from := AddDate env (Now env 0) 0 0 (- 30) in
      let to := AddDate env (Now env 1) 0 2 0 in
      let from :=
        match pb.ListAppointmentsRequest.RangeStart req with
        | Some ts => AsTime env ts
        | None => from
        end in
      let to :=
        match pb.ListAppointmentsRequest.RangeEnd req with
        | Some ts => AsTime env ts
        | None => to
        end in
      match pgstore.ListAppointments (store h) userID from to with
      | Err _ => Some (Err (mkStatus codes.Internal "internal error"))
      | Ok apts =>
          Some (Ok (pb.ListAppointmentsResponse.mk
                      (map (fun a => Some (toProto a)) apts)))
      end
  end.

Definition GetAppointment (h : Handler Time E) (ctx : Context)
    (req : pb.GetAppointmentRequest.t)
  : option (result Status pb.GetAppointmentResponse.t) :=
  if String.eqb (pb.GetAppointmentRequest.Id req) "" then
    Some (Err (mkStatus codes.InvalidArgument "id required"))
  else
    match pgstore.GetAppointment (store h) (pb.GetAppointmentRequest.Id req) with
    | Err _ => Some (Err (mkStatus codes.NotFound "not found"))
    | Ok apt =>
        (* ownership *)
        match uid ctx with
        | None => None
        | Some u =>
            if negb (String.eqb (model.Appointment.UserID apt) u) then
              Some (Err (mkStatus codes.NotFound "not found"))
            else Some (Ok (pb.GetAppointmentResponse.mk (Some (toProto apt))))
        end
    end.

Definition UpdateAppointment (h : Handler Time E) (ctx : Context)
    (req : pb.UpdateAppointmentRequest.t)
  : option (result Status pb.UpdateAppointmentResponse.t) :=
  match uid ctx with
  | None => None
  | Some userID =>
      Some
        (if String.eqb (pb.UpdateAppointmentRequest.Id req) ""
            || String.eqb (pb.UpdateAppointmentRequest.Title req) "" then
           Err (mkStatus codes.InvalidArgument "id and title required")
         else
           match pb.UpdateAppointmentRequest.StartTime req,
                 pb.UpdateAppointmentRequest.EndTime req with
           | Some st, Some en =>
               let start := AsTime env st in
               let end_ := AsTime env en in
               if negb (After env end_ start) then
                 Err (mkStatus codes.InvalidArgument "end must be after start")
               else
                 (* exclude self from overlap check *)
                 match pgstore.HasOverlap (store h) userID start end_
                         (pb.UpdateAppointmentRequest.Id req) with
                 | Err _ => Err (mkStatus codes.Internal "internal error")
                 | Ok true =>
                     Err (mkStatus codes.AlreadyExists
                            "time conflicts with existing appointment")
                 | Ok false =>
                     let apt :=
                       model.Appointment.mk
                         (pb.UpdateAppointmentRequest.Id req)
                         (pb.UpdateAppointmentRequest.Title req)
                         (pb.UpdateAppointmentRequest.Description req)
                         start end_ userID ""
                         (pb.UpdateAppointmentRequest.Location req)
                         (pb.UpdateAppointmentRequest.AttendeeIds req)
                         (ZeroTime env) (ZeroTime env) in
                     match pgstore.UpdateAppointment (store h) apt with
                     | Some _ =>
                         Err (mkStatus codes.AlreadyExists
                                "time conflicts with existing appointment")
                     | None =>
                         Ok (pb.UpdateAppointmentResponse.mk (Some (toProto apt)))
                     end
                 end
           | _, _ => Err (mkStatus codes.InvalidArgument "times required")
           end)
  end.

Definition DeleteAppointment (h : Handler Time E) (ctx : Context)
    (req : pb.DeleteAppointmentRequest.t)
  : option (result Status pb.DeleteAppointmentResponse.t) :=
  if String.eqb (pb.DeleteAppointmentRequest.Id req) "" then
    Some (Err (mkStatus codes.InvalidArgument "id required"))
  else
    match uid ctx with
    | None => None
    | Some u =>
        match pgstore.DeleteAppointment (store h)
                (pb.DeleteAppointmentRequest.Id req) u with
        | Some _ => Some (Err (mkStatus codes.Internal "internal error"))
        | None => Some (Ok pb.DeleteAppointmentResponse.mk)
        end
    end.

End Methods.

End impl.

(** ** A concrete handler

    A clock that stands still, times as nanoseconds, a password hash
    that prefixes ["h:"], tokens as [Fixture.lib] reads them and a store
    with one user and two appointments. *)

Module Sample.

Definition env : impl.Env Z unit :=
  impl.mkEnv Z unit
    (fun _ => 1000 * 10 ^ 9) 0
    (fun t d => t + d)
    (fun t y m d => t + ((y * 12 + m) * 30 + d) * 86400 * 10 ^ 9)
    (fun t u => u <? t) (fun t u => t <? u) (fun t => t =? 0)
    (fun ts => pb.Seconds ts * 10 ^ 9 + pb.Nanos ts)
    (fun t => pb.mkTimestamp (t / 10 ^ 9) (t mod 10 ^ 9))
    "id-1"
    (fun pw => Ok ("h:" ++ pw)%string)
    (fun hash pw => String.eqb hash ("h:" ++ pw))
    (fun uid secret => Ok ("HS256." ++ uid ++ "." ++ secret)%string).

Definition ann : model.User.t Z :=
  model.User.mk "u1" "ann@example.com" "h:password1" "Ann" 0 0.

Definition a1 : model.Appointment.t Z :=
  model.Appointment.mk "a1" "Standup" "" (2000 * 10 ^ 9) (2060 * 10 ^ 9) "u1"
    "confirmed" "" [] (900 * 10 ^ 9) 0.

Definition a2 : model.Appointment.t Z :=
  model.Appointment.mk "a2" "Review" "" (3000 * 10 ^ 9) (3060 * 10 ^ 9) "u2"
    "confirmed" "" ["u1"%string] (900 * 10 ^ 9) 0.

Definition db : pgstore.Store Z unit :=
  pgstore.mkStore Z unit
    (fun u => if String.eqb (model.User.Email u) "ann@example.com" then Some tt else None)
    (fun email => if String.eqb email "ann@example.com" then Ok ann else Err tt)
    (fun _ => None)
    (fun _ _ _ _ => Ok false)
    (fun uid _ _ => Ok (if String.eqb uid "u1" then [a1] else []))
    (fun id =>
       if String.eqb id "a1" then Ok a1
       else if String.eqb id "a2" then Ok a2
       else Err tt)
    (fun _ => None)
    (fun _ _ => None).

Definition h : impl.Handler Z unit := impl.mkHandler Z unit db "s3cret".

(** The handler as the bridge holds it.  The bridge calls the methods
    that read the user id with a context that has one. *)
Definition returned {A : Type} (r : option (result Status A)) : result Status A :=
  match r with
  | Some r => r
  | None => Err (mkStatus codes.Unknown "panic")
  end.

Definition direct : handler.Handler :=
  handler.mkHandler
    (impl.Login env h) (impl.Register env h)
    (fun ctx req => returned (impl.ListAppointments env h ctx req))
    (fun ctx req => returned (impl.CreateAppointment env h ctx req))
    (fun ctx req => returned (impl.GetAppointment env h ctx req))
    (fun ctx req => returned (impl.UpdateAppointment env h ctx req))
    (fun ctx req => returned (impl.DeleteAppointment h ctx req)).

Definition bridge : Bridge := mkBridge Fixture.backend (Some direct) "s3cret".

(** A request of the user ["u1"] for an appointment, over gRPC-Web and as
    the metadata of a gRPC call. *)
Definition token : string := "Bearer HS256.u1.s3cret".

Definition get (id : string) : Request :=
  Fixture.post (Fixture.svc ++ "/GetAppointment") [token]
    (frame x00 (string_field x0a id)).

Definition as_u1 : Context := mkContext [token] (Some "u1"%string).

Definition md : middleware.MD :=
  fun key => if String.eqb key "authorization" then [token] else [].

End Sample.

(** ** Further notions used in the statements *)

(** The five CORS headers that [Handler] sets on every response; the
    origin of the request is echoed, [*] when it has none. *)
Definition cors_headers (r : Request) : list Event :=
  [SetHeader "Access-Control-Allow-Origin"
     (if String.eqb (Header_Get (Header r) "Origin") "" then "*"%string
      else Header_Get (Header r) "Origin");
   SetHeader "Access-Control-Allow-Methods" "POST, OPTIONS";
   SetHeader "Access-Control-Allow-Headers"
     "Content-Type, X-Grpc-Web, X-User-Agent, Authorization, x-grpc-web";
   SetHeader "Access-Control-Expose-Headers"
     "Grpc-Status, Grpc-Message, Grpc-Status-Details-Bin, grpc-status, grpc-message";
   SetHeader "Access-Control-Max-Age" "86400"].

(** The last segment of the path of a method. *)
Definition method_suffix (m : DirectMethod) : string :=
  match m with
  | MLogin => "/Login"
  | MRegister => "/Register"
  | MListAppointments => "/ListAppointments"
  | MCreateAppointment => "/CreateAppointment"
  | MGetAppointment => "/GetAppointment"
  | MUpdateAppointment => "/UpdateAppointment"
  | MDeleteAppointment => "/DeleteAppointment"
  end.



(** A timestamp as Go holds it: [int64] seconds and [int32] nanoseconds. *)
Definition timestamp_ok (o : option pb.Timestamp) : Prop :=
  match o with
  | None => True
  | Some ts => - 2 ^ 63 <= pb.Seconds ts < 2 ^ 63 /\ - 2 ^ 31 <= pb.Nanos ts < 2 ^ 31
  end.

(** A string field as a proto3 encoder writes it: left out when empty. *)
Definition opt_string_field (t : byte) (s : string) : bytes :=
  if String.eqb s "" then [] else string_field t s.

(** The method and the context of a call to the handler. *)
Definition call_method (c : HandlerCall) : DirectMethod :=
  match c with
  | CallLogin _ _ => MLogin
  | CallRegister _ _ => MRegister
  | CallListAppointments _ _ => MListAppointments
  | CallCreateAppointment _ _ => MCreateAppointment
  | CallGetAppointment _ _ => MGetAppointment
  | CallUpdateAppointment _ _ => MUpdateAppointment
  | CallDeleteAppointment _ _ => MDeleteAppointment
  end.

Definition call_context (c : HandlerCall) : Context :=
  match c with
  | CallLogin ctx _ | CallRegister ctx _ | CallListAppointments ctx _
  | CallCreateAppointment ctx _ | CallGetAppointment ctx _
  | CallUpdateAppointment ctx _ | CallDeleteAppointment ctx _ => ctx
  end.

(** The proto3 encoding of the request of a call: fields in the order of
    their numbers, empty strings and unset timestamps left out, one field
    per attendee. *)
Definition request_bytes (c : HandlerCall) : bytes :=
  match c with
  | CallLogin _ r =>
      opt_string_field x0a (pb.LoginRequest.Email r)
      ++ opt_string_field x12 (pb.LoginRequest.Password r)
  | CallRegister _ r =>
      opt_string_field x0a (pb.RegisterRequest.Email r)
      ++ opt_string_field x12 (pb.RegisterRequest.Password r)
      ++ opt_string_field x1a (pb.RegisterRequest.Name r)
  | CallListAppointments _ r =>
      timestamp_field x0a (pb.ListAppointmentsRequest.RangeStart r)
      ++ timestamp_field x12 (pb.ListAppointmentsRequest.RangeEnd r)
  | CallCreateAppointment _ r =>
      opt_string_field x0a (pb.CreateAppointmentRequest.Title r)
      ++ opt_string_field x12 (pb.CreateAppointmentRequest.Description r)
      ++ timestamp_field x1a (pb.CreateAppointmentRequest.StartTime r)
      ++ timestamp_field x22 (pb.CreateAppointmentRequest.EndTime r)
      ++ opt_string_field x2a (pb.CreateAppointmentRequest.Location r)
      ++ List.concat (map (string_field x32) (pb.CreateAppointmentRequest.AttendeeIds r))
  | CallGetAppointment _ r =>
      opt_string_field x0a (pb.GetAppointmentRequest.Id r)
  | CallUpdateAppointment _ r =>
      opt_string_field x0a (pb.UpdateAppointmentRequest.Id r)
      ++ opt_string_field x12 (pb.UpdateAppointmentRequest.Title r)
      ++ opt_string_field x1a (pb.UpdateAppointmentRequest.Description r)
      ++ timestamp_field x22 (pb.UpdateAppointmentRequest.StartTime r)
      ++ timestamp_field x2a (pb.UpdateAppointmentRequest.EndTime r)
      ++ opt_string_field x32 (pb.UpdateAppointmentRequest.Location r)
      ++ List.concat (map (string_field x3a) (pb.UpdateAppointmentRequest.AttendeeIds r))
  | CallDeleteAppointment _ r =>
      opt_string_field x0a (pb.DeleteAppointmentRequest.Id r)
  end.

(** The strings of the request have a length that fits Go's [int], and
    its timestamps are in the range of their Go types. *)
Definition request_sized (c : HandlerCall) : Prop :=
  match c with
  | CallLogin _ r =>
      fits (pb.LoginRequest.Email r) /\ fits (pb.LoginRequest.Password r)
  | CallRegister _ r =>
      fits (pb.RegisterRequest.Email r) /\ fits (pb.RegisterRequest.Password r)
      /\ fits (pb.RegisterRequest.Name r)
  | CallListAppointments _ r =>
      timestamp_ok (pb.ListAppointmentsRequest.RangeStart r)
      /\ timestamp_ok (pb.ListAppointmentsRequest.RangeEnd r)
  | CallCreateAppointment _ r =>
      fits (pb.CreateAppointmentRequest.Title r)
      /\ fits (pb.CreateAppointmentRequest.Description r)
      /\ timestamp_ok (pb.CreateAppointmentRequest.StartTime r)
      /\ timestamp_ok (pb.CreateAppointmentRequest.EndTime r)
      /\ fits (pb.CreateAppointmentRequest.Location r)
      /\ Forall fits (pb.CreateAppointmentRequest.AttendeeIds r)
  | CallGetAppointment _ r => fits (pb.GetAppointmentRequest.Id r)
  | CallUpdateAppointment _ r =>
      fits (pb.UpdateAppointmentRequest.Id r)
      /\ fits (pb.UpdateAppointmentRequest.Title r)
      /\ fits (pb.UpdateAppointmentRequest.Description r)
      /\ timestamp_ok (pb.UpdateAppointmentRequest.StartTime r)
      /\ timestamp_ok (pb.UpdateAppointmentRequest.EndTime r)
      /\ fits (pb.UpdateAppointmentRequest.Location r)
      /\ Forall fits (pb.UpdateAppointmentRequest.AttendeeIds r)
  | CallDeleteAppointment _ r => fits (pb.DeleteAppointmentRequest.Id r)
  end.

(** The context with which the bridge calls the handler of a method: the
    request's own for [Login] and [Register], the one of [manualAuth] for
    the others. *)
Definition handler_context (L : jwt.Lib auth.Claims) (b : Bridge) (ctx : Context)
    (authHeader : string) (m : DirectMethod) : result Status Context :=
  match m with
  | MLogin | MRegister => Ok ctx
  | _ => manualAuth L b ctx authHeader
  end.

(** The status codes with which the handlers fail. *)
Definition handler_codes : list Z :=
  [codes.InvalidArgument; codes.NotFound; codes.AlreadyExists; codes.Internal;
   codes.Unauthenticated].

(** The status of the error of a call that returned, if it failed. *)
Definition failure {A : Type} (r : option (result Status A)) : option Status :=
  match r with
  | Some (Err st) => Some st
  | _ => None
  end.

(** [hd] is the handler [h] in the environment [env]: it answers as the
    methods of [h] do, wherever they return. *)
Definition implements {Time E : Type} (env : impl.Env Time E) (h : impl.Handler Time E)
    (hd : handler.Handler) : Prop :=
  (forall ctx req, handler.Login hd ctx req = impl.Login env h ctx req)
  /\ (forall ctx req, handler.Register hd ctx req = impl.Register env h ctx req)
  /\ (forall ctx req r, impl.ListAppointments env h ctx req = Some r ->
                        handler.ListAppointments hd ctx req = r)
  /\ (forall ctx req r, impl.CreateAppointment env h ctx req = Some r ->
                        handler.CreateAppointment hd ctx req = r)
  /\ (forall ctx req r, impl.GetAppointment env h ctx req = Some r ->
                        handler.GetAppointment hd ctx req = r)
  /\ (forall ctx req r, impl.UpdateAppointment env h ctx req = Some r ->
                        handler.UpdateAppointment hd ctx req = r)
  /\ (forall ctx req r, impl.DeleteAppointment h ctx req = Some r ->
                        handler.DeleteAppointment hd ctx req = r).

(** * Properties *)

(** ** Bytes and big-endian words *)

Lemma u8_range (b : byte) : 0 <= u8 b < 256.
Proof.
  unfold u8. pose proof (Byte.to_N_bounded b). lia.
Qed.

Lemma byte_of_u8 (b : byte) : byte_of (u8 b) = b.
Proof.
  unfold byte_of. rewrite Z.mod_small by apply u8_range.
  unfold u8. rewrite N2Z.id, Byte.of_to_N. reflexivity.
Qed.

Lemma u8_byte_of (x : Z) : u8 (byte_of x) = x mod 256.
Proof.
  unfold byte_of, u8.
  assert (H : 0 <= x mod 256 < 256) by (apply Z.mod_pos_bound; lia).
  destruct (Byte.of_N (Z.to_N (x mod 256))) eqn:E.
  - apply Byte.to_of_N in E. rewrite E. lia.
  - apply Byte.of_N_None_iff in E. lia.
Qed.

Lemma testbit_byte (x n : Z) :
  0 <= n -> Z.testbit (x mod 256) n = (n <? 8) && Z.testbit x n.
Proof.
  intros Hn. change 256 with (2 ^ 8). rewrite <- Z.land_ones by lia.
  rewrite Z.land_spec, Z.testbit_ones by lia.
  destruct (Z.leb_spec 0 n), (Z.ltb_spec n 8); simpl; try lia;
    rewrite ?andb_true_r, ?andb_false_r; reflexivity.
Qed.

Lemma testbit_above (v k n : Z) :
  0 <= v < 2 ^ k -> 0 <= k <= n -> Z.testbit v n = false.
Proof.
  intros Hv Hk.
  destruct (Z.eq_dec v 0) as [->|Hz]; [apply Z.testbit_0_l|].
  apply Z.bits_above_log2; [lia|].
  apply Z.log2_lt_pow2; [lia|].
  apply Z.lt_le_trans with (2 ^ k); [lia|].
  apply Z.pow_le_mono_r; lia.
Qed.

(** Reading back the four bytes of a 32-bit word. *)
Lemma Uint32_be32 (v : Z) (rest : bytes) :
  0 <= v < 2 ^ 32 -> binary.Uint32 (binary.be32 v ++ rest) = Some v.
Proof.
  intros Hv. unfold binary.be32. simpl app. unfold binary.Uint32.
  f_equal. rewrite !u8_byte_of.
  apply Z.bits_inj'. intros n Hn.
  rewrite !Z.lor_spec, !Z.shiftl_spec by lia.
  destruct (Z.ltb_spec n 8); [|destruct (Z.ltb_spec n 16); [|destruct (Z.ltb_spec n 24)]].
  - rewrite testbit_byte by lia.
    rewrite (Z.testbit_neg_r _ (n - 8)), (Z.testbit_neg_r _ (n - 16)),
      (Z.testbit_neg_r _ (n - 24)) by lia.
    destruct (Z.ltb_spec n 8); try lia. simpl. rewrite !orb_false_r. reflexivity.
  - rewrite !testbit_byte by lia.
    rewrite (Z.testbit_neg_r _ (n - 16)), (Z.testbit_neg_r _ (n - 24)) by lia.
    rewrite Z.shiftr_spec by lia.
    destruct (Z.ltb_spec n 8); try lia. destruct (Z.ltb_spec (n - 8) 8); try lia.
    simpl. rewrite !orb_false_r. f_equal. lia.
  - rewrite !testbit_byte by lia.
    rewrite (Z.testbit_neg_r _ (n - 24)) by lia.
    rewrite !Z.shiftr_spec by lia.
    destruct (Z.ltb_spec n 8); try lia. destruct (Z.ltb_spec (n - 8) 8); try lia.
    destruct (Z.ltb_spec (n - 16) 8); try lia.
    simpl. rewrite !orb_false_r. f_equal. lia.
  - rewrite !testbit_byte by lia.
    rewrite !Z.shiftr_spec by lia.
    destruct (Z.ltb_spec n 8); try lia. destruct (Z.ltb_spec (n - 8) 8); try lia.
    destruct (Z.ltb_spec (n - 16) 8); try lia. simpl.
    destruct (Z.ltb_spec (n - 24) 8); simpl.
    + f_equal. lia.
    + symmetry. apply testbit_above with (k := 32); lia.
Qed.

(** ** Frames *)

Lemma len_nonneg {A} (l : list A) : 0 <= len l.
Proof. unfold len. lia. Qed.

Lemma len_cons {A} (x : A) (l : list A) : len (x :: l) = 1 + len l.
Proof. unfold len. cbn [List.length]. lia. Qed.

Lemma len_app {A} (l1 l2 : list A) : len (l1 ++ l2) = len l1 + len l2.
Proof. unfold len. rewrite length_app. lia. Qed.

Lemma overwrite_repeat (x : byte) (p : bytes) :
  overwrite (repeat x (List.length p)) p = p.
Proof.
  induction p as [|a p IH]; simpl; [reflexivity|]. now rewrite IH.
Qed.

Lemma make_5 (p : bytes) :
  make (5 + len p) = x00 :: x00 :: x00 :: x00 :: x00 :: repeat x00 (List.length p).
Proof.
  unfold make, len.
  replace (Z.to_nat (5 + Z.of_nat (List.length p))) with (5 + List.length p)%nat by lia.
  reflexivity.
Qed.

Lemma len_repeat {A} (x : A) (n : nat) : len (repeat x n) = Z.of_nat n.
Proof. unfold len. now rewrite repeat_length. Qed.

Lemma bind_ret_l {A B} (a : A) (k : A -> M B) : bind (ret a) k = k a.
Proof. unfold bind, ret. destruct (k a). reflexivity. Qed.

Lemma must_Some {A} (a : A) : must (Some a) = ret a.
Proof. reflexivity. Qed.

Lemma bind_emit_l {B} (e : Event) (k : unit -> M B) :
  bind (emit e) k = (e :: fst (k tt), snd (k tt)).
Proof. unfold bind, emit. destruct (k tt). reflexivity. Qed.

Lemma store_head (x v : byte) (l : bytes) : store (x :: l) 0 v = Some (v :: l).
Proof. reflexivity. Qed.

Lemma PutUint32_header (f a b c d : byte) (rest : bytes) (v : Z) :
  binary.PutUint32 (f :: a :: b :: c :: d :: rest) 1 5 v
  = Some (f :: binary.be32 v ++ rest).
Proof.
  unfold binary.PutUint32, slice. rewrite !len_cons.
  pose proof (len_nonneg rest).
  destruct (Z.ltb_spec (1 + (1 + (1 + (1 + (1 + len rest))))) 5); [lia|].
  change (1 <? 0) with false. change (5 <? 1) with false. cbn [orb].
  change (Z.to_nat (5 - 1)) with 4%nat. change (Z.to_nat 1) with 1%nat.
  cbn [skipn firstn]. change (len [a; b; c; d] <? 4) with false. cbv iota.
  unfold copy_at. rewrite !len_cons.
  destruct (Z.ltb_spec (1 + (1 + (1 + (1 + (1 + len rest))))) 1); [lia|].
  change (1 <? 0) with false. cbn [orb]. change (Z.to_nat 1) with 1%nat.
  destruct rest; reflexivity.
Qed.

Lemma copy_at_payload (f a b c d : byte) (rest p : bytes) :
  List.length rest = List.length p ->
  copy_at (f :: a :: b :: c :: d :: rest) 5 p = Some (f :: a :: b :: c :: d :: p).
Proof.
  intros E. unfold copy_at. rewrite !len_cons.
  pose proof (len_nonneg rest).
  destruct (Z.ltb_spec (1 + (1 + (1 + (1 + (1 + len rest))))) 5); [lia|].
  change (5 <? 0) with false. cbn [orb]. change (Z.to_nat 5) with 5%nat.
  cbn [skipn firstn app]. do 6 f_equal.
  clear H H0. revert p E. induction rest as [|x rest IH]; intros [|y p] E; try discriminate.
  - reflexivity.
  - simpl. f_equal. apply IH. now inversion E.
Qed.

(** The three steps that fill a frame buffer: flag, length, payload. *)
Lemma build_frame {B} (flag : byte) (p : bytes) (k : bytes -> M B) :
  (tf <- must (store (make (5 + len p)) 0 flag) ;;
   tf <- must (binary.PutUint32 tf 1 5 (uint32 (len p))) ;;
   tf <- must (copy_at tf 5 p) ;;
   k tf)
  = k (frame flag p).
Proof.
  rewrite make_5, store_head, must_Some, bind_ret_l.
  rewrite PutUint32_header, must_Some, bind_ret_l.
  unfold binary.be32 at 1. cbn [app].
  rewrite copy_at_payload by apply repeat_length.
  rewrite must_Some, bind_ret_l. reflexivity.
Qed.

Lemma writeSuccess_frames (d : bytes) :
  writeSuccess d =
    ([SetHeader "Content-Type" "application/grpc-web+proto"; WriteHeader 200;
      Write (frame x00 d); Write (frame x80 (bytes_of ok_trailer))], Val tt).
Proof.
  unfold writeSuccess. fold ok_trailer.
  rewrite (build_frame x00 d), (build_frame x80 (bytes_of ok_trailer)).
  reflexivity.
Qed.

Lemma writeError_frame (code : Z) (msg : string) :
  writeError code msg =
    ([SetHeader "Content-Type" "application/grpc-web+proto"; WriteHeader 200;
      Write (frame x80 (bytes_of (error_trailer code msg)))], Val tt).
Proof.
  unfold writeError. fold (error_trailer code msg).
  rewrite (build_frame x80 (bytes_of (error_trailer code msg))).
  reflexivity.
Qed.

Lemma format_d_inj (a b : Z) : 0 <= a -> 0 <= b -> format_d a = format_d b -> a = b.
Proof.
  intros Ha Hb E. unfold format_d in E.
  assert (Hn : forall n, N.to_uint n <> Decimal.Nil).
  { intros [|p]; [discriminate|]. simpl. apply DecimalPos.Unsigned.to_uint_nonnil. }
  apply (f_equal NilZero.uint_of_string) in E.
  rewrite !NilZero.usu in E by apply Hn.
  injection E as E. apply DecimalN.Unsigned.to_uint_inj in E. lia.
Qed.

Lemma uint32_small (x : Z) : 0 <= x < 2 ^ 32 -> uint32 x = x.
Proof. intros H. unfold uint32. apply Z.mod_small. exact H. Qed.

Lemma len_be32 (v : Z) : len (binary.be32 v) = 4.
Proof. reflexivity. Qed.

Lemma slice_header (f : byte) (v : Z) (rest : bytes) :
  slice (f :: binary.be32 v ++ rest) 1 5 = Some (binary.be32 v).
Proof.
  unfold slice. rewrite len_cons, len_app, len_be32.
  pose proof (len_nonneg rest).
  destruct (Z.ltb_spec (1 + (4 + len rest)) 5); [lia|].
  reflexivity.
Qed.

Lemma slice_payload (f : byte) (v : Z) (p rest : bytes) :
  slice (f :: binary.be32 v ++ p ++ rest) 5 (5 + len p) = Some p.
Proof.
  unfold slice. rewrite len_cons, !len_app, len_be32.
  pose proof (len_nonneg rest). pose proof (len_nonneg p).
  destruct (Z.ltb_spec (5 + len p) 5); [lia|].
  destruct (Z.ltb_spec (1 + (4 + (len p + len rest))) (5 + len p)); [lia|].
  change (5 <? 0) with false. cbn [orb].
  change (Z.to_nat 5) with 5%nat. cbn [binary.be32 app skipn].
  replace (Z.to_nat (5 + len p - 5)) with (List.length p) by (unfold len; lia).
  f_equal. rewrite firstn_app, Nat.sub_diag, firstn_all. simpl. apply app_nil_r.
Qed.

(** Decoding a frame yields its payload, whatever follows it. *)
Lemma frame_payload_frame (flag : byte) (p rest : bytes) :
  len p + 5 < 2 ^ 32 ->
  frame_payload (frame flag p ++ rest) = ret (Ok p).
Proof.
  intros Hp. pose proof (len_nonneg p). pose proof (len_nonneg rest).
  unfold frame_payload, frame.
  rewrite uint32_small by lia.
  cbn [app]. rewrite <- app_assoc.
  rewrite len_cons, !len_app, len_be32.
  destruct (Z.ltb_spec (1 + (4 + (len p + len rest))) 5); [lia|].
  rewrite slice_header, must_Some, bind_ret_l.
  rewrite <- (app_nil_r (binary.be32 (len p))) at 1.
  rewrite Uint32_be32 by lia.
  rewrite must_Some, bind_ret_l.
  destruct (Z.gtb_spec (len p + 5) (1 + (4 + (len p + len rest)))); [lia|].
  rewrite uint32_small by lia.
  rewrite slice_payload, must_Some, bind_ret_l. reflexivity.
Qed.

Lemma declared_length_frame (flag : byte) (p rest : bytes) :
  len p < 2 ^ 32 ->
  declared_length (frame flag p ++ rest) = Some (len p).
Proof.
  intros Hp. pose proof (len_nonneg p).
  unfold declared_length, frame. rewrite uint32_small by lia.
  cbn [app]. rewrite <- app_assoc, slice_header.
  rewrite <- (app_nil_r (binary.be32 (len p))).
  apply Uint32_be32. lia.
Qed.

(** The flag byte plays no part in decoding a request body. *)
Lemma frame_payload_flag (f f' : byte) (rest : bytes) :
  frame_payload (f :: rest) = frame_payload (f' :: rest).
Proof.
  unfold frame_payload. rewrite !len_cons.
  assert (E1 : slice (f :: rest) 1 5 = slice (f' :: rest) 1 5).
  { unfold slice. rewrite !len_cons. reflexivity. }
  assert (E2 : forall hi, slice (f :: rest) 5 hi = slice (f' :: rest) 5 hi).
  { intros hi. unfold slice. rewrite !len_cons. reflexivity. }
  rewrite E1. destruct (1 + len rest <? 5); [reflexivity|].
  destruct (slice (f' :: rest) 1 5); [|reflexivity].
  rewrite !must_Some, !bind_ret_l.
  destruct (binary.Uint32 b); [|reflexivity].
  rewrite !must_Some, !bind_ret_l.
  rewrite E2. reflexivity.
Qed.

Lemma frame_payload_short (body : bytes) :
  len body < 5 ->
  frame_payload body = ret (Err (mkStatus codes.InvalidArgument "body too short")).
Proof.
  intros H. unfold frame_payload.
  destruct (Z.ltb_spec (len body) 5); [reflexivity|lia].
Qed.

Lemma frame_payload_incomplete (body : bytes) (n : Z) :
  declared_length body = Some n -> n > len body - 5 ->
  frame_payload body = ret (Err (mkStatus codes.InvalidArgument "incomplete frame")).
Proof.
  intros D H. unfold frame_payload. unfold declared_length in D.
  destruct (Z.ltb_spec (len body) 5).
  - unfold slice in D.
    destruct (Z.ltb_spec (len body) 5); [|lia].
    rewrite orb_true_r in D. discriminate.
  - destruct (slice body 1 5); [|discriminate].
    rewrite must_Some, bind_ret_l, D, must_Some, bind_ret_l.
    destruct (Z.gtb_spec (n + 5) (len body)); [reflexivity|lia].
Qed.

(** ** The frame codec: claims C3, C7 and C9 *)

(** C7.  For every payload [P] that a frame can carry, decoding the Data
    frame that the encoder writes for [P] yields [P] again, also when
    further bytes follow the frame, and the four-byte length field of the
    frame is [len(P)]. *)
Theorem C7_frame_roundtrip (P rest : bytes) :
  len P + 5 < 2 ^ 32 ->
  exists df tf,
    writes (fst (writeSuccess P)) = [df; tf]
    /\ frame_payload df = ret (Ok P)
    /\ frame_payload (df ++ rest) = ret (Ok P)
    /\ declared_length df = Some (len P).
Proof.
  intros HP. pose proof (len_nonneg P).
  exists (frame x00 P), (frame x80 (bytes_of ok_trailer)).
  rewrite writeSuccess_frames. cbn [fst].
  repeat split.
  - rewrite <- (app_nil_r (frame x00 P)). now apply frame_payload_frame.
  - now apply frame_payload_frame.
  - rewrite <- (app_nil_r (frame x00 P)). apply declared_length_frame. lia.
Qed.

Lemma C7_frame_roundtrip_witness :
  exists df tf,
    writes (fst (writeSuccess [x0a; x00])) = [df; tf]
    /\ frame_payload df = ret (Ok [x0a; x00])
    /\ frame_payload (df ++ [xff]) = ret (Ok [x0a; x00])
    /\ declared_length df = Some (len [x0a; x00]).
Proof.
  apply (C7_frame_roundtrip [x0a; x00] [xff]). reflexivity.
Defined.

Lemma contacts_writeError (code : Z) (msg : string) :
  contacts (fst (writeError code msg)) = [].
Proof. rewrite writeError_frame. reflexivity. Qed.

Lemma contacts_writeSuccess (d : bytes) :
  contacts (fst (writeSuccess d)) = [].
Proof. rewrite writeSuccess_frames. reflexivity. Qed.

(** C3.  A body of fewer than five bytes, or one whose declared length
    exceeds the bytes that follow the five-byte header, is answered with
    an InvalidArgument trailer, and neither the backend nor the handler is
    contacted. *)
Theorem C3_malformed_frame_rejected
    (L : jwt.Lib auth.Claims) (b : Bridge) (r : Request) (body : bytes) :
  Body r = Some body ->
  (len body < 5 \/ exists n, declared_length body = Some n /\ n > len body - 5) ->
  exists msg,
    forward L b r = writeError codes.InvalidArgument msg
    /\ contacts (fst (forward L b r)) = [].
Proof.
  intros HB H. unfold forward. rewrite HB.
  destruct H as [H | [n [D H]]].
  - exists "body too short"%string.
    rewrite frame_payload_short, bind_ret_l by exact H.
    split; [reflexivity | apply contacts_writeError].
  - exists "incomplete frame"%string.
    rewrite (frame_payload_incomplete body n D H), bind_ret_l.
    split; [reflexivity | apply contacts_writeError].
Qed.

Lemma C3_malformed_frame_rejected_witness :
  exists msg,
    forward Fixture.lib Fixture.bridge
      (Fixture.post "/echo.Service/Echo" [] [x00; x00; x00; x00; x05; x0a; x00])
    = writeError codes.InvalidArgument msg
    /\ contacts (fst (forward Fixture.lib Fixture.bridge
         (Fixture.post "/echo.Service/Echo" [] [x00; x00; x00; x00; x05; x0a; x00]))) = [].
Proof.
  apply (C3_malformed_frame_rejected Fixture.lib Fixture.bridge
           (Fixture.post "/echo.Service/Echo" [] [x00; x00; x00; x00; x05; x0a; x00])
           [x00; x00; x00; x00; x05; x0a; x00]).
  - reflexivity.
  - right. exists 5. split; reflexivity.
Defined.

(** C9, as the code has it.  The flag byte of the request body is never
    inspected: two bodies that differ only in their first byte are
    processed identically, the first frame being taken as the request
    message whatever its flag. *)
Theorem C9_flag_byte_ignored
    (L : jwt.Lib auth.Claims) (b : Bridge) (r : Request) (flag flag' : byte)
    (rest : bytes) :
  forward L b (with_body r (flag :: rest)) = forward L b (with_body r (flag' :: rest)).
Proof.
  unfold forward, with_body. cbn [Body URLPath Header].
  rewrite (frame_payload_flag flag flag'). reflexivity.
Qed.

(** C9 as stated fails: a body flagged as a Trailer (0x80) is processed
    exactly as the same body flagged as Data (0x00); both reach the
    handler with the same decoded request. *)
Lemma C9_counterexample :
  forward Fixture.lib Fixture.bridge
    (Fixture.post (Fixture.svc ++ "/Login") []
       [x80; x00; x00; x00; x06; x0a; x01; x61; x12; x01; x62])
  = forward Fixture.lib Fixture.bridge
      (Fixture.post (Fixture.svc ++ "/Login") []
         [x00; x00; x00; x00; x06; x0a; x01; x61; x12; x01; x62])
  /\ contacts (fst (forward Fixture.lib Fixture.bridge
       (Fixture.post (Fixture.svc ++ "/Login") []
          [x80; x00; x00; x00; x06; x0a; x01; x61; x12; x01; x62])))
     = [Call (CallLogin (mkContext [] None) (pb.LoginRequest.mk "a" "b"))].
Proof.
  split; vm_compute; reflexivity.
Qed.

(** ** Opaque forwarding: claim C6 *)

(** C6.  A request whose path is outside the direct-dispatch list and
    whose body carries a frame with payload [P]: [P] is handed unchanged
    to the backend under the same path, with the values of the
    Authorization header as metadata; the bytes the backend answers are
    written back unchanged as a Data frame followed by the zero-status
    trailer; the code and message of a failed call are written as a
    single error trailer. *)
Theorem C6_opaque_forwarding
    (L : jwt.Lib auth.Claims) (b : Bridge) (r : Request) (flag : byte)
    (P rest : bytes) :
  Body r = Some (frame flag P ++ rest) ->
  len P + 5 < 2 ^ 32 ->
  direct_method (URLPath r) = None ->
  let ctx := mkContext (Header r "Authorization") None in
  forward L b r =
    match conn b ctx (URLPath r) P with
    | Ok d =>
        ([Invoke ctx (URLPath r) P;
          SetHeader "Content-Type" "application/grpc-web+proto"; WriteHeader 200;
          Write (frame x00 d); Write (frame x80 (bytes_of ok_trailer))], Val tt)
    | Err st =>
        ([Invoke ctx (URLPath r) P;
          SetHeader "Content-Type" "application/grpc-web+proto"; WriteHeader 200;
          Write (frame x80 (bytes_of (error_trailer (Code st) (Message st))))], Val tt)
    end.
Proof.
  intros HB HP HD ctx. unfold forward. rewrite HB.
  rewrite frame_payload_frame, bind_ret_l by exact HP.
  rewrite HD.
  assert (E : invoke_raw b ctx (URLPath r) P =
              match conn b ctx (URLPath r) P with
              | Ok d => (Invoke ctx (URLPath r) P :: fst (writeSuccess d), Val tt)
              | Err st =>
                  (Invoke ctx (URLPath r) P
                     :: fst (writeError (Code st) (Message st)), Val tt)
              end).
  { unfold invoke_raw. rewrite bind_emit_l.
    unfold rawCodec.Marshal, rawCodec.Unmarshal. cbn [data app].
    destruct (conn b ctx (URLPath r) P) as [d|st].
    - rewrite writeSuccess_frames. reflexivity.
    - rewrite writeError_frame. reflexivity. }
  unfold Header_Values. fold ctx.
  destruct (direct b); rewrite E;
    destruct (conn b ctx (URLPath r) P) as [d|st];
    rewrite ?writeSuccess_frames, ?writeError_frame; reflexivity.
Qed.

Lemma C6_opaque_forwarding_witness :
  forward Fixture.lib Fixture.bridge
    (Fixture.post "/echo.Service/Echo" ["Bearer HS256.u1.s3cret"%string]
       (frame x00 [x10; x01] ++ [xff]))
  = ([Invoke (mkContext ["Bearer HS256.u1.s3cret"%string] None)
        "/echo.Service/Echo" [x10; x01];
      SetHeader "Content-Type" "application/grpc-web+proto"; WriteHeader 200;
      Write (frame x00 [x10; x01]); Write (frame x80 (bytes_of ok_trailer))], Val tt).
Proof.
  exact (C6_opaque_forwarding Fixture.lib Fixture.bridge
           (Fixture.post "/echo.Service/Echo" ["Bearer HS256.u1.s3cret"%string]
              (frame x00 [x10; x01] ++ [xff]))
           x00 [x10; x01] [xff] eq_refl eq_refl eq_refl).
Defined.

(** ** The auth bridge: claims C2, C5 and C10 *)

Lemma manualAuth_Err_code (L : jwt.Lib auth.Claims) (b : Bridge) (ctx : Context)
    (h : string) (st : Status) :
  manualAuth L b ctx h = Err st ->
  Code st = codes.Unauthenticated
  /\ (h = ""%string
      \/ exists e, auth.ParseToken L (strings.TrimPrefix h "Bearer ") (secret b) = Err e).
Proof.
  unfold manualAuth. destruct (String.eqb_spec h "") as [->|Hne].
  - intros [= <-]. split; [reflexivity | now left].
  - destruct (auth.ParseToken L (strings.TrimPrefix h "Bearer ") (secret b)) as [c|e] eqn:E.
    + discriminate.
    + intros [= <-]. split; [reflexivity | right; now exists e].
Qed.

Lemma manualAuth_rejects (L : jwt.Lib auth.Claims) (b : Bridge) (ctx : Context)
    (h : string) :
  (h = ""%string
   \/ exists e, auth.ParseToken L (strings.TrimPrefix h "Bearer ") (secret b) = Err e) ->
  exists msg, manualAuth L b ctx h = Err (mkStatus codes.Unauthenticated msg).
Proof.
  intros H. unfold manualAuth. destruct (String.eqb_spec h "") as [->|Hne].
  - now exists "no token"%string.
  - destruct H as [H | [e H]]; [contradiction|]. rewrite H.
    now exists "bad token"%string.
Qed.

(** The five authenticated methods stop at a failed [manualAuth]. *)
Lemma manual_unauthenticated (L : jwt.Lib auth.Claims) (m : DirectMethod)
    (b : Bridge) (ctx : Context) (payload : bytes) (h : string) (st : Status) :
  m <> MLogin -> m <> MRegister ->
  manualAuth L b ctx h = Err st ->
  manual L m b ctx payload h = writeError (Code st) (Message st).
Proof.
  intros H1 H2 E.
  destruct m; try contradiction; cbn [manual];
    unfold manualListAppointments, manualCreateAppointment, manualGetAppointment,
      manualUpdateAppointment, manualDeleteAppointment;
    rewrite E; reflexivity.
Qed.

(** C2.  For each of the five direct-dispatch methods other than Login
    and Register: when the Authorization header is absent (empty) or its
    token does not parse, the answer is an Unauthenticated trailer,
    whatever the payload of the frame is, and neither the handler nor the
    backend is contacted. *)
Theorem C2_unauthenticated_fails_closed
    (L : jwt.Lib auth.Claims) (b : Bridge) (h : handler.Handler) (r : Request)
    (body payload : bytes) (m : DirectMethod) :
  Body r = Some body ->
  frame_payload body = ret (Ok payload) ->
  direct b = Some h ->
  direct_method (URLPath r) = Some m ->
  m <> MLogin -> m <> MRegister ->
  (Header_Get (Header r) "Authorization" = ""%string
   \/ exists e,
       auth.ParseToken L
         (strings.TrimPrefix (Header_Get (Header r) "Authorization") "Bearer ")
         (secret b) = Err e) ->
  exists msg,
    forward L b r = writeError codes.Unauthenticated msg
    /\ contacts (fst (forward L b r)) = [].
Proof.
  intros HB HF HD HM H1 H2 HA.
  apply (manualAuth_rejects L b
           (mkContext (Header_Values (Header r) "Authorization") None)) in HA.
  destruct HA as [msg HA]. exists msg.
  unfold forward. rewrite HB, HF, bind_ret_l, HD, HM.
  rewrite (manual_unauthenticated L m b _ payload _ _ H1 H2 HA).
  split; [reflexivity | apply contacts_writeError].
Qed.

Lemma C2_unauthenticated_fails_closed_witness :
  exists msg,
    forward Fixture.lib Fixture.bridge
      (Fixture.post (Fixture.svc ++ "/GetAppointment") ["Bearer not.a.token"%string]
         [x00; x00; x00; x00; x03; x0a; x05; x41])
    = writeError codes.Unauthenticated msg
    /\ contacts (fst (forward Fixture.lib Fixture.bridge
         (Fixture.post (Fixture.svc ++ "/GetAppointment") ["Bearer not.a.token"%string]
            [x00; x00; x00; x00; x03; x0a; x05; x41]))) = [].
Proof.
  apply (C2_unauthenticated_fails_closed Fixture.lib Fixture.bridge Fixture.spy
           (Fixture.post (Fixture.svc ++ "/GetAppointment") ["Bearer not.a.token"%string]
              [x00; x00; x00; x00; x03; x0a; x05; x41])
           [x00; x00; x00; x00; x03; x0a; x05; x41] [x0a; x05; x41] MGetAppointment).
  - reflexivity.
  - reflexivity.
  - reflexivity.
  - reflexivity.
  - discriminate.
  - discriminate.
  - right. exists ErrTokenUnverifiable. reflexivity.
Defined.

(** *** Algorithm pinning *)

(** C5.  A token whose header declares an algorithm that is not of the
    HMAC family (or that the library does not know) is rejected by
    [ParseToken] under every secret, whatever its signature, and a header
    carrying it never yields an authenticated context. *)
Theorem C5_algorithm_pinned
    (L : jwt.Lib auth.Claims) (raw alg : string) :
  declared_alg L raw = Some alg ->
  (forall name, jwt.GetSigningMethod alg <> Some (jwt.SigningMethodHMAC name)) ->
  (forall secret, exists e, auth.ParseToken L raw secret = Err e)
  /\ (forall b ctx h,
        strings.TrimPrefix h "Bearer " = raw ->
        exists msg, manualAuth L b ctx h = Err (mkStatus codes.Unauthenticated msg)).
Proof.
  intros HA HM.
  assert (P : forall secret, exists e, auth.ParseToken L raw secret = Err e).
  { intros secret. unfold declared_alg in HA.
    unfold auth.ParseToken, jwt.ParseWithClaims, jwt.ParseUnverified.
    destruct (strings.Split raw ".") as [|p0 [|p1 [|p2 [|]]]]; try discriminate.
    destruct (jwt.header_alg auth.Claims L p0) as [[a|]|]; try discriminate.
    injection HA as ->.
    destruct (jwt.decode_claims auth.Claims L p1) as [c|]; [|eexists; reflexivity].
    destruct (jwt.GetSigningMethod alg) as [m|] eqn:EM; [|eexists; reflexivity].
    destruct (jwt.DecodeSegment auth.Claims L p2) as [sig|]; [|eexists; reflexivity].
    unfold auth.keyFunc. cbn [jwt.Method].
    destruct m; cbn [auth.isHMAC negb];
      try (eexists; reflexivity).
    exfalso. apply (HM name). reflexivity. }
  split; [exact P|].
  intros b ctx h E. apply manualAuth_rejects.
  right. rewrite E. apply P.
Qed.

Lemma C5_algorithm_pinned_witness :
  (forall secret, exists e,
      auth.ParseToken Fixture.lib "RS256.u1.s3cret" secret = Err e)
  /\ (forall b ctx h,
        strings.TrimPrefix h "Bearer " = "RS256.u1.s3cret"%string ->
        exists msg,
          manualAuth Fixture.lib b ctx h = Err (mkStatus codes.Unauthenticated msg)).
Proof.
  apply (C5_algorithm_pinned Fixture.lib "RS256.u1.s3cret" "RS256").
  - reflexivity.
  - intros name. discriminate.
Defined.

(** *** The bearer prefix *)

Lemma substring_all (s : string) : substring 0 (String.length s) s = s.
Proof.
  induction s as [|c s IH]; simpl; [reflexivity | now rewrite IH].
Qed.

Lemma HasPrefix_app (p s : string) : strings.HasPrefix (p ++ s) p = true.
Proof.
  induction p as [|c p IH]; simpl.
  - destruct s; reflexivity.
  - now rewrite Ascii.eqb_refl, IH.
Qed.

Lemma TrimPrefix_app (p s : string) : strings.TrimPrefix (p ++ s) p = s.
Proof.
  unfold strings.TrimPrefix. rewrite HasPrefix_app.
  induction p as [|c p IH]; simpl.
  - rewrite Nat.sub_0_r. apply substring_all.
  - exact IH.
Qed.

Lemma ParseToken_empty (L : jwt.Lib auth.Claims) (secret : string) :
  auth.ParseToken L "" secret = Err ErrTokenMalformed.
Proof. reflexivity. Qed.

(** C10.  A header value that lacks the ["Bearer "] prefix and is itself
    a valid token authenticates, and exactly as the same token behind the
    prefix does; a failed [manualAuth] is always Unauthenticated and comes
    from an empty header or from a token that does not parse. *)
Theorem C10_bearer_prefix_optional
    (L : jwt.Lib auth.Claims) (b : Bridge) (ctx : Context) (h : string)
    (claims : auth.Claims) :
  strings.HasPrefix h "Bearer " = false ->
  auth.ParseToken L h (secret b) = Ok claims ->
  manualAuth L b ctx h
    = Ok (mkContext (authorization_md ctx) (Some (auth.UserID claims)))
  /\ manualAuth L b ctx ("Bearer " ++ h) = manualAuth L b ctx h
  /\ (forall h' st,
        manualAuth L b ctx h' = Err st ->
        Code st = codes.Unauthenticated
        /\ (h' = ""%string
            \/ exists e,
                auth.ParseToken L (strings.TrimPrefix h' "Bearer ") (secret b) = Err e)).
Proof.
  intros HP HT.
  assert (Hne : h <> ""%string).
  { intros ->. rewrite ParseToken_empty in HT. discriminate. }
  assert (E1 : manualAuth L b ctx h
               = Ok (mkContext (authorization_md ctx) (Some (auth.UserID claims)))).
  { unfold manualAuth. destruct (String.eqb_spec h ""); [contradiction|].
    unfold strings.TrimPrefix. rewrite HP, HT. reflexivity. }
  split; [exact E1|]. split.
  - rewrite E1. unfold manualAuth.
    rewrite (TrimPrefix_app "Bearer " h), HT. reflexivity.
  - intros h' st. apply manualAuth_Err_code.
Qed.

Lemma C10_bearer_prefix_optional_witness :
  manualAuth Fixture.lib Fixture.bridge (mkContext [] None) "HS256.u1.s3cret"
    = Ok (mkContext [] (Some "u1"%string))
  /\ manualAuth Fixture.lib Fixture.bridge (mkContext [] None)
       ("Bearer " ++ "HS256.u1.s3cret")
     = manualAuth Fixture.lib Fixture.bridge (mkContext [] None) "HS256.u1.s3cret"
  /\ (forall h' st,
        manualAuth Fixture.lib Fixture.bridge (mkContext [] None) h' = Err st ->
        Code st = codes.Unauthenticated
        /\ (h' = ""%string
            \/ exists e,
                auth.ParseToken Fixture.lib (strings.TrimPrefix h' "Bearer ")
                  (secret Fixture.bridge) = Err e)).
Proof.
  exact (C10_bearer_prefix_optional Fixture.lib Fixture.bridge (mkContext [] None)
           "HS256.u1.s3cret"
           {| auth.UserID := "u1";
              auth.Registered := {| auth.ExpiresAt := None; auth.IssuedAt := None |} |}
           eq_refl eq_refl).
Defined.

(** ** The wire format *)

Import protowire.

(** A successful [ConsumeVarint] reads at least one byte and no more than
    there are. *)
Lemma consumeVarintAt_range (k : nat) (s acc n : Z) (b : bytes) :
  0 <= n ->
  let m := snd (consumeVarintAt k s acc n b) in
  m < 0 \/ (n < m <= n + len b).
Proof.
  revert s acc n b. induction k as [|k IH]; intros s acc n b Hn; cbn [consumeVarintAt].
  - left. reflexivity.
  - destruct b as [|y rest]; [left; reflexivity|].
    rewrite len_cons. pose proof (len_nonneg rest).
    destruct k as [|k'].
    + destruct (u8 y <? 2); cbn [snd]; [right; lia | left; reflexivity].
    + destruct (u8 y <? 128); cbn [snd]; [right; lia|].
      specialize (IH (s + 7) (acc + Z.shiftl (u8 y) s - Z.shiftl 128 s) (n + 1) rest).
      cbv zeta in IH. destruct IH as [IH|IH]; [lia | left; exact IH | right; lia].
Qed.

Lemma ConsumeVarint_range (b : bytes) :
  snd (ConsumeVarint b) < 0 \/ 1 <= snd (ConsumeVarint b) <= len b.
Proof.
  unfold ConsumeVarint.
  pose proof (consumeVarintAt_range 10 0 0 0 b). cbv zeta in H. lia.
Qed.

Lemma ConsumeTag_range (b : bytes) :
  snd (ConsumeTag b) < 0 \/ 1 <= snd (ConsumeTag b) <= len b.
Proof.
  unfold ConsumeTag. pose proof (ConsumeVarint_range b) as H.
  destruct (ConsumeVarint b) as [v n]. cbn [snd] in H.
  destruct (Z.ltb_spec n 0); [left; assumption|].
  destruct (DecodeTag v) as [num typ].
  destruct (num <? MinValidNumber); cbn [snd]; [left; reflexivity | right; lia].
Qed.

Lemma consumeVarintAt_nonneg (k : nat) (s acc n : Z) (b : bytes) :
  0 <= s -> 0 <= acc -> 0 <= fst (consumeVarintAt k s acc n b).
Proof.
  revert s acc n b. induction k as [|k IH]; intros s acc n b Hs Ha; cbn [consumeVarintAt].
  - cbn. lia.
  - destruct b as [|y rest]; [cbn; lia|].
    pose proof (u8_range y) as Hy.
    assert (0 <= Z.shiftl (u8 y) s) by (apply Z.shiftl_nonneg; lia).
    destruct k as [|k'].
    + destruct (u8 y <? 2); cbn [fst]; lia.
    + destruct (Z.ltb_spec (u8 y) 128); cbn [fst]; [lia|].
      apply IH; [lia|].
      rewrite !Z.shiftl_mul_pow2 by lia.
      assert (0 < 2 ^ s) by (apply Z.pow_pos_nonneg; lia). nia.
Qed.

Lemma len_skipn (b : bytes) (n : Z) :
  0 <= n <= len b -> len (skipn (Z.to_nat n) b) = len b - n.
Proof.
  intros H. unfold len in *. rewrite length_skipn. lia.
Qed.

Lemma len_firstn (b : bytes) (n : Z) :
  0 <= n <= len b -> len (firstn (Z.to_nat n) b) = n.
Proof.
  intros H. unfold len in *. rewrite length_firstn. lia.
Qed.

Lemma ConsumeBytes_range (b : bytes) :
  snd (ConsumeBytes b) < 0 \/ 1 <= snd (ConsumeBytes b) <= len b.
Proof.
  unfold ConsumeBytes. pose proof (ConsumeVarint_range b) as H.
  pose proof (consumeVarintAt_nonneg 10 0 0 0 b) as Hv. fold (ConsumeVarint b) in Hv.
  destruct (ConsumeVarint b) as [m n]. cbn [fst snd] in H, Hv.
  destruct (Z.ltb_spec n 0); [left; assumption|].
  destruct (Z.gtb_spec m (len (skipn (Z.to_nat n) b))); cbn [snd]; [left; reflexivity|].
  right. rewrite len_skipn in * by lia. lia.
Qed.

Lemma ConsumeFixed32_range (b : bytes) :
  ConsumeFixed32 b < 0 \/ 1 <= ConsumeFixed32 b <= len b.
Proof.
  unfold ConsumeFixed32. destruct (Z.ltb_spec (len b) 4); [left; reflexivity | right; lia].
Qed.

Lemma ConsumeFixed64_range (b : bytes) :
  ConsumeFixed64 b < 0 \/ 1 <= ConsumeFixed64 b <= len b.
Proof.
  unfold ConsumeFixed64. destruct (Z.ltb_spec (len b) 8); [left; reflexivity | right; lia].
Qed.

(** The loop that skips a group, given that [skip] is total on the
    inputs it can be given here. *)
Lemma skipGroup_enough_fuel (skip : Z -> Z -> bytes -> option Z) (num i0 : Z)
    (bound : nat) :
  (forall num2 typ2 b, (List.length b < bound)%nat ->
     exists r, skip num2 typ2 b = Some r /\ (r < 0 \/ 0 <= r <= len b)) ->
  forall (k : nat) (b : bytes),
    (List.length b < k)%nat -> (List.length b <= bound)%nat -> len b <= i0 ->
    exists r, skipGroup skip num i0 k b = Some r /\ (r < 0 \/ 0 <= r <= i0).
Proof.
  intros Hskip. induction k as [|k IH]; intros b Hk Hb Hi; [lia|].
  cbn [skipGroup]. pose proof (ConsumeTag_range b) as HT.
  destruct (ConsumeTag b) as [[num2 typ2] n]. cbn [snd] in HT.
  destruct (Z.ltb_spec n 0); [exists n; split; [reflexivity | left; assumption]|].
  assert (Hn : 1 <= n <= len b) by lia.
  pose proof (len_skipn b n ltac:(lia)) as Hl.
  pose proof (len_nonneg (skipn (Z.to_nat n) b)) as Hl0.
  destruct (typ2 =? EndGroupType).
  - destruct (negb (num =? num2)); eexists; (split; [reflexivity|]).
    + left. reflexivity.
    + right. lia.
  - destruct (Hskip num2 typ2 (skipn (Z.to_nat n) b)) as [r [-> Hr]].
    { unfold len in *. lia. }
    destruct (Z.ltb_spec r 0); [exists r; split; [reflexivity | left; assumption]|].
    assert (Hr' : 0 <= r <= len (skipn (Z.to_nat n) b)) by lia.
    pose proof (len_skipn (skipn (Z.to_nat n) b) r Hr') as Hl2.
    apply IH; unfold len in *; lia.
Qed.

(** [consumeFieldValueD] never runs out of fuel that exceeds the length
    of its input, and a count it returns lies within the input. *)
Lemma consumeFieldValueD_enough_fuel (fuel : nat) :
  forall (num typ : Z) (b : bytes) (depth : Z),
    (List.length b < fuel)%nat ->
    exists r, consumeFieldValueD fuel num typ b depth = Some r
              /\ (r < 0 \/ 0 <= r <= len b).
Proof.
  induction fuel as [|fuel IH]; intros num typ b depth Hf; [lia|].
  cbn [consumeFieldValueD].
  destruct (typ =? VarintType).
  { eexists; split; [reflexivity|]. pose proof (ConsumeVarint_range b). lia. }
  destruct (typ =? Fixed32Type).
  { eexists; split; [reflexivity|]. pose proof (ConsumeFixed32_range b). lia. }
  destruct (typ =? Fixed64Type).
  { eexists; split; [reflexivity|]. pose proof (ConsumeFixed64_range b). lia. }
  destruct (typ =? BytesType).
  { eexists; split; [reflexivity|]. pose proof (ConsumeBytes_range b). lia. }
  destruct (typ =? StartGroupType).
  { destruct (depth <? 0); [eexists; split; [reflexivity | left; reflexivity]|].
    apply skipGroup_enough_fuel with (bound := fuel); try lia.
    intros num2 typ2 b' Hb'. apply IH. exact Hb'. }
  destruct (typ =? EndGroupType); eexists; (split; [reflexivity | left; reflexivity]).
Qed.

Lemma ConsumeFieldValue_range (num typ : Z) (b : bytes) :
  ConsumeFieldValue num typ b < 0 \/ 0 <= ConsumeFieldValue num typ b <= len b.
Proof.
  unfold ConsumeFieldValue.
  destruct (consumeFieldValueD_enough_fuel (S (List.length b)) num typ b
              DefaultRecursionLimit) as [r [-> Hr]]; [lia | exact Hr].
Qed.

Lemma lor_128 (a : Z) : 0 <= a < 128 -> Z.lor a 128 = a + 128.
Proof.
  intros H.
  assert (E : Z.land a 128 = 0).
  { apply Z.bits_inj'. intros n Hn. rewrite Z.land_spec, Z.testbit_0_l.
    change 128 with (2 ^ 7). rewrite Z.pow2_bits_eqb by lia.
    destruct (Z.eqb_spec 7 n) as [<-|]; [|apply andb_false_r].
    rewrite (testbit_above a 7 7); [reflexivity | lia | lia]. }
  rewrite <- Z.lxor_lor by exact E. symmetry. apply Z.add_nocarry_lxor. exact E.
Qed.

Lemma varint_cont_byte (v : Z) :
  0 <= v -> u8 (byte_of (Z.lor (Z.land v 127) 128)) = v mod 128 + 128.
Proof.
  intros Hv. change 127 with (Z.ones 7). rewrite Z.land_ones by lia.
  change (2 ^ 7) with 128.
  pose proof (Z.mod_pos_bound v 128 ltac:(lia)).
  rewrite lor_128 by lia. rewrite u8_byte_of. apply Z.mod_small. lia.
Qed.

Lemma consumeVarintAt_step (k : nat) (s acc n : Z) (y : byte) (rest : bytes) :
  consumeVarintAt (S (S k)) s acc n (y :: rest)
  = if u8 y <? 128 then (acc + Z.shiftl (u8 y) s, n + 1)
    else consumeVarintAt (S k) (s + 7)
           (acc + Z.shiftl (u8 y) s - Z.shiftl 128 s) (n + 1) rest.
Proof. reflexivity. Qed.

(** Reading back what [AppendVarint] wrote. *)
Lemma consumeVarintAt_varint (k : nat) :
  forall (s acc n v : Z) (rest : bytes),
    0 <= s -> 0 <= v < 2 * 128 ^ Z.of_nat k ->
    consumeVarintAt (S k) s acc n (varint (S k) v ++ rest)
    = (acc + Z.shiftl v s, n + len (varint (S k) v)).
Proof.
  induction k as [|k IH]; intros s acc n v rest Hs Hv.
  - change (2 * 128 ^ Z.of_nat 0) with 2 in Hv.
    cbn [varint]. destruct (Z.ltb_spec v 128); [|lia].
    cbn [app consumeVarintAt]. rewrite u8_byte_of, Z.mod_small by lia.
    destruct (Z.ltb_spec v 2); [|lia]. reflexivity.
  - rewrite Nat2Z.inj_succ, Z.pow_succ_r in Hv by lia.
    change (varint (S (S k)) v)
      with (if v <? 128 then [byte_of v]
            else byte_of (Z.lor (Z.land v 127) 128) :: varint (S k) (Z.shiftr v 7)).
    destruct (Z.ltb_spec v 128).
    + cbn [app]. rewrite consumeVarintAt_step, u8_byte_of, Z.mod_small by lia.
      destruct (Z.ltb_spec v 128); [|lia]. reflexivity.
    + cbn [app]. rewrite consumeVarintAt_step.
      rewrite varint_cont_byte by lia.
      pose proof (Z.mod_pos_bound v 128 ltac:(lia)).
      destruct (Z.ltb_spec (v mod 128 + 128) 128); [lia|].
      rewrite IH.
      * rewrite len_cons. f_equal; [|lia].
        rewrite Z.shiftr_div_pow2, !Z.shiftl_mul_pow2 by lia.
        rewrite Z.pow_add_r by lia. change (2 ^ 7) with 128.
        pose proof (Z.div_mod v 128 ltac:(lia)). nia.
      * lia.
      * rewrite Z.shiftr_div_pow2 by lia. change (2 ^ 7) with 128.
        split; [apply Z.div_pos; lia|].
        apply Z.div_lt_upper_bound; lia.
Qed.

Lemma ConsumeVarint_AppendVarint (v : Z) (rest : bytes) :
  0 <= v < 2 ^ 64 ->
  ConsumeVarint (varint 10 v ++ rest) = (v, len (varint 10 v)).
Proof.
  intros Hv. unfold ConsumeVarint.
  rewrite (consumeVarintAt_varint 9) by (try lia; exact Hv).
  rewrite Z.shiftl_0_r. reflexivity.
Qed.

Lemma len_varint_pos (k : nat) (v : Z) : 1 <= len (varint (S k) v).
Proof.
  cbn [varint]. destruct (v <? 128); rewrite len_cons;
    [change (len (@nil byte)) with 0 | pose proof (len_nonneg (varint k (Z.shiftr v 7)))]; lia.
Qed.

(** ** Decoding what the encoders write *)

Lemma wire_fields_from_fuel (f1 : nat) :
  forall (f2 : nat) (b : bytes),
    (List.length b <= f1)%nat -> (List.length b <= f2)%nat ->
    wire_fields_from f1 b = wire_fields_from f2 b.
Proof.
  induction f1 as [|f1 IH]; intros f2 b H1 H2.
  - destruct b; [destruct f2; reflexivity | simpl in H1; lia].
  - destruct b as [|x b]; [destruct f2; reflexivity|].
    destruct f2 as [|f2]; [simpl in H2; lia|].
    cbn [wire_fields_from].
    pose proof (ConsumeTag_range (x :: b)) as HT.
    destruct (ConsumeTag (x :: b)) as [[num typ] n]. cbn [snd] in HT.
    destruct (Z.ltb_spec n 0); [reflexivity|].
    assert (Hn : 0 <= n <= len (x :: b)) by lia.
    pose proof (len_skipn (x :: b) n Hn) as Hl.
    pose proof (ConsumeFieldValue_range num typ (skipn (Z.to_nat n) (x :: b))) as HV.
    destruct (Z.ltb_spec (ConsumeFieldValue num typ (skipn (Z.to_nat n) (x :: b))) 0);
      [reflexivity|].
    assert (Hm : 0 <= ConsumeFieldValue num typ (skipn (Z.to_nat n) (x :: b))
                 <= len (skipn (Z.to_nat n) (x :: b))) by lia.
    pose proof (len_skipn _ _ Hm) as Hl2.
    rewrite (IH f2); [reflexivity | |]; unfold len in *; cbn [List.length] in *; lia.
Qed.

Lemma wire_fields_unfold (f : nat) (b : bytes) :
  (List.length b <= f)%nat -> wire_fields_from f b = wire_fields b.
Proof.
  intros H. unfold wire_fields. apply wire_fields_from_fuel; lia.
Qed.

Lemma ConsumeTag_byte (t : byte) (rest : bytes) :
  u8 t < 128 -> 1 <= Z.shiftr (u8 t) 3 ->
  ConsumeTag (t :: rest) = (Z.shiftr (u8 t) 3, Z.land (u8 t) 7, 1).
Proof.
  intros H1 H2. unfold ConsumeTag, ConsumeVarint.
  cbn [consumeVarintAt]. destruct (Z.ltb_spec (u8 t) 128); [|lia].
  rewrite Z.shiftl_0_r. cbn [Z.add Z.ltb Z.compare]. cbv iota.
  unfold DecodeTag.
  assert (Z.shiftr (u8 t) 3 <= MaxInt32).
  { rewrite Z.shiftr_div_pow2 by lia. unfold MaxInt32.
    pose proof (u8_range t). apply Z.lt_le_incl. apply Z.div_lt_upper_bound; lia. }
  destruct (Z.gtb_spec (Z.shiftr (u8 t) 3) MaxInt32); [lia|].
  unfold MinValidNumber. destruct (Z.ltb_spec (Z.shiftr (u8 t) 3) 1); [lia|].
  reflexivity.
Qed.

Lemma len_varint_le (k : nat) (v : Z) : len (varint k v) <= Z.of_nat k.
Proof.
  revert v. induction k as [|k IH]; intros v; [cbn; lia|].
  cbn [varint]. destruct (v <? 128); rewrite len_cons.
  - change (len (@nil byte)) with 0. lia.
  - specialize (IH (Z.shiftr v 7)). lia.
Qed.

Lemma ConsumeBytes_prefixed (v rest : bytes) :
  len v < 2 ^ 64 ->
  ConsumeBytes (varint 10 (len v) ++ v ++ rest)
  = (v, len (varint 10 (len v)) + len v).
Proof.
  intros Hv. pose proof (len_nonneg v). unfold ConsumeBytes.
  rewrite ConsumeVarint_AppendVarint by lia.
  pose proof (len_varint_pos 9 (len v)) as Hp.
  destruct (Z.ltb_spec (len (varint 10 (len v))) 0); [lia|].
  assert (E : skipn (Z.to_nat (len (varint 10 (len v)))) (varint 10 (len v) ++ v ++ rest)
              = v ++ rest).
  { unfold len. rewrite Nat2Z.id. rewrite skipn_app, Nat.sub_diag, skipn_all. reflexivity. }
  rewrite E. rewrite len_app. pose proof (len_nonneg rest).
  destruct (Z.gtb_spec (len v) (len v + len rest)); [lia|].
  f_equal. unfold len. rewrite Nat2Z.id, firstn_app, Nat.sub_diag, firstn_all.
  simpl. apply app_nil_r.
Qed.

Lemma ConsumeFieldValue_bytes (num : Z) (b : bytes) :
  ConsumeFieldValue num BytesType b = snd (ConsumeBytes b).
Proof. reflexivity. Qed.

Lemma ConsumeFieldValue_varint (num : Z) (b : bytes) :
  ConsumeFieldValue num VarintType b = snd (ConsumeVarint b).
Proof. reflexivity. Qed.

Lemma skipn_len_app (a b : bytes) : skipn (Z.to_nat (len a)) (a ++ b) = b.
Proof.
  unfold len. rewrite Nat2Z.id, skipn_app, Nat.sub_diag, skipn_all. reflexivity.
Qed.

(** One length-delimited field at the head of a message. *)
Lemma wire_fields_bytes_field (t : byte) (v rest : bytes) :
  u8 t < 128 -> 1 <= Z.shiftr (u8 t) 3 -> Z.land (u8 t) 7 = BytesType ->
  len v < 2 ^ 64 ->
  wire_fields (t :: varint 10 (len v) ++ v ++ rest)
  = option_map (cons (Z.shiftr (u8 t) 3, BytesType, v)) (wire_fields rest).
Proof.
  intros H1 H2 H3 Hv. pose proof (len_nonneg v).
  unfold wire_fields at 1. cbn [List.length wire_fields_from].
  rewrite ConsumeTag_byte by assumption. rewrite H3.
  change (1 <? 0) with false. cbv iota.
  change (Z.to_nat 1) with 1%nat. cbn [skipn].
  rewrite ConsumeFieldValue_bytes, ConsumeBytes_prefixed by assumption.
  cbn [fst snd].
  pose proof (len_varint_pos 9 (len v)) as Hp.
  destruct (Z.ltb_spec (len (varint 10 (len v)) + len v) 0); [lia|].
  change (BytesType =? BytesType) with true. cbv iota.
  rewrite <- len_app, app_assoc, skipn_len_app.
  rewrite wire_fields_unfold by (rewrite !length_app; lia).
  destruct (wire_fields rest); reflexivity.
Qed.

(** One varint field at the head of a message. *)
Lemma wire_fields_varint_field (t : byte) (x : Z) (rest : bytes) :
  u8 t < 128 -> 1 <= Z.shiftr (u8 t) 3 -> Z.land (u8 t) 7 = VarintType ->
  0 <= x < 2 ^ 64 ->
  wire_fields (t :: varint 10 x ++ rest)
  = option_map (cons (Z.shiftr (u8 t) 3, VarintType, varint 10 x)) (wire_fields rest).
Proof.
  intros H1 H2 H3 Hx.
  unfold wire_fields at 1. cbn [List.length wire_fields_from].
  rewrite ConsumeTag_byte by assumption. rewrite H3.
  change (1 <? 0) with false. cbv iota.
  change (Z.to_nat 1) with 1%nat. cbn [skipn].
  rewrite ConsumeFieldValue_varint, ConsumeVarint_AppendVarint by assumption.
  cbn [fst snd].
  pose proof (len_varint_pos 9 x) as Hp.
  destruct (Z.ltb_spec (len (varint 10 x)) 0); [lia|].
  change (VarintType =? BytesType) with false. cbv iota.
  rewrite skipn_len_app.
  rewrite wire_fields_unfold by (rewrite !length_app; lia).
  unfold len. rewrite Nat2Z.id, firstn_app, Nat.sub_diag, firstn_all.
  cbn [firstn]. rewrite app_nil_r.
  destruct (wire_fields rest); reflexivity.
Qed.

Lemma wire_fields_nil : wire_fields [] = Some [].
Proof. reflexivity. Qed.

Lemma uint64_range (x : Z) : 0 <= uint64 x < 2 ^ 64.
Proof. unfold uint64. apply Z.mod_pos_bound. lia. Qed.

Lemma appendTimestamp_Some (out : bytes) (num : Z) (ts : pb.Timestamp) :
  appendTimestamp out num (Some ts)
  = AppendBytes (AppendTag out num BytesType) (timestamp_inner ts).
Proof.
  unfold appendTimestamp, timestamp_inner.
  destruct (pb.Seconds ts =? 0), (pb.Nanos ts =? 0); cbn [negb];
    unfold AppendTag, AppendVarint;
    change (varint 10 (EncodeTag 1 VarintType)) with [x08];
    change (varint 10 (EncodeTag 2 VarintType)) with [x10];
    cbn [app]; rewrite <- ?app_assoc, ?app_nil_r; reflexivity.
Qed.

Lemma wire_fields_timestamp_inner (ts : pb.Timestamp) (rest : bytes) :
  option_map (map (fun f => fst (fst f))) (wire_fields (timestamp_inner ts ++ rest))
  = option_map (app (timestamp_fields ts))
      (option_map (map (fun f => fst (fst f))) (wire_fields rest)).
Proof.
  unfold timestamp_inner, timestamp_fields.
  destruct (pb.Seconds ts =? 0), (pb.Nanos ts =? 0); cbn [app];
    rewrite <- ?app_assoc; cbn [app];
    repeat (rewrite wire_fields_varint_field;
            [| reflexivity | cbv; discriminate | reflexivity | apply uint64_range]);
    destruct (wire_fields rest); reflexivity.
Qed.

Lemma len_timestamp_inner (ts : pb.Timestamp) : len (timestamp_inner ts) <= 22.
Proof.
  unfold timestamp_inner.
  pose proof (len_varint_le 10 (uint64 (pb.Seconds ts))).
  pose proof (len_varint_le 10 (uint64 (pb.Nanos ts))).
  destruct (pb.Seconds ts =? 0), (pb.Nanos ts =? 0);
    rewrite ?len_app, ?len_cons; change (len (@nil byte)) with 0; lia.
Qed.

Lemma AppendString_field (inner : bytes) (num : Z) (t : byte) (s : string) :
  varint 10 (EncodeTag num BytesType) = [t] ->
  AppendString (AppendTag inner num BytesType) s = inner ++ string_field t s.
Proof.
  intros E. unfold AppendString, AppendBytes, AppendTag, AppendVarint, string_field.
  rewrite E. rewrite <- !app_assoc. reflexivity.
Qed.

Lemma appendTimestamp_field (inner : bytes) (num : Z) (t : byte)
    (o : option pb.Timestamp) :
  varint 10 (EncodeTag num BytesType) = [t] ->
  appendTimestamp inner num o = inner ++ timestamp_field t o.
Proof.
  intros E. destruct o as [ts|]; [|symmetry; apply app_nil_r].
  rewrite appendTimestamp_Some.
  unfold AppendBytes, AppendTag, AppendVarint, timestamp_field.
  rewrite E. rewrite <- !app_assoc. reflexivity.
Qed.

Lemma fold_attendees (l : list string) (inner : bytes) :
  fold_left (fun inner att => AppendString (AppendTag inner 9 BytesType) att) l inner
  = inner ++ List.concat (map (string_field x4a) l).
Proof.
  revert inner. induction l as [|s l IH]; intros inner; cbn [fold_left map List.concat].
  - symmetry. apply app_nil_r.
  - rewrite IH, (AppendString_field inner 9 x4a) by reflexivity.
    rewrite <- app_assoc. reflexivity.
Qed.

Lemma appendAppointment_Some (out : bytes) (num : Z) (a : pb.Appointment) :
  appendAppointment out num (Some a)
  = AppendBytes (AppendTag out num BytesType) (appointment_inner a).
Proof.
  unfold appendAppointment. cbv zeta. f_equal.
  rewrite fold_attendees.
  rewrite (appendTimestamp_field _ 11 x5a), (appendTimestamp_field _ 10 x52) by reflexivity.
  rewrite (AppendString_field _ 8 x42), (AppendString_field _ 7 x3a),
    (AppendString_field _ 6 x32) by reflexivity.
  rewrite (appendTimestamp_field _ 5 x2a), (appendTimestamp_field _ 4 x22) by reflexivity.
  rewrite (AppendString_field _ 3 x1a), (AppendString_field _ 2 x12),
    (AppendString_field _ 1 x0a) by reflexivity.
  unfold appointment_inner. cbn [app]. rewrite <- !app_assoc. reflexivity.
Qed.

Lemma field_numbers_string_field (t : byte) (s : string) (rest : bytes) :
  u8 t < 128 -> 1 <= Z.shiftr (u8 t) 3 -> Z.land (u8 t) 7 = BytesType ->
  fits s ->
  field_numbers (string_field t s ++ rest)
  = option_map (cons (Z.shiftr (u8 t) 3)) (field_numbers rest).
Proof.
  intros H1 H2 H3 Hs. unfold fits in Hs. pose proof (len_nonneg (bytes_of s)).
  unfold field_numbers, string_field, uint64.
  rewrite Z.mod_small by lia. cbn [app]. rewrite <- app_assoc.
  rewrite wire_fields_bytes_field by (try assumption; lia).
  destruct (wire_fields rest); reflexivity.
Qed.

Lemma field_numbers_timestamp_field (t : byte) (o : option pb.Timestamp)
    (rest : bytes) :
  u8 t < 128 -> 1 <= Z.shiftr (u8 t) 3 -> Z.land (u8 t) 7 = BytesType ->
  field_numbers (timestamp_field t o ++ rest)
  = option_map (app (present o (Z.shiftr (u8 t) 3))) (field_numbers rest).
Proof.
  intros H1 H2 H3. destruct o as [ts|]; cbn [timestamp_field present app].
  - pose proof (len_timestamp_inner ts). pose proof (len_nonneg (timestamp_inner ts)).
    unfold field_numbers, uint64.
    rewrite Z.mod_small by lia. rewrite <- app_assoc.
    rewrite wire_fields_bytes_field by (try assumption; lia).
    destruct (wire_fields rest); reflexivity.
  - destruct (field_numbers rest); reflexivity.
Qed.

Lemma field_numbers_attendees (l : list string) (rest : bytes) :
  Forall fits l ->
  field_numbers (List.concat (map (string_field x4a) l) ++ rest)
  = option_map (app (map (fun _ => 9) l)) (field_numbers rest).
Proof.
  induction 1 as [|s l Hs Hl IH]; cbn [map List.concat app].
  - destruct (field_numbers rest); reflexivity.
  - rewrite <- app_assoc.
    rewrite field_numbers_string_field;
      [| reflexivity | cbv; discriminate | reflexivity | exact Hs].
    rewrite IH. destruct (field_numbers rest); reflexivity.
Qed.

Lemma field_numbers_timestamp_inner (ts : pb.Timestamp) :
  field_numbers (timestamp_inner ts) = Some (timestamp_fields ts).
Proof.
  unfold field_numbers. rewrite <- (app_nil_r (timestamp_inner ts)).
  rewrite wire_fields_timestamp_inner, wire_fields_nil. cbn [option_map map].
  now rewrite app_nil_r.
Qed.

Lemma field_numbers_appointment_inner (a : pb.Appointment) :
  sized a ->
  field_numbers (appointment_inner a) = Some (appointment_fields a).
Proof.
  intros (H1 & H2 & H3 & H6 & H7 & H8 & H9).
  unfold appointment_inner, appointment_fields.
  rewrite <- (app_nil_r (timestamp_field x5a (pb.UpdatedAt a))).
  repeat first
    [ rewrite field_numbers_string_field;
        [| reflexivity | cbv; discriminate | reflexivity | assumption]
    | rewrite field_numbers_timestamp_field;
        [| reflexivity | cbv; discriminate | reflexivity]
    | rewrite field_numbers_attendees by assumption ].
  change (field_numbers []) with (Some (@nil Z)).
  cbn [option_map]. f_equal. cbn [app]. rewrite app_nil_r.
  reflexivity.
Qed.

(** ** The wire encoder: claim C8 *)

(** C8, as the code has it.  An absent timestamp or appointment writes
    nothing: no tag, no null marker.  A timestamp that is present is
    written as a submessage holding seconds (field 1) and nanos (field 2),
    each only when it is not zero.  An appointment is written as a
    submessage in which every string field is present whatever its value,
    the attendees appear once each, and a timestamp field appears only
    when it is set. *)
Theorem C8_omission (out : bytes) (num : Z) (ts : pb.Timestamp) (a : pb.Appointment) :
  sized a ->
  appendTimestamp out num None = out
  /\ (exists inner,
        appendTimestamp out num (Some ts)
        = AppendBytes (AppendTag out num BytesType) inner
        /\ field_numbers inner
           = Some ((if pb.Seconds ts =? 0 then [] else [1])
                   ++ (if pb.Nanos ts =? 0 then [] else [2])))
  /\ appendAppointment out num None = out
  /\ (exists inner,
        appendAppointment out num (Some a)
        = AppendBytes (AppendTag out num BytesType) inner
        /\ field_numbers inner
           = Some ([1; 2; 3] ++ present (pb.StartTime a) 4 ++ present (pb.EndTime a) 5
                   ++ [6; 7; 8] ++ map (fun _ => 9) (pb.AttendeeIds a)
                   ++ present (pb.CreatedAt a) 10 ++ present (pb.UpdatedAt a) 11)).
Proof.
  intros Ha. split; [reflexivity|]. split; [|split; [reflexivity|]].
  - exists (timestamp_inner ts). split.
    + apply appendTimestamp_Some.
    + apply field_numbers_timestamp_inner.
  - exists (appointment_inner a). split.
    + apply appendAppointment_Some.
    + apply field_numbers_appointment_inner. exact Ha.
Qed.

Lemma C8_omission_witness :
  appendTimestamp [] 1 None = []
  /\ (exists inner,
        appendTimestamp [] 1 (Some (pb.mkTimestamp 1700000000 0))
        = AppendBytes (AppendTag [] 1 BytesType) inner
        /\ field_numbers inner = Some [1])
  /\ appendAppointment [] 1 None = []
  /\ (exists inner,
        appendAppointment [] 1 (Some Fixture.appt)
        = AppendBytes (AppendTag [] 1 BytesType) inner
        /\ field_numbers inner = Some [1; 2; 3; 4; 6; 7; 8; 9]).
Proof.
  apply (C8_omission [] 1 (pb.mkTimestamp 1700000000 0) Fixture.appt).
  unfold sized, fits. repeat split; try reflexivity.
  constructor; [reflexivity | constructor].
Defined.

(** C8 as stated fails: the appointment whose fields are all zero is
    written with its six string fields, each as a tag and a zero
    length. *)
Lemma C8_counterexample :
  pb.Id Fixture.zero_appt = ""%string
  /\ appendAppointment [] 1 (Some Fixture.zero_appt)
     = [x0a; x0c; x0a; x00; x12; x00; x1a; x00; x32; x00; x3a; x00; x42; x00]
  /\ field_numbers [x0a; x00; x12; x00; x1a; x00; x32; x00; x3a; x00; x42; x00]
     = Some [1; 2; 3; 6; 7; 8].
Proof.
  repeat split; vm_compute; reflexivity.
Qed.

(** The Login encoder writes its three string fields whatever their
    value: empty strings come out as three tags with a zero length. *)
Lemma login_response_empty_strings :
  writes (fst (forward Fixture.lib (mkBridge Fixture.backend (Some Fixture.blank) "s3cret")
                 (Fixture.post (Fixture.svc ++ "/Login") [] [x00; x00; x00; x00; x00])))
  = [frame x00 [x0a; x00; x12; x00; x1a; x00]; frame x80 (bytes_of ok_trailer)].
Proof. reflexivity. Qed.

(** Two scenarios of the specification.  The Login response
    [{token:"abc", userId:"u1", name:"Ann"}] is written as three
    length-delimited fields that the generic iterator reads back; the
    framed body [00 00 00 00 02 0A 00] carries exactly one field: field 1,
    the empty string. *)
Lemma login_response_fields :
  exists payload,
    writes (fst (forward Fixture.lib Fixture.bridge
                   (Fixture.post (Fixture.svc ++ "/Login") [] [x00; x00; x00; x00; x00])))
    = [frame x00 payload; frame x80 (bytes_of ok_trailer)]
    /\ wire_fields payload
       = Some [(1, BytesType, bytes_of "abc"); (2, BytesType, bytes_of "u1");
               (3, BytesType, bytes_of "Ann")].
Proof. eexists. split; reflexivity. Qed.

Lemma framed_empty_string_field :
  frame_payload [x00; x00; x00; x00; x02; x0a; x00] = ret (Ok [x0a; x00])
  /\ wire_fields [x0a; x00] = Some [(1, BytesType, [])].
Proof. split; reflexivity. Qed.

(** ** The wire decoder on malformed input: claim C1 *)

(** A tag that does not parse ends each of the seven decode loops with
    the parse-error trailer. *)
Lemma bad_tag_parse_error (p : bytes) :
  snd (protowire.ConsumeTag p) < 0 ->
  (forall req, manualLogin_body (req, p) = parse_error)
  /\ (forall req, manualRegister_body (req, p) = parse_error)
  /\ (forall req, manualListAppointments_body (req, p) = parse_error)
  /\ (forall req, manualCreateAppointment_body (req, p) = parse_error)
  /\ (forall req, manualGetAppointment_body (req, p) = parse_error)
  /\ (forall req, manualUpdateAppointment_body (req, p) = parse_error)
  /\ (forall req, manualDeleteAppointment_body (req, p) = parse_error).
Proof.
  intros H.
  unfold manualLogin_body, manualRegister_body, manualListAppointments_body,
    manualCreateAppointment_body, manualGetAppointment_body,
    manualUpdateAppointment_body, manualDeleteAppointment_body.
  destruct (protowire.ConsumeTag p) as [[num typ] n]. cbn [snd] in H.
  destruct (Z.ltb_spec n 0); [|lia].
  repeat split; reflexivity.
Qed.

(** C1 fails on the code.  The payload [0x0A 0x05 0x41] announces five
    bytes for field 1 and carries one.  [ConsumeBytes] reports the
    truncation by a negative count, which the branch of a known field
    does not test before slicing with it: each of the seven methods
    panics (the five authenticated ones once the credential is accepted)
    and no trailer is written. *)
Theorem C1_truncated_value_panics
    (L : jwt.Lib auth.Claims) (b : Bridge) (ctx : Context) (h : string)
    (m : DirectMethod) :
  manual L m b ctx [x0a; x05; x41] h =
    match m with
    | MLogin | MRegister => ([], Panic)
    | _ =>
        match manualAuth L b ctx h with
        | Ok _ => ([], Panic)
        | Err st => writeError (Code st) (Message st)
        end
    end.
Proof.
  destruct m; cbn [manual];
    unfold manualLogin, manualRegister, manualListAppointments,
      manualCreateAppointment, manualGetAppointment, manualUpdateAppointment,
      manualDeleteAppointment;
    try destruct (manualAuth L b ctx h); reflexivity.
Qed.

(** The same on a whole request: a Login whose frame carries that payload. *)
Lemma login_truncated_value_panics :
  forward Fixture.lib Fixture.bridge
    (Fixture.post (Fixture.svc ++ "/Login") []
       [x00; x00; x00; x00; x03; x0a; x05; x41])
  = ([], Panic).
Proof. reflexivity. Qed.

(** In GetAppointment, UpdateAppointment and DeleteAppointment the branch
    of an unknown field does not test the count either: a truncated
    varint in field 2 panics there, while Login answers with the
    parse-error trailer. *)
Lemma unknown_field_truncated :
  forward Fixture.lib Fixture.bridge
    (Fixture.post (Fixture.svc ++ "/GetAppointment") ["Bearer HS256.u1.s3cret"%string]
       [x00; x00; x00; x00; x02; x10; x80])
  = ([], Panic)
  /\ forward Fixture.lib Fixture.bridge
       (Fixture.post (Fixture.svc ++ "/Login") []
          [x00; x00; x00; x00; x02; x10; x80])
     = writeError codes.InvalidArgument "parse error".
Proof. split; reflexivity. Qed.

(** ** Termination and the shape of every run *)

Lemma more_nil {St : Type} (s : St) : more (s, []) = false.
Proof. reflexivity. Qed.

Lemma more_cons {St : Type} (s : St) (x : byte) (p : bytes) : more (s, x :: p) = true.
Proof. reflexivity. Qed.

Lemma bind_val_l {A B} (a : A) (k : A -> M B) : bind ([], Val a) k = k a.
Proof. apply bind_ret_l. Qed.

(** A loop whose iterations are of that kind never runs out of fuel that
    exceeds the length of its input. *)
Lemma for_loop_enough_fuel {St R : Type} (tr : list Event)
    (body : St * bytes -> M (Ctl (St * bytes) R)) :
  (forall s p, p <> [] -> iteration tr p (body (s, p))) ->
  forall (fuel : nat) (s : St) (p : bytes),
    (List.length p < fuel)%nat ->
    loop_end tr (for_loop fuel more body (s, p)).
Proof.
  intros Hbody. induction fuel as [|fuel IH]; intros s p Hf; [lia|].
  cbn [for_loop]. destruct p as [|x p].
  - rewrite more_nil. constructor.
  - rewrite more_cons.
    match goal with
    | |- context [bind ?m _] =>
        pose proof (Hbody s (x :: p) ltac:(discriminate) : iteration tr (x :: p) m) as H;
        remember m as m0 eqn:E; clear E
    end.
    destruct H as [s' p' Hl | r |].
    + rewrite bind_val_l. apply IH. unfold len in Hl. cbn [List.length] in Hl, Hf. lia.
    + unfold bind, ret. rewrite app_nil_r. constructor.
    + constructor.
Qed.

Lemma slice_from_ok (p : bytes) (n : Z) :
  0 <= n <= len p -> slice_from p n = Some (skipn (Z.to_nat n) p).
Proof.
  intros H. unfold slice_from, slice.
  destruct (Z.ltb_spec n 0); [lia|]. destruct (Z.ltb_spec (len p) n); [lia|].
  destruct (Z.ltb_spec (len p) (len p)); [lia|]. cbn [orb]. f_equal.
  apply firstn_all2. rewrite length_skipn. unfold len. lia.
Qed.

Lemma slice_from_neg (p : bytes) (n : Z) : n < 0 -> slice_from p n = None.
Proof.
  intros H. unfold slice_from, slice. destruct (Z.ltb_spec n 0); [reflexivity | lia].
Qed.

Section Iterations.

Context {St R : Type} (tr : list Event) (p0 : bytes).

Lemma iteration_advance (p : bytes) (n : Z) (k : bytes -> M (Ctl (St * bytes) R)) :
  n < 0 \/ 0 <= n <= len p ->
  (forall p', 0 <= n -> len p' = len p - n -> @iteration St R tr p0 (k p')) ->
  @iteration St R tr p0 (bind (must (slice_from p n)) k).
Proof.
  intros [Hn|Hn] Hk.
  - rewrite slice_from_neg by exact Hn. constructor.
  - rewrite slice_from_ok, must_Some, bind_ret_l by exact Hn.
    apply Hk; [lia | now apply len_skipn].
Qed.

Lemma iteration_bind_quiet {A : Type} (m : M A) (k : A -> M (Ctl (St * bytes) R)) :
  (m = ([], Panic) \/ exists a, m = ([], Val a)) ->
  (forall a, @iteration St R tr p0 (k a)) ->
  @iteration St R tr p0 (bind m k).
Proof.
  intros [->|[a ->]] Hk.
  - constructor.
  - rewrite bind_val_l. apply Hk.
Qed.

Lemma iteration_continue (s : St) (p' : bytes) :
  len p' < len p0 -> @iteration St R tr p0 (ret (Continue (s, p'))).
Proof. intros H. now constructor. Qed.

End Iterations.

Lemma iteration_parse_error {St : Type} (p0 : bytes) :
  @iteration St unit parse_error_events p0 parse_error.
Proof.
  unfold parse_error. rewrite writeError_frame.
  unfold bind, ret. cbn [app]. constructor.
Qed.

Ltac consume :=
  match goal with
  | |- context [ConsumeTag ?p] =>
      let n := fresh "n" in
      let Hn := fresh "Hn" in
      pose proof (ConsumeTag_range p) as Hn;
      destruct (ConsumeTag p) as [[? ?] n]; cbn [snd] in Hn
  | |- context [ConsumeBytes ?p] =>
      let n := fresh "n" in
      let Hn := fresh "Hn" in
      pose proof (ConsumeBytes_range p) as Hn;
      destruct (ConsumeBytes p) as [? n]; cbn [snd] in Hn
  | |- context [ConsumeVarint ?p] =>
      let n := fresh "n" in
      let Hn := fresh "Hn" in
      pose proof (ConsumeVarint_range p) as Hn;
      destruct (ConsumeVarint p) as [? n]; cbn [snd] in Hn
  | |- context [ConsumeFieldValue ?a ?b ?p] =>
      let Hn := fresh "Hn" in
      let m := fresh "m" in
      let E := fresh "E" in
      pose proof (ConsumeFieldValue_range a b p) as Hn;
      remember (ConsumeFieldValue a b p) as m eqn:E; clear E
  end.

Ltac iterate_step :=
  first
    [ apply iteration_parse_error
    | apply it_return
    | apply iteration_continue; lia
    | apply iteration_advance; [lia | intros ? ? ?]
    | match goal with
      | |- iteration _ _ (if ?c <? 0 then _ else _) => destruct (Z.ltb_spec c 0)
      | |- iteration _ _ (if ?c then _ else _) => destruct c
      end
    | consume ].

Lemma manualLogin_body_iteration (s : pb.LoginRequest.t) (p : bytes) :
  p <> [] -> iteration parse_error_events p (manualLogin_body (s, p)).
Proof.
  intros _. unfold manualLogin_body. cbv zeta.
  repeat iterate_step.
Qed.

Lemma parseTimestamp_body_iteration (s : pb.Timestamp) (p : bytes) :
  p <> [] -> iteration [] p (parseTimestamp_body (s, p)).
Proof.
  intros _. unfold parseTimestamp_body. cbv zeta.
  repeat iterate_step.
Qed.

(** [parseTimestamp] yields a timestamp or panics; it has no effect. *)
Lemma parseTimestamp_total (v : bytes) :
  parseTimestamp v = ([], Panic) \/ exists ts, parseTimestamp v = ([], Val ts).
Proof.
  unfold parseTimestamp.
  pose proof (for_loop_enough_fuel [] parseTimestamp_body parseTimestamp_body_iteration
                (S (List.length v)) (pb.mkTimestamp 0 0) v ltac:(lia)) as H.
  remember (for_loop (S (List.length v)) more parseTimestamp_body
              ({| pb.Seconds := 0; pb.Nanos := 0 |}, v)) as m eqn:E. clear E.
  destruct H as [s | r |].
  - right. eexists. reflexivity.
  - right. eexists. reflexivity.
  - left. reflexivity.
Qed.

Ltac iterate_step' :=
  first
    [ iterate_step
    | apply iteration_bind_quiet; [apply parseTimestamp_total | intros ?] ].

Lemma manualRegister_body_iteration (s : pb.RegisterRequest.t) (p : bytes) :
  p <> [] -> iteration parse_error_events p (manualRegister_body (s, p)).
Proof.
  intros _. unfold manualRegister_body. cbv zeta. repeat iterate_step'.
Qed.

Lemma manualListAppointments_body_iteration (s : pb.ListAppointmentsRequest.t) (p : bytes) :
  p <> [] -> iteration parse_error_events p (manualListAppointments_body (s, p)).
Proof.
  intros _. unfold manualListAppointments_body. cbv zeta. repeat iterate_step'.
Qed.

Lemma manualCreateAppointment_body_iteration (s : pb.CreateAppointmentRequest.t) (p : bytes) :
  p <> [] -> iteration parse_error_events p (manualCreateAppointment_body (s, p)).
Proof.
  intros _. unfold manualCreateAppointment_body. cbv zeta. repeat iterate_step'.
Qed.

Lemma manualGetAppointment_body_iteration (s : pb.GetAppointmentRequest.t) (p : bytes) :
  p <> [] -> iteration parse_error_events p (manualGetAppointment_body (s, p)).
Proof.
  intros _. unfold manualGetAppointment_body. cbv zeta. repeat iterate_step'.
Qed.

Lemma manualUpdateAppointment_body_iteration (s : pb.UpdateAppointmentRequest.t) (p : bytes) :
  p <> [] -> iteration parse_error_events p (manualUpdateAppointment_body (s, p)).
Proof.
  intros _. unfold manualUpdateAppointment_body. cbv zeta. repeat iterate_step'.
Qed.

Lemma manualDeleteAppointment_body_iteration (s : pb.DeleteAppointmentRequest.t) (p : bytes) :
  p <> [] -> iteration parse_error_events p (manualDeleteAppointment_body (s, p)).
Proof.
  intros _. unfold manualDeleteAppointment_body. cbv zeta. repeat iterate_step'.
Qed.

Lemma outcome_writeError (P : Z -> Prop) (code : Z) (msg : string) :
  P code -> outcome P (writeError code msg).
Proof.
  intros HP. right. exists [], (fst (writeError code msg)). rewrite writeError_frame.
  repeat split; [now left | right; now exists code, msg].
Qed.

Lemma outcome_call (P : Z -> Prop) (e : Event) (m : M unit) :
  is_contact e = true ->
  (exists d, m = writeSuccess d)
  \/ (exists code msg, P code /\ m = writeError code msg) ->
  outcome P (emit e ;; m).
Proof.
  intros He H. right. exists [e].
  destruct H as [[d ->] | [code [msg [HP ->]]]]; rewrite bind_emit_l.
  - rewrite writeSuccess_frames. eexists. repeat split.
    + right. now exists e.
    + left. now exists d.
  - rewrite writeError_frame. eexists. repeat split.
    + right. now exists e.
    + right. now exists code, msg.
Qed.

Lemma outcome_after_loop {St : Type} (P : Z -> Prop) (fuel : nat) (payload : bytes)
    (body : St * bytes -> M (Ctl (St * bytes) unit)) (s0 : St)
    (k : St -> M unit) :
  P codes.InvalidArgument ->
  (forall s p, p <> [] -> iteration parse_error_events p (body (s, p))) ->
  (List.length payload < fuel)%nat ->
  (forall s, outcome P (k s)) ->
  outcome P (c <- for_loop fuel more body (s0, payload) ;;
             match c with
             | Return _ => ret tt
             | Continue (req, _) => k req
             end).
Proof.
  intros HP Hb Hf Hk.
  pose proof (for_loop_enough_fuel parse_error_events body Hb fuel s0 payload Hf) as H.
  remember (for_loop fuel more body (s0, payload)) as m eqn:E. clear E.
  destruct H as [s | r |].
  - rewrite bind_val_l. apply Hk.
  - right. exists [], parse_error_events. unfold bind, ret. rewrite app_nil_r.
    repeat split; [now left | right].
    now exists codes.InvalidArgument, "parse error"%string.
  - now left.
Qed.

Lemma outcome_must {A : Type} (P : Z -> Prop) (o : option A) (k : A -> M unit) :
  (forall a, o = Some a -> outcome P (k a)) -> outcome P (a <- must o ;; k a).
Proof.
  intros H. destruct o as [a|]; [rewrite must_Some, bind_ret_l; now apply H | now left].
Qed.

Ltac answer :=
  match goal with
  | |- outcome _ (emit _ ;; match ?x with _ => _ end) =>
      let E := fresh "E" in
      apply outcome_call;
      [ reflexivity
      | destruct x as [?|?st] eqn:E;
        [ left; eauto
        | right; exists (Code st), (Message st); split; [eauto | reflexivity] ] ]
  end.

Lemma manual_outcome (P : Z -> Prop) (L : jwt.Lib auth.Claims) (m : DirectMethod)
    (b : Bridge) (ctx : Context) (payload : bytes) (h : string) :
  P codes.InvalidArgument -> P codes.Unauthenticated ->
  (forall hd, direct b = Some hd -> handler_errors P hd) ->
  outcome P (manual L m b ctx payload h).
Proof.
  intros P3 P16 HH.
  assert (HA : forall st, manualAuth L b ctx h = Err st ->
                          outcome P (writeError (Code st) (Message st))).
  { intros st E. apply outcome_writeError.
    destruct (manualAuth_Err_code L b ctx h st E) as [-> _]. exact P16. }
  destruct m; cbn [manual];
    unfold manualLogin, manualRegister, manualListAppointments,
      manualCreateAppointment, manualGetAppointment, manualUpdateAppointment,
      manualDeleteAppointment;
    try (destruct (manualAuth L b ctx h) as [ctx'|st]; [|now apply HA]).
  - apply outcome_after_loop; [exact P3 | apply manualLogin_body_iteration | lia |].
    intros req. apply outcome_must. intros hd Hd.
    destruct (HH hd Hd) as (H1 & H2 & H3 & H4 & H5 & H6 & H7). answer.
  - apply outcome_after_loop; [exact P3 | apply manualRegister_body_iteration | lia |].
    intros req. apply outcome_must. intros hd Hd.
    destruct (HH hd Hd) as (H1 & H2 & H3 & H4 & H5 & H6 & H7). answer.
  - apply outcome_after_loop;
      [exact P3 | apply manualListAppointments_body_iteration | lia |].
    intros req. apply outcome_must. intros hd Hd.
    destruct (HH hd Hd) as (H1 & H2 & H3 & H4 & H5 & H6 & H7). answer.
  - apply outcome_after_loop;
      [exact P3 | apply manualCreateAppointment_body_iteration | lia |].
    intros req. apply outcome_must. intros hd Hd.
    destruct (HH hd Hd) as (H1 & H2 & H3 & H4 & H5 & H6 & H7). answer.
  - apply outcome_after_loop;
      [exact P3 | apply manualGetAppointment_body_iteration | lia |].
    intros req. apply outcome_must. intros hd Hd.
    destruct (HH hd Hd) as (H1 & H2 & H3 & H4 & H5 & H6 & H7). answer.
  - apply outcome_after_loop;
      [exact P3 | apply manualUpdateAppointment_body_iteration | lia |].
    intros req. apply outcome_must. intros hd Hd.
    destruct (HH hd Hd) as (H1 & H2 & H3 & H4 & H5 & H6 & H7). answer.
  - apply outcome_after_loop;
      [exact P3 | apply manualDeleteAppointment_body_iteration | lia |].
    intros req. apply outcome_must. intros hd Hd.
    destruct (HH hd Hd) as (H1 & H2 & H3 & H4 & H5 & H6 & H7). answer.
Qed.

Lemma some_inj {A : Type} (a b : A) : Some a = Some b -> a = b.
Proof. intros H. now inversion H. Qed.

Lemma Uint32_nonneg (b : bytes) (v : Z) : binary.Uint32 b = Some v -> 0 <= v.
Proof.
  destruct b as [|b0 [|b1 [|b2 [|b3 rest]]]]; try discriminate.
  unfold binary.Uint32. intros E. apply some_inj in E. rewrite <- E.
  pose proof (u8_range b0). pose proof (u8_range b1).
  pose proof (u8_range b2). pose proof (u8_range b3).
  rewrite !Z.lor_nonneg, !Z.shiftl_nonneg. lia.
Qed.

(** Decoding the frame of a body has no effect.  It yields a payload or
    an InvalidArgument status, or it panics, which no body shorter than
    4 GiB makes it do. *)
Lemma frame_payload_total (body : bytes) :
  (frame_payload body = ([], Panic) /\ 2 ^ 32 <= len body)
  \/ (exists payload, frame_payload body = ([], Val (Ok payload)))
  \/ (exists msg,
        frame_payload body = ([], Val (Err (mkStatus codes.InvalidArgument msg)))).
Proof.
  unfold frame_payload.
  destruct (Z.ltb_spec (len body) 5); [right; right; eexists; reflexivity|].
  assert (Hs : exists hdr, slice body 1 5 = Some hdr /\ len hdr = 4).
  { unfold slice. destruct (Z.ltb_spec (len body) 5); [lia|].
    eexists. split; [reflexivity|].
    unfold len in *. rewrite length_firstn, length_skipn. lia. }
  destruct Hs as [hdr [-> Hh]]. rewrite must_Some, bind_ret_l.
  assert (Hu : exists v, binary.Uint32 hdr = Some v).
  { destruct hdr as [|b0 [|b1 [|b2 [|b3 rest]]]]; try (cbv in Hh; discriminate).
    eexists. reflexivity. }
  destruct Hu as [v Hv]. rewrite Hv, must_Some, bind_ret_l.
  pose proof (Uint32_nonneg hdr v Hv).
  destruct (Z.gtb_spec (v + 5) (len body)); [right; right; eexists; reflexivity|].
  destruct (slice body 5 (uint32 (5 + v))) as [payload|] eqn:E.
  - right. left. rewrite must_Some, bind_ret_l. eexists. reflexivity.
  - left. split; [reflexivity|].
    destruct (Z.ltb_spec (len body) (2 ^ 32)); [|lia].
    rewrite uint32_small in E by lia. unfold slice in E.
    destruct (Z.ltb_spec (5 + v) 5); [lia|].
    destruct (Z.ltb_spec (len body) (5 + v)); [lia|]. discriminate.
Qed.

(** The slice bound [5+msgLen] of [forward] is computed in [uint32]: on a
    body of more than 4 GiB whose declared length is one of the five
    largest, the sum wraps below 5 and the slice expression panics. *)
Lemma frame_payload_wraps (body : bytes) (n : Z) :
  declared_length body = Some n ->
  2 ^ 32 - 5 <= n -> n + 5 <= len body ->
  frame_payload body = ([], Panic).
Proof.
  intros D Hn Hl. unfold frame_payload. unfold declared_length in D.
  destruct (Z.ltb_spec (len body) 5); [lia|].
  destruct (slice body 1 5) as [hdr|]; [|discriminate].
  rewrite must_Some, bind_ret_l, D, must_Some, bind_ret_l.
  destruct (Z.gtb_spec (n + 5) (len body)); [lia|].
  assert (Hb : n < 2 ^ 32).
  { destruct hdr as [|b0 [|b1 [|b2 [|b3 rest]]]]; try discriminate.
    unfold binary.Uint32 in D. apply some_inj in D. rewrite <- D.
    pose proof (u8_range b0). pose proof (u8_range b1).
    pose proof (u8_range b2). pose proof (u8_range b3).
    assert (B : forall x k, 0 <= x < 256 -> 0 <= k -> 0 <= Z.shiftl x k < 2 ^ (k + 8)).
    { intros x k Hx Hk. rewrite Z.shiftl_mul_pow2, Z.pow_add_r by lia.
      assert (0 < 2 ^ k) by (apply Z.pow_pos_nonneg; lia).
      change (2 ^ 8) with 256. nia. }
    pose proof (B (u8 b2) 8 ltac:(lia) ltac:(lia)).
    pose proof (B (u8 b1) 16 ltac:(lia) ltac:(lia)).
    pose proof (B (u8 b0) 24 ltac:(lia) ltac:(lia)).
    apply Z.log2_lt_cancel. rewrite Z.log2_pow2 by lia.
    repeat (rewrite Z.log2_lor; [| first [apply Z.lor_nonneg; split;
              [try (apply Z.lor_nonneg; split)|]; lia | lia] | lia]).
    assert (LB : forall x k, 0 <= x < 2 ^ k -> 0 < k -> Z.log2 x < k).
    { intros x k Hx Hk. destruct (Z.eq_dec x 0) as [->|]; [cbn; lia|].
      apply Z.log2_lt_pow2; lia. }
    pose proof (LB (u8 b3) 32 ltac:(lia) ltac:(lia)).
    pose proof (LB (Z.shiftl (u8 b2) 8) 32 ltac:(cbn in *; lia) ltac:(lia)).
    pose proof (LB (Z.shiftl (u8 b1) 16) 32 ltac:(cbn in *; lia) ltac:(lia)).
    pose proof (LB (Z.shiftl (u8 b0) 24) 32 ltac:(cbn in *; lia) ltac:(lia)).
    lia. }
  assert (E : uint32 (5 + n) = 5 + n - 2 ^ 32).
  { unfold uint32. symmetry. apply Z.mod_unique with (q := 1); lia. }
  rewrite E. unfold slice.
  destruct (Z.ltb_spec (5 + n - 2 ^ 32) 5); [|lia].
  rewrite orb_true_r. reflexivity.
Qed.

(** Every run of [forward] panics before any event or completes with one
    response, preceded by at most one call to a collaborator: the loops
    never run out of fuel.  An error trailer carries a code of the bridge
    itself or the code of a collaborator's status. *)
Theorem forward_outcome (P : Z -> Prop) (L : jwt.Lib auth.Claims) (b : Bridge)
    (r : Request) :
  P codes.InvalidArgument -> P codes.Internal -> P codes.Unauthenticated ->
  collaborator_errors P b ->
  outcome P (forward L b r).
Proof.
  intros P3 P13 P16 [HC HH].
  unfold forward. destruct (Body r) as [body|]; [|now apply outcome_writeError].
  destruct (frame_payload_total body) as [[-> _] | [[payload ->] | [msg ->]]];
    [now left | | rewrite bind_val_l; now apply outcome_writeError].
  rewrite bind_val_l.
  assert (HI : forall ctx, outcome P (invoke_raw b ctx (URLPath r) payload)).
  { intros ctx. unfold invoke_raw. apply outcome_call; [reflexivity|].
    destruct (conn b ctx (URLPath r) (rawCodec.Marshal (mkRawMsg payload)))
      as [d|st] eqn:E; [left; eauto|].
    right. exists (Code st), (Message st). split; [eauto | reflexivity]. }
  destruct (direct b) as [hd|] eqn:Hd; [destruct (direct_method (URLPath r))|];
    [apply manual_outcome; try assumption | apply HI | apply HI].
  intros hd' E. apply HH. rewrite <- Hd. exact E.
Qed.

(** The front door passes a POST of the framed media type on to
    [forward], after the five CORS headers. *)
Lemma Handler_post (L : jwt.Lib auth.Claims) (b : Bridge) (r : Request) :
  Method r = "POST"%string ->
  strings.HasPrefix (Header_Get (Header r) "Content-Type") "application/grpc-web" = true ->
  exists cors,
    List.length cors = 5%nat
    /\ Handler L b r = (cors ++ fst (forward L b r), snd (forward L b r)).
Proof.
  intros HM HC. unfold Handler. rewrite HM, HC. cbn [String.eqb Ascii.eqb Bool.eqb negb].
  rewrite !bind_emit_l. cbn [fst snd].
  eexists [_; _; _; _; _]. split; [reflexivity|]. reflexivity.
Qed.

(** ** The response convention: claim C4 *)

(** What [writeSuccess] and [writeError] write, for lengths that a
    four-byte field can hold: two frames, a Data frame (flag 0x00, the
    payload length in four big-endian bytes, the payload) and a Trailer
    frame (flag 0x80) whose text is the status line ["grpc-status:0\r\n"]
    alone; or one Trailer frame whose text is a non-zero status line
    followed by a message line.  Both set the HTTP status 200. *)
Lemma response_frames (d : bytes) (code : Z) (msg : string) :
  len d < 2 ^ 32 ->
  0 < code < 2 ^ 32 ->
  len (bytes_of (error_trailer code msg)) < 2 ^ 32 ->
  (exists df tf,
      writes (fst (writeSuccess d)) = [df; tf]
      /\ df = x00 :: binary.be32 (len d) ++ d
      /\ declared_length df = Some (len d)
      /\ tf = x80 :: binary.be32 15 ++ bytes_of ("grpc-status:0" ++ CRLF)
      /\ status_codes (fst (writeSuccess d)) = [200]
      /\ snd (writeSuccess d) = Val tt)
  /\
  (exists tf text,
      writes (fst (writeError code msg)) = [tf]
      /\ text = ("grpc-status:" ++ format_d code ++ CRLF
                 ++ "grpc-message:" ++ msg ++ CRLF)%string
      /\ tf = x80 :: binary.be32 (len (bytes_of text)) ++ bytes_of text
      /\ declared_length tf = Some (len (bytes_of text))
      /\ format_d code <> "0"%string
      /\ status_codes (fst (writeError code msg)) = [200]
      /\ snd (writeError code msg) = Val tt).
Proof.
  intros Hd Hc Ht. pose proof (len_nonneg d).
  pose proof (len_nonneg (bytes_of (error_trailer code msg))).
  split.
  - exists (frame x00 d), (frame x80 (bytes_of ok_trailer)).
    rewrite writeSuccess_frames. cbn [fst snd].
    repeat split.
    + unfold frame. rewrite uint32_small by lia. reflexivity.
    + rewrite <- (app_nil_r (frame x00 d)). apply declared_length_frame. lia.
  - exists (frame x80 (bytes_of (error_trailer code msg))), (error_trailer code msg).
    rewrite writeError_frame. cbn [fst snd].
    repeat split.
    + unfold frame. rewrite uint32_small by lia. reflexivity.
    + rewrite <- (app_nil_r (frame x80 _)). apply declared_length_frame. lia.
    + intros E. change "0"%string with (format_d 0) in E.
      apply format_d_inj in E; lia.
Qed.

(** C4 fails on the code.  A Login request to a bridge with a direct
    handler, for every token library, backend, handler, secret and
    Authorization header:

    - on the empty payload the handler is called, and its answer is
      written as the claim says: a response as a Data frame with the three
      fields of the response and the Trailer frame ["grpc-status:0\r\n"],
      an error as one Trailer frame with the status line of its code and
      the line of its message, under the HTTP status 200;
    - a payload whose tag is malformed ([0xFF]) fails after framing and is
      answered with one Trailer frame, status 3 and the message
      ["parse error"], under the HTTP status 200;
    - the payload [0x0A 0x05 0x41] is framed correctly and fails in the
      same decoder (field 1 announces five bytes and carries one), but the
      count that reports it is not tested: the run panics, and no frame
      and no status reach the response, neither from [forward] nor from
      [Handler]. *)
Theorem C4_failure_without_trailer
    (L : jwt.Lib auth.Claims) (cn : ClientConn) (hd : handler.Handler)
    (secret : string) (authz : list string) :
  let b := mkBridge cn (Some hd) secret in
  let login := Fixture.post (Fixture.svc ++ "/Login") authz in
  let ctx := mkContext authz None in
  forward L b (login [x00; x00; x00; x00; x00])
  = match handler.Login hd ctx pb.LoginRequest.zero with
    | Ok resp =>
        ([Call (CallLogin ctx pb.LoginRequest.zero);
          SetHeader "Content-Type" "application/grpc-web+proto"; WriteHeader 200;
          Write (frame x00 (string_field x0a (pb.LoginResponse.Token resp)
                            ++ string_field x12 (pb.LoginResponse.UserId resp)
                            ++ string_field x1a (pb.LoginResponse.Name resp)));
          Write (frame x80 (bytes_of ("grpc-status:0" ++ CRLF)))], Val tt)
    | Err st =>
        ([Call (CallLogin ctx pb.LoginRequest.zero);
          SetHeader "Content-Type" "application/grpc-web+proto"; WriteHeader 200;
          Write (frame x80 (bytes_of ("grpc-status:" ++ format_d (Code st) ++ CRLF
                                      ++ "grpc-message:" ++ Message st ++ CRLF)))],
         Val tt)
    end
  /\ forward L b (login [x00; x00; x00; x00; x01; xff])
     = ([SetHeader "Content-Type" "application/grpc-web+proto"; WriteHeader 200;
         Write (frame x80 (bytes_of ("grpc-status:3" ++ CRLF
                                     ++ "grpc-message:parse error" ++ CRLF)))],
        Val tt)
  /\ frame_payload [x00; x00; x00; x00; x03; x0a; x05; x41] = ret (Ok [x0a; x05; x41])
  /\ forward L b (login [x00; x00; x00; x00; x03; x0a; x05; x41]) = ([], Panic)
  /\ writes (fst (Handler L b (login [x00; x00; x00; x00; x03; x0a; x05; x41]))) = []
  /\ status_codes (fst (Handler L b (login [x00; x00; x00; x00; x03; x0a; x05; x41])))
     = []
  /\ snd (Handler L b (login [x00; x00; x00; x00; x03; x0a; x05; x41])) = Panic.
Proof.
  cbv zeta. repeat split; try reflexivity.
  unfold forward, Fixture.post. cbn [Body URLPath Header].
  assert (E : frame_payload [x00; x00; x00; x00; x00] = ret (Ok [])) by reflexivity.
  rewrite E, bind_ret_l. clear E. cbn [direct].
  change (direct_method (Fixture.svc ++ "/Login")) with (Some MLogin).
  cbn [manual]. unfold manualLogin.
  match goal with
  | |- bind ?m _ = _ =>
      assert (E : m = ret (Continue (pb.LoginRequest.zero, []))) by reflexivity;
      rewrite E; clear E
  end.
  rewrite bind_ret_l. cbv beta iota. cbn [direct].
  rewrite must_Some, bind_ret_l, bind_emit_l.
  change (Header_Values (Fixture.headers authz) "Authorization") with authz.
  destruct (handler.Login hd (mkContext authz None) pb.LoginRequest.zero) as [resp|st].
  - cbv zeta. rewrite writeSuccess_frames. cbn [fst snd].
    rewrite (AppendString_field [] 1 x0a) by reflexivity.
    rewrite (AppendString_field _ 2 x12) by reflexivity.
    rewrite (AppendString_field _ 3 x1a) by reflexivity.
    cbn [app]. rewrite <- app_assoc. reflexivity.
  - rewrite writeError_frame. reflexivity.
Qed.

(** ** Loops, one iteration at a time *)

Lemma for_loop_fuel {St R : Type} (tr : list Event)
    (body : St * bytes -> M (Ctl (St * bytes) R)) :
  (forall s p, p <> [] -> iteration tr p (body (s, p))) ->
  forall (f1 f2 : nat) (s : St) (p : bytes),
    (List.length p < f1)%nat -> (List.length p < f2)%nat ->
    for_loop f1 more body (s, p) = for_loop f2 more body (s, p).
Proof.
  intros Hbody. induction f1 as [|f1 IH]; intros f2 s p H1 H2; [lia|].
  destruct f2 as [|f2]; [lia|].
  cbn [for_loop]. destruct p as [|x p].
  - rewrite more_nil. reflexivity.
  - rewrite more_cons.
    match goal with
    | |- bind ?m _ = _ =>
        pose proof (Hbody s (x :: p) ltac:(discriminate) : iteration tr (x :: p) m) as H;
        remember m as m0 eqn:E; clear E
    end.
    destruct H as [s' p' Hl | r |]; [|reflexivity|reflexivity].
    rewrite !bind_val_l. apply IH; unfold len in Hl; cbn [List.length] in *; lia.
Qed.

(** One iteration that continues. *)
Lemma for_loop_step {St R : Type} (tr : list Event)
    (body : St * bytes -> M (Ctl (St * bytes) R)) (s s' : St) (p p' : bytes)
    (fuel : nat) :
  (forall s p, p <> [] -> iteration tr p (body (s, p))) ->
  p <> [] -> (List.length p < fuel)%nat ->
  body (s, p) = ([], Val (Continue (s', p'))) ->
  for_loop fuel more body (s, p)
  = for_loop (S (List.length p')) more body (s', p').
Proof.
  intros Hbody Hp Hf E.
  assert (Hi : @iteration St R tr p ([], Val (Continue (s', p')))).
  { rewrite <- E. apply Hbody. exact Hp. }
  assert (Hl : len p' < len p).
  { inversion Hi; assumption. }
  destruct fuel as [|fuel]; [lia|].
  remember (for_loop (S (List.length p')) more body (s', p')) as rhs eqn:Er.
  cbn [for_loop].
  destruct p as [|x p]; [contradiction|]. rewrite more_cons.
  rewrite E, bind_val_l. subst rhs. apply (for_loop_fuel tr body Hbody);
    unfold len in Hl; cbn [List.length] in *; lia.
Qed.

(** What follows a decode loop: a panic, the parse-error trailer, or the
    rest of the function on the decoded request. *)
Lemma loop_cases {St : Type} (fuel : nat) (payload : bytes)
    (body : St * bytes -> M (Ctl (St * bytes) unit)) (s0 : St) (k : St -> M unit) :
  (forall s p, p <> [] -> iteration parse_error_events p (body (s, p))) ->
  (List.length payload < fuel)%nat ->
  let run := (c <- for_loop fuel more body (s0, payload) ;;
              match c with
              | Return _ => ret tt
              | Continue (req, _) => k req
              end) in
  run = ([], Panic) \/ run = (parse_error_events, Val tt) \/ exists s, run = k s.
Proof.
  intros Hb Hf run. subst run.
  pose proof (for_loop_enough_fuel parse_error_events body Hb fuel s0 payload Hf) as H.
  remember (for_loop fuel more body (s0, payload)) as m eqn:E. clear E.
  destruct H as [s | r |].
  - right. right. exists s. rewrite bind_val_l. reflexivity.
  - right. left. unfold bind, ret. now rewrite app_nil_r.
  - now left.
Qed.

(** ** The front door and the dispatcher *)



(** X2.  On every path, whatever follows the first frame of the body is ignored:
    two bodies that start with the same frame are processed identically. *)
Theorem trailing_bytes_ignored (L : jwt.Lib auth.Claims) (b : Bridge) (r : Request)
    (flag : byte) (P rest rest' : bytes) :
  len P + 5 < 2 ^ 32 ->
  forward L b (with_body r (frame flag P ++ rest))
  = forward L b (with_body r (frame flag P ++ rest')).
Proof.
  intros HP. unfold forward, with_body. cbn [Body URLPath Header].
  rewrite !frame_payload_frame by exact HP. reflexivity.
Qed.

Lemma trailing_bytes_ignored_witness :
  forward Fixture.lib Fixture.bridge
    (with_body (Fixture.post "/echo.Service/Echo" [] []) (frame x00 [x10; x01] ++ [xff]))
  = forward Fixture.lib Fixture.bridge
      (with_body (Fixture.post "/echo.Service/Echo" [] []) (frame x00 [x10; x01] ++ [])).
Proof.
  apply (trailing_bytes_ignored Fixture.lib Fixture.bridge
           (Fixture.post "/echo.Service/Echo" [] []) x00 [x10; x01] [xff] []).
  reflexivity.
Defined.

Lemma rev_string_app (a b : string) :
  strings.rev_string (a ++ b) = (strings.rev_string b ++ strings.rev_string a)%string.
Proof.
  unfold strings.rev_string.
  assert (E1 : forall x y, list_ascii_of_string (x ++ y)
                           = (list_ascii_of_string x ++ list_ascii_of_string y)%list).
  { induction x as [|c x IH]; intros y; cbn; [reflexivity | now rewrite IH]. }
  assert (E2 : forall l1 l2, string_of_list_ascii (l1 ++ l2)
                             = (string_of_list_ascii l1 ++ string_of_list_ascii l2)%string).
  { induction l1 as [|c l1 IH]; intros l2; cbn; [reflexivity | now rewrite IH]. }
  rewrite E1, rev_app_distr, E2. reflexivity.
Qed.

(** X3.  Direct dispatch goes by the last segment of the path alone: whatever
    precedes one of the seven method names, the path is dispatched to that
    method, and no name is shadowed by another. *)
Theorem dispatch_by_suffix (prefix : string) (m : DirectMethod) :
  direct_method (prefix ++ method_suffix m) = Some m.
Proof.
  unfold direct_method, strings.HasSuffix.
  rewrite rev_string_app.
  generalize (strings.rev_string prefix). intros tail.
  destruct m; destruct tail; reflexivity.
Qed.

Lemma invoke_raw_events (b : Bridge) (ctx : Context) (path : string) (P : bytes) :
  invoke_raw b ctx path P =
    match conn b ctx path P with
    | Ok d =>
        ([Invoke ctx path P;
          SetHeader "Content-Type" "application/grpc-web+proto"; WriteHeader 200;
          Write (frame x00 d); Write (frame x80 (bytes_of ok_trailer))], Val tt)
    | Err st =>
        ([Invoke ctx path P;
          SetHeader "Content-Type" "application/grpc-web+proto"; WriteHeader 200;
          Write (frame x80 (bytes_of (error_trailer (Code st) (Message st))))], Val tt)
    end.
Proof.
  unfold invoke_raw. rewrite bind_emit_l.
  unfold rawCodec.Marshal, rawCodec.Unmarshal. cbn [data app].
  destruct (conn b ctx path P) as [d|st].
  - rewrite writeSuccess_frames. reflexivity.
  - rewrite writeError_frame. reflexivity.
Qed.

(** X4.  A bridge without a direct handler forwards every path, the seven
    method names included: the payload of the first frame goes unchanged
    to the backend under the same path and with the Authorization values,
    and the answer is relayed as the two success frames, or as one trailer
    with the status of the backend's error. *)
Theorem no_direct_handler_forwards_all (L : jwt.Lib auth.Claims) (b : Bridge)
    (r : Request) (flag : byte) (P rest : bytes) :
  direct b = None ->
  Body r = Some (frame flag P ++ rest) ->
  len P + 5 < 2 ^ 32 ->
  forward L b r =
    match conn b (mkContext (Header r "Authorization") None) (URLPath r) P with
    | Ok d =>
        ([Invoke (mkContext (Header r "Authorization") None) (URLPath r) P;
          SetHeader "Content-Type" "application/grpc-web+proto"; WriteHeader 200;
          Write (frame x00 d); Write (frame x80 (bytes_of ok_trailer))], Val tt)
    | Err st =>
        ([Invoke (mkContext (Header r "Authorization") None) (URLPath r) P;
          SetHeader "Content-Type" "application/grpc-web+proto"; WriteHeader 200;
          Write (frame x80 (bytes_of (error_trailer (Code st) (Message st))))], Val tt)
    end.
Proof.
  intros HD HB HP. unfold forward. rewrite HB.
  rewrite frame_payload_frame, bind_ret_l by exact HP.
  rewrite HD. unfold Header_Values. apply invoke_raw_events.
Qed.

Lemma no_direct_handler_forwards_all_witness :
  forward Fixture.lib (mkBridge Fixture.backend None "s3cret")
    (Fixture.post (Fixture.svc ++ "/Login") [] (frame x00 [x0a; x00]))
  = ([Invoke (mkContext [] None) (Fixture.svc ++ "/Login") [x0a; x00];
      SetHeader "Content-Type" "application/grpc-web+proto"; WriteHeader 200;
      Write (frame x80 (bytes_of (error_trailer 14 "unavailable")))], Val tt).
Proof.
  exact (no_direct_handler_forwards_all Fixture.lib
           (mkBridge Fixture.backend None "s3cret")
           (Fixture.post (Fixture.svc ++ "/Login") [] (frame x00 [x0a; x00]))
           x00 [x0a; x00] [] eq_refl eq_refl eq_refl).
Defined.

(** X5.  Outside direct dispatch (no direct handler, or a path that does not end
    in one of the seven names) [forward] completes on every body shorter
    than 2^32 bytes, well-formed or not: it never panics there. *)
Theorem opaque_path_completes (L : jwt.Lib auth.Claims) (b : Bridge) (r : Request)
    (body : bytes) :
  Body r = Some body ->
  len body < 2 ^ 32 ->
  direct b = None \/ direct_method (URLPath r) = None ->
  snd (forward L b r) = Val tt.
Proof.
  intros HB Hl HD. unfold forward. rewrite HB.
  destruct (frame_payload_total body) as [[_ H] | [[payload ->] | [msg ->]]]; [lia| |].
  - rewrite bind_val_l.
    assert (E : forall ctx, snd (invoke_raw b ctx (URLPath r) payload) = Val tt).
    { intros ctx. rewrite invoke_raw_events.
      destruct (conn b ctx (URLPath r) payload); reflexivity. }
    destruct HD as [-> | ->]; [apply E|].
    destruct (direct b); apply E.
  - rewrite bind_val_l, writeError_frame. reflexivity.
Qed.

Lemma opaque_path_completes_witness :
  snd (forward Fixture.lib Fixture.bridge
         (Fixture.post "/echo.Service/Echo" [] [x00; x00; x00; x00; x01; x08]))
  = Val tt.
Proof.
  apply (opaque_path_completes Fixture.lib Fixture.bridge
           (Fixture.post "/echo.Service/Echo" [] [x00; x00; x00; x00; x01; x08])
           [x00; x00; x00; x00; x01; x08]).
  - reflexivity.
  - reflexivity.
  - right. reflexivity.
Defined.

(** ** Fields that a decoder does not know *)




Section UnknownField.

Variables (p : bytes) (num typ n k : Z).
Hypothesis HT : ConsumeTag p = (num, typ, n).
Hypothesis Hn : 0 <= n.
Hypothesis HV : ConsumeFieldValue num typ (skipn (Z.to_nat n) p) = k.
Hypothesis Hk : 0 <= k.









End UnknownField.



(** ** Decoding what a client encodes *)

Lemma ConsumeTag_field (t : byte) (num typ : Z) (rest : bytes) :
  u8 t < 128 -> Z.shiftr (u8 t) 3 = num -> 1 <= num -> Z.land (u8 t) 7 = typ ->
  ConsumeTag (t :: rest) = (num, typ, 1).
Proof.
  intros H1 <- H3 <-. apply ConsumeTag_byte; assumption.
Qed.

Lemma slice_from_1 (t : byte) (rest : bytes) : slice_from (t :: rest) 1 = Some rest.
Proof.
  rewrite slice_from_ok; [reflexivity|]. rewrite len_cons. pose proof (len_nonneg rest). lia.
Qed.

Lemma uint64_len (v : bytes) : len v < 2 ^ 63 -> uint64 (len v) = len v.
Proof.
  intros H. unfold uint64. apply Z.mod_small. pose proof (len_nonneg v). lia.
Qed.

Lemma ConsumeBytes_value (v rest : bytes) :
  len v < 2 ^ 63 ->
  ConsumeBytes (varint 10 (uint64 (len v)) ++ v ++ rest)
  = (v, len (varint 10 (len v)) + len v).
Proof.
  intros H. rewrite uint64_len by exact H. apply ConsumeBytes_prefixed. lia.
Qed.

Lemma slice_from_value (v rest : bytes) :
  len v < 2 ^ 63 ->
  slice_from (varint 10 (uint64 (len v)) ++ v ++ rest)
    (len (varint 10 (len v)) + len v) = Some rest.
Proof.
  intros H. rewrite uint64_len by exact H.
  rewrite slice_from_ok.
  - f_equal. rewrite app_assoc, <- len_app. apply skipn_len_app.
  - rewrite !len_app. pose proof (len_nonneg rest). pose proof (len_nonneg v).
    pose proof (len_nonneg (varint 10 (len v))). lia.
Qed.

Lemma string_of_bytes_of (s : string) : string_of (bytes_of s) = s.
Proof. apply string_of_list_byte_of_string. Qed.

(** One iteration on a known length-delimited field. *)
Ltac tag_values :=
  repeat match goal with
  | |- context [Z.shiftr (u8 ?t) 3] =>
      let v := eval vm_compute in (Z.shiftr (u8 t) 3) in
      change (Z.shiftr (u8 t) 3) with v
  | |- context [Z.land (u8 ?t) 7] =>
      let v := eval vm_compute in (Z.land (u8 t) 7) in
      change (Z.land (u8 t) 7) with v
  end;
  unfold BytesType, VarintType; cbn [Z.eqb Pos.eqb andb].

Ltac known_tag :=
  cbv zeta;
  erewrite ConsumeTag_field by (reflexivity || (vm_compute; congruence) || lia);
  cbv beta iota;
  match goal with |- context [?n <? 0] => change (n <? 0) with false end;
  cbv beta iota;
  rewrite slice_from_1, must_Some, bind_ret_l;
  tag_values.

Ltac known_bytes H :=
  known_tag;
  rewrite ConsumeBytes_value by exact H; cbv beta iota;
  rewrite slice_from_value by exact H;
  rewrite ?must_Some, ?bind_ret_l.

Lemma slice_from_varint (v : Z) (rest : bytes) :
  slice_from (varint 10 v ++ rest) (len (varint 10 v)) = Some rest.
Proof.
  rewrite slice_from_ok.
  - f_equal. apply skipn_len_app.
  - rewrite len_app. pose proof (len_nonneg rest). pose proof (len_nonneg (varint 10 v)). lia.
Qed.

Lemma int64_uint64 (x : Z) : - 2 ^ 63 <= x < 2 ^ 63 -> int64 (uint64 x) = x.
Proof.
  intros H. unfold int64, uint64.
  rewrite Zplus_mod_idemp_l.
  rewrite Z.mod_small by lia. lia.
Qed.

Lemma int32_uint64 (x : Z) : - 2 ^ 31 <= x < 2 ^ 31 -> int32 (uint64 x) = x.
Proof.
  intros H. unfold int32, uint64.
  rewrite (Z.mod_eq x (2 ^ 64)) by lia.
  replace (x - 2 ^ 64 * (x / 2 ^ 64) + 2 ^ 31)
    with (x + 2 ^ 31 + (- (x / 2 ^ 64) * 2 ^ 32) * 2 ^ 32) by lia.
  rewrite Z_mod_plus_full. rewrite Z.mod_small by lia. lia.
Qed.

Ltac known_varint :=
  known_tag;
  rewrite ConsumeVarint_AppendVarint by apply uint64_range; cbv beta iota;
  rewrite slice_from_varint, must_Some, bind_ret_l.

Lemma parseTimestamp_body_Seconds (ts : pb.Timestamp) (s : Z) (rest : bytes) :
  parseTimestamp_body (ts, x08 :: varint 10 (uint64 s) ++ rest)
  = ([], Val (Continue (pb.mkTimestamp (int64 (uint64 s)) (pb.Nanos ts), rest))).
Proof.
  unfold parseTimestamp_body. known_varint. reflexivity.
Qed.

Lemma parseTimestamp_body_Nanos (ts : pb.Timestamp) (n : Z) (rest : bytes) :
  parseTimestamp_body (ts, x10 :: varint 10 (uint64 n) ++ rest)
  = ([], Val (Continue (pb.mkTimestamp (pb.Seconds ts) (int32 (uint64 n)), rest))).
Proof.
  unfold parseTimestamp_body. known_varint. reflexivity.
Qed.

Lemma for_loop_nil {St R : Type} (fuel : nat) (body : St * bytes -> M (Ctl (St * bytes) R))
    (s : St) :
  for_loop fuel more body (s, []) = ([], Val (Continue (s, []))).
Proof. destruct fuel; reflexivity. Qed.

Lemma parseTimestamp_loop_Seconds (ts : pb.Timestamp) (s : Z) (rest : bytes) (fuel : nat) :
  (List.length (x08 :: varint 10 (uint64 s) ++ rest) < fuel)%nat ->
  for_loop fuel more parseTimestamp_body (ts, x08 :: varint 10 (uint64 s) ++ rest)
  = for_loop (S (List.length rest)) more parseTimestamp_body
      (pb.mkTimestamp (int64 (uint64 s)) (pb.Nanos ts), rest).
Proof.
  intros Hf. apply (for_loop_step []);
    [exact parseTimestamp_body_iteration | discriminate | exact Hf
    | apply parseTimestamp_body_Seconds].
Qed.

Lemma parseTimestamp_loop_Nanos (ts : pb.Timestamp) (n : Z) (rest : bytes) (fuel : nat) :
  (List.length (x10 :: varint 10 (uint64 n) ++ rest) < fuel)%nat ->
  for_loop fuel more parseTimestamp_body (ts, x10 :: varint 10 (uint64 n) ++ rest)
  = for_loop (S (List.length rest)) more parseTimestamp_body
      (pb.mkTimestamp (pb.Seconds ts) (int32 (uint64 n)), rest).
Proof.
  intros Hf. apply (for_loop_step []);
    [exact parseTimestamp_body_iteration | discriminate | exact Hf
    | apply parseTimestamp_body_Nanos].
Qed.

Lemma parseTimestamp_timestamp_inner (ts : pb.Timestamp) :
  - 2 ^ 63 <= pb.Seconds ts < 2 ^ 63 -> - 2 ^ 31 <= pb.Nanos ts < 2 ^ 31 ->
  parseTimestamp (timestamp_inner ts) = ([], Val (Some ts)).
Proof.
  intros Hs Hn. destruct ts as [s n]. cbn [pb.Seconds pb.Nanos] in *.
  unfold parseTimestamp, timestamp_inner. cbn [pb.Seconds pb.Nanos].
  destruct (Z.eqb_spec s 0) as [->|Hs0]; destruct (Z.eqb_spec n 0) as [->|Hn0];
    cbn [app].
  - rewrite for_loop_nil, bind_val_l. reflexivity.
  - rewrite <- (app_nil_r (varint 10 (uint64 n))).
    rewrite parseTimestamp_loop_Nanos by lia.
    rewrite for_loop_nil, bind_val_l, int32_uint64 by exact Hn. reflexivity.
  - rewrite app_nil_r. rewrite <- (app_nil_r (varint 10 (uint64 s))).
    rewrite parseTimestamp_loop_Seconds by lia.
    rewrite for_loop_nil, bind_val_l, int64_uint64 by exact Hs. reflexivity.
  - rewrite parseTimestamp_loop_Seconds by lia.
    rewrite <- (app_nil_r (varint 10 (uint64 n))).
    rewrite parseTimestamp_loop_Nanos by lia.
    rewrite for_loop_nil, bind_val_l, int32_uint64, int64_uint64 by assumption.
    reflexivity.
Qed.

Lemma len_timestamp_inner_fits (ts : pb.Timestamp) : len (timestamp_inner ts) < 2 ^ 63.
Proof. pose proof (len_timestamp_inner ts). lia. Qed.

Ltac known_string H :=
  unfold string_field; rewrite <- app_comm_cons, <- app_assoc;
  known_bytes H; rewrite string_of_bytes_of; reflexivity.

Ltac known_timestamp H :=
  unfold timestamp_field; rewrite <- app_comm_cons, <- app_assoc;
  known_tag;
  rewrite ConsumeBytes_value by apply len_timestamp_inner_fits; cbv beta iota;
  destruct H as [? ?];
  rewrite parseTimestamp_timestamp_inner by assumption;
  rewrite bind_val_l;
  rewrite slice_from_value by apply len_timestamp_inner_fits;
  rewrite ?must_Some, ?bind_ret_l; reflexivity.

Lemma manualLogin_body_Email (req : pb.LoginRequest.t) (s : string) (rest : bytes) :
  fits s ->
  manualLogin_body (req, string_field x0a s ++ rest)
  = ([], Val (Continue (pb.LoginRequest.set_Email s req, rest))).
Proof. intros Hs. unfold manualLogin_body. known_string Hs. Qed.

Lemma manualLogin_body_Password (req : pb.LoginRequest.t) (s : string) (rest : bytes) :
  fits s ->
  manualLogin_body (req, string_field x12 s ++ rest)
  = ([], Val (Continue (pb.LoginRequest.set_Password s req, rest))).
Proof. intros Hs. unfold manualLogin_body. known_string Hs. Qed.

Lemma manualRegister_body_Email (req : pb.RegisterRequest.t) (s : string) (rest : bytes) :
  fits s ->
  manualRegister_body (req, string_field x0a s ++ rest)
  = ([], Val (Continue (pb.RegisterRequest.set_Email s req, rest))).
Proof. intros Hs. unfold manualRegister_body. known_string Hs. Qed.

Lemma manualRegister_body_Password (req : pb.RegisterRequest.t) (s : string) (rest : bytes) :
  fits s ->
  manualRegister_body (req, string_field x12 s ++ rest)
  = ([], Val (Continue (pb.RegisterRequest.set_Password s req, rest))).
Proof. intros Hs. unfold manualRegister_body. known_string Hs. Qed.

Lemma manualRegister_body_Name (req : pb.RegisterRequest.t) (s : string) (rest : bytes) :
  fits s ->
  manualRegister_body (req, string_field x1a s ++ rest)
  = ([], Val (Continue (pb.RegisterRequest.set_Name s req, rest))).
Proof. intros Hs. unfold manualRegister_body. known_string Hs. Qed.

Lemma manualListAppointments_body_RangeStart (req : pb.ListAppointmentsRequest.t) (ts : pb.Timestamp) (rest : bytes) :
  timestamp_ok (Some ts) ->
  manualListAppointments_body (req, timestamp_field x0a (Some ts) ++ rest)
  = ([], Val (Continue (pb.ListAppointmentsRequest.set_RangeStart (Some ts) req, rest))).
Proof. intros Hs. unfold manualListAppointments_body. known_timestamp Hs. Qed.

Lemma manualListAppointments_body_RangeEnd (req : pb.ListAppointmentsRequest.t) (ts : pb.Timestamp) (rest : bytes) :
  timestamp_ok (Some ts) ->
  manualListAppointments_body (req, timestamp_field x12 (Some ts) ++ rest)
  = ([], Val (Continue (pb.ListAppointmentsRequest.set_RangeEnd (Some ts) req, rest))).
Proof. intros Hs. unfold manualListAppointments_body. known_timestamp Hs. Qed.

Lemma manualCreateAppointment_body_Title (req : pb.CreateAppointmentRequest.t) (s : string) (rest : bytes) :
  fits s ->
  manualCreateAppointment_body (req, string_field x0a s ++ rest)
  = ([], Val (Continue (pb.CreateAppointmentRequest.set_Title s req, rest))).
Proof. intros Hs. unfold manualCreateAppointment_body. known_string Hs. Qed.

Lemma manualCreateAppointment_body_Description (req : pb.CreateAppointmentRequest.t) (s : string) (rest : bytes) :
  fits s ->
  manualCreateAppointment_body (req, string_field x12 s ++ rest)
  = ([], Val (Continue (pb.CreateAppointmentRequest.set_Description s req, rest))).
Proof. intros Hs. unfold manualCreateAppointment_body. known_string Hs. Qed.

Lemma manualCreateAppointment_body_StartTime (req : pb.CreateAppointmentRequest.t) (ts : pb.Timestamp) (rest : bytes) :
  timestamp_ok (Some ts) ->
  manualCreateAppointment_body (req, timestamp_field x1a (Some ts) ++ rest)
  = ([], Val (Continue (pb.CreateAppointmentRequest.set_StartTime (Some ts) req, rest))).
Proof. intros Hs. unfold manualCreateAppointment_body. known_timestamp Hs. Qed.

Lemma manualCreateAppointment_body_EndTime (req : pb.CreateAppointmentRequest.t) (ts : pb.Timestamp) (rest : bytes) :
  timestamp_ok (Some ts) ->
  manualCreateAppointment_body (req, timestamp_field x22 (Some ts) ++ rest)
  = ([], Val (Continue (pb.CreateAppointmentRequest.set_EndTime (Some ts) req, rest))).
Proof. intros Hs. unfold manualCreateAppointment_body. known_timestamp Hs. Qed.

Lemma manualCreateAppointment_body_Location (req : pb.CreateAppointmentRequest.t) (s : string) (rest : bytes) :
  fits s ->
  manualCreateAppointment_body (req, string_field x2a s ++ rest)
  = ([], Val (Continue (pb.CreateAppointmentRequest.set_Location s req, rest))).
Proof. intros Hs. unfold manualCreateAppointment_body. known_string Hs. Qed.

Lemma manualCreateAppointment_body_AttendeeIds (req : pb.CreateAppointmentRequest.t) (s : string) (rest : bytes) :
  fits s ->
  manualCreateAppointment_body (req, string_field x32 s ++ rest)
  = ([], Val (Continue (pb.CreateAppointmentRequest.set_AttendeeIds (pb.CreateAppointmentRequest.AttendeeIds req ++ [s]) req, rest))).
Proof. intros Hs. unfold manualCreateAppointment_body. known_string Hs. Qed.

Lemma manualGetAppointment_body_Id (req : pb.GetAppointmentRequest.t) (s : string) (rest : bytes) :
  fits s ->
  manualGetAppointment_body (req, string_field x0a s ++ rest)
  = ([], Val (Continue (pb.GetAppointmentRequest.set_Id s req, rest))).
Proof. intros Hs. unfold manualGetAppointment_body. known_string Hs. Qed.

Lemma manualUpdateAppointment_body_Id (req : pb.UpdateAppointmentRequest.t) (s : string) (rest : bytes) :
  fits s ->
  manualUpdateAppointment_body (req, string_field x0a s ++ rest)
  = ([], Val (Continue (pb.UpdateAppointmentRequest.set_Id s req, rest))).
Proof. intros Hs. unfold manualUpdateAppointment_body. known_string Hs. Qed.

Lemma manualUpdateAppointment_body_Title (req : pb.UpdateAppointmentRequest.t) (s : string) (rest : bytes) :
  fits s ->
  manualUpdateAppointment_body (req, string_field x12 s ++ rest)
  = ([], Val (Continue (pb.UpdateAppointmentRequest.set_Title s req, rest))).
Proof. intros Hs. unfold manualUpdateAppointment_body. known_string Hs. Qed.

Lemma manualUpdateAppointment_body_Description (req : pb.UpdateAppointmentRequest.t) (s : string) (rest : bytes) :
  fits s ->
  manualUpdateAppointment_body (req, string_field x1a s ++ rest)
  = ([], Val (Continue (pb.UpdateAppointmentRequest.set_Description s req, rest))).
Proof. intros Hs. unfold manualUpdateAppointment_body. known_string Hs. Qed.

Lemma manualUpdateAppointment_body_StartTime (req : pb.UpdateAppointmentRequest.t) (ts : pb.Timestamp) (rest : bytes) :
  timestamp_ok (Some ts) ->
  manualUpdateAppointment_body (req, timestamp_field x22 (Some ts) ++ rest)
  = ([], Val (Continue (pb.UpdateAppointmentRequest.set_StartTime (Some ts) req, rest))).
Proof. intros Hs. unfold manualUpdateAppointment_body. known_timestamp Hs. Qed.

Lemma manualUpdateAppointment_body_EndTime (req : pb.UpdateAppointmentRequest.t) (ts : pb.Timestamp) (rest : bytes) :
  timestamp_ok (Some ts) ->
  manualUpdateAppointment_body (req, timestamp_field x2a (Some ts) ++ rest)
  = ([], Val (Continue (pb.UpdateAppointmentRequest.set_EndTime (Some ts) req, rest))).
Proof. intros Hs. unfold manualUpdateAppointment_body. known_timestamp Hs. Qed.

Lemma manualUpdateAppointment_body_Location (req : pb.UpdateAppointmentRequest.t) (s : string) (rest : bytes) :
  fits s ->
  manualUpdateAppointment_body (req, string_field x32 s ++ rest)
  = ([], Val (Continue (pb.UpdateAppointmentRequest.set_Location s req, rest))).
Proof. intros Hs. unfold manualUpdateAppointment_body. known_string Hs. Qed.

Lemma manualUpdateAppointment_body_AttendeeIds (req : pb.UpdateAppointmentRequest.t) (s : string) (rest : bytes) :
  fits s ->
  manualUpdateAppointment_body (req, string_field x3a s ++ rest)
  = ([], Val (Continue (pb.UpdateAppointmentRequest.set_AttendeeIds (pb.UpdateAppointmentRequest.AttendeeIds req ++ [s]) req, rest))).
Proof. intros Hs. unfold manualUpdateAppointment_body. known_string Hs. Qed.

Lemma manualDeleteAppointment_body_Id (req : pb.DeleteAppointmentRequest.t) (s : string) (rest : bytes) :
  fits s ->
  manualDeleteAppointment_body (req, string_field x0a s ++ rest)
  = ([], Val (Continue (pb.DeleteAppointmentRequest.set_Id s req, rest))).
Proof. intros Hs. unfold manualDeleteAppointment_body. known_string Hs. Qed.

Section FieldLoops.

Context {St : Type} (body : St * bytes -> M (Ctl (St * bytes) unit)).
Hypothesis Hit : forall s p, p <> [] -> iteration parse_error_events p (body (s, p)).

Lemma loop_same (req req' : St) (rest : bytes) (fuel : nat) :
  req' = req -> (List.length rest < fuel)%nat ->
  for_loop fuel more body (req, rest)
  = for_loop (S (List.length rest)) more body (req', rest).
Proof.
  intros -> Hf. apply (for_loop_fuel parse_error_events); [exact Hit | exact Hf | lia].
Qed.

Lemma loop_string_field (t : byte) (set : string -> St -> St) (s : string) (req : St)
    (rest : bytes) (fuel : nat) :
  (forall req s rest, fits s ->
     body (req, string_field t s ++ rest) = ([], Val (Continue (set s req, rest)))) ->
  fits s ->
  (List.length (string_field t s ++ rest) < fuel)%nat ->
  for_loop fuel more body (req, string_field t s ++ rest)
  = for_loop (S (List.length rest)) more body (set s req, rest).
Proof.
  intros Hstep Hs Hf.
  apply (for_loop_step parse_error_events);
    [exact Hit | discriminate | exact Hf | now apply Hstep].
Qed.

Lemma loop_opt_string (t : byte) (set : string -> St -> St) (s : string) (req : St)
    (rest : bytes) (fuel : nat) :
  (forall req s rest, fits s ->
     body (req, string_field t s ++ rest) = ([], Val (Continue (set s req, rest)))) ->
  fits s -> (s = ""%string -> set s req = req) ->
  (List.length (opt_string_field t s ++ rest) < fuel)%nat ->
  for_loop fuel more body (req, opt_string_field t s ++ rest)
  = for_loop (S (List.length rest)) more body (set s req, rest).
Proof.
  intros Hstep Hs Hz. unfold opt_string_field.
  destruct (String.eqb_spec s "") as [E|E]; intros Hf.
  - apply loop_same; [now apply Hz | exact Hf].
  - now apply loop_string_field.
Qed.

Lemma loop_timestamp (t : byte) (set : option pb.Timestamp -> St -> St)
    (o : option pb.Timestamp) (req : St) (rest : bytes) (fuel : nat) :
  (forall req ts rest, timestamp_ok (Some ts) ->
     body (req, timestamp_field t (Some ts) ++ rest)
     = ([], Val (Continue (set (Some ts) req, rest)))) ->
  timestamp_ok o -> (o = None -> set o req = req) ->
  (List.length (timestamp_field t o ++ rest) < fuel)%nat ->
  for_loop fuel more body (req, timestamp_field t o ++ rest)
  = for_loop (S (List.length rest)) more body (set o req, rest).
Proof.
  intros Hstep Ho Hz Hf. destruct o as [ts|].
  - apply (for_loop_step parse_error_events);
      [exact Hit | discriminate | exact Hf | now apply Hstep].
  - apply loop_same; [now apply Hz | exact Hf].
Qed.

Lemma loop_repeated (t : byte) (get : St -> list string) (set : list string -> St -> St)
    (ids : list string) :
  (forall req s rest, fits s ->
     body (req, string_field t s ++ rest)
     = ([], Val (Continue (set (get req ++ [s]) req, rest)))) ->
  (forall l req, get (set l req) = l) ->
  (forall l l' req, set l (set l' req) = set l req) ->
  (forall req, set (get req) req = req) ->
  Forall fits ids ->
  forall (req : St) (rest : bytes) (fuel : nat),
    (List.length (List.concat (map (string_field t) ids) ++ rest) < fuel)%nat ->
    for_loop fuel more body (req, List.concat (map (string_field t) ids) ++ rest)
    = for_loop (S (List.length rest)) more body (set (get req ++ ids) req, rest).
Proof.
  intros Hstep Hgs Hss Hsg Hids. induction Hids as [|s ids Hs Hids IH]; intros req rest fuel Hf.
  - cbn [map List.concat app] in *. apply loop_same; [|exact Hf].
    rewrite app_nil_r. apply Hsg.
  - cbn [map List.concat] in *. rewrite <- app_assoc in *.
    rewrite (loop_string_field t (fun s req => set (get req ++ [s]) req) s req _ fuel
               Hstep Hs Hf).
    rewrite IH by lia. rewrite Hgs, Hss, <- app_assoc. reflexivity.
Qed.

End FieldLoops.

Ltac field_done := first [ assumption | (intros ->; reflexivity) | (intros; reflexivity) | lia ].

Ltac decode_string it step :=
  rewrite (loop_opt_string _ it _ _ _ _ _ _ step); [ | field_done ..].

Ltac decode_timestamp it step :=
  rewrite (loop_timestamp _ it _ _ _ _ _ _ step); [ | field_done ..].

Lemma manualLogin_decodes (ctx : Context) (r : pb.LoginRequest.t) :
  request_sized (CallLogin ctx r) ->
  for_loop (S (List.length (request_bytes (CallLogin ctx r)))) more manualLogin_body
    (pb.LoginRequest.zero, request_bytes (CallLogin ctx r))
  = ([], Val (Continue (r, []))).
Proof.
  destruct r as [e p]. cbn [request_sized request_bytes pb.LoginRequest.Email
    pb.LoginRequest.Password]. intros (He & Hp).
  rewrite <- (app_nil_r (opt_string_field x12 p)).
  decode_string manualLogin_body_iteration manualLogin_body_Email.
  decode_string manualLogin_body_iteration manualLogin_body_Password.
  rewrite for_loop_nil. reflexivity.
Qed.

Lemma manualRegister_decodes (ctx : Context) (r : pb.RegisterRequest.t) :
  request_sized (CallRegister ctx r) ->
  for_loop (S (List.length (request_bytes (CallRegister ctx r)))) more manualRegister_body
    (pb.RegisterRequest.zero, request_bytes (CallRegister ctx r))
  = ([], Val (Continue (r, []))).
Proof.
  destruct r as [x0 x1 x2]. cbn [request_sized request_bytes pb.RegisterRequest.Email pb.RegisterRequest.Password pb.RegisterRequest.Name].
  intros (H0 & H1 & H2).
  rewrite <- (app_nil_r (opt_string_field x1a x2)).
  decode_string manualRegister_body_iteration manualRegister_body_Email.
  decode_string manualRegister_body_iteration manualRegister_body_Password.
  decode_string manualRegister_body_iteration manualRegister_body_Name.
  rewrite for_loop_nil. reflexivity.
Qed.

Lemma manualListAppointments_decodes (ctx : Context) (r : pb.ListAppointmentsRequest.t) :
  request_sized (CallListAppointments ctx r) ->
  for_loop (S (List.length (request_bytes (CallListAppointments ctx r)))) more manualListAppointments_body
    (pb.ListAppointmentsRequest.zero, request_bytes (CallListAppointments ctx r))
  = ([], Val (Continue (r, []))).
Proof.
  destruct r as [x0 x1]. cbn [request_sized request_bytes pb.ListAppointmentsRequest.RangeStart pb.ListAppointmentsRequest.RangeEnd].
  intros (H0 & H1).
  rewrite <- (app_nil_r (timestamp_field x12 x1)).
  decode_timestamp manualListAppointments_body_iteration manualListAppointments_body_RangeStart.
  decode_timestamp manualListAppointments_body_iteration manualListAppointments_body_RangeEnd.
  rewrite for_loop_nil. reflexivity.
Qed.

Lemma manualCreateAppointment_decodes (ctx : Context) (r : pb.CreateAppointmentRequest.t) :
  request_sized (CallCreateAppointment ctx r) ->
  for_loop (S (List.length (request_bytes (CallCreateAppointment ctx r)))) more manualCreateAppointment_body
    (pb.CreateAppointmentRequest.zero, request_bytes (CallCreateAppointment ctx r))
  = ([], Val (Continue (r, []))).
Proof.
  destruct r as [x0 x1 x2 x3 x4 x5]. cbn [request_sized request_bytes pb.CreateAppointmentRequest.Title pb.CreateAppointmentRequest.Description pb.CreateAppointmentRequest.StartTime pb.CreateAppointmentRequest.EndTime pb.CreateAppointmentRequest.Location pb.CreateAppointmentRequest.AttendeeIds].
  intros (H0 & H1 & H2 & H3 & H4 & H5).
  rewrite <- (app_nil_r (List.concat (map (string_field x32) x5))).
  rewrite <- ?app_assoc.
  decode_string manualCreateAppointment_body_iteration manualCreateAppointment_body_Title.
  decode_string manualCreateAppointment_body_iteration manualCreateAppointment_body_Description.
  decode_timestamp manualCreateAppointment_body_iteration manualCreateAppointment_body_StartTime.
  decode_timestamp manualCreateAppointment_body_iteration manualCreateAppointment_body_EndTime.
  decode_string manualCreateAppointment_body_iteration manualCreateAppointment_body_Location.
  rewrite (loop_repeated _ manualCreateAppointment_body_iteration x32 pb.CreateAppointmentRequest.AttendeeIds pb.CreateAppointmentRequest.set_AttendeeIds x5
             manualCreateAppointment_body_AttendeeIds);
    [ | try reflexivity; try assumption; try lia; try (intros []; reflexivity) ..].
  rewrite for_loop_nil. reflexivity.
Qed.

Lemma manualGetAppointment_decodes (ctx : Context) (r : pb.GetAppointmentRequest.t) :
  request_sized (CallGetAppointment ctx r) ->
  for_loop (S (List.length (request_bytes (CallGetAppointment ctx r)))) more manualGetAppointment_body
    (pb.GetAppointmentRequest.zero, request_bytes (CallGetAppointment ctx r))
  = ([], Val (Continue (r, []))).
Proof.
  destruct r as [x0]. cbn [request_sized request_bytes pb.GetAppointmentRequest.Id].
  intros H0.
  rewrite <- (app_nil_r (opt_string_field x0a x0)).
  decode_string manualGetAppointment_body_iteration manualGetAppointment_body_Id.
  rewrite for_loop_nil. reflexivity.
Qed.

Lemma manualUpdateAppointment_decodes (ctx : Context) (r : pb.UpdateAppointmentRequest.t) :
  request_sized (CallUpdateAppointment ctx r) ->
  for_loop (S (List.length (request_bytes (CallUpdateAppointment ctx r)))) more manualUpdateAppointment_body
    (pb.UpdateAppointmentRequest.zero, request_bytes (CallUpdateAppointment ctx r))
  = ([], Val (Continue (r, []))).
Proof.
  destruct r as [x0 x1 x2 x3 x4 x5 x6]. cbn [request_sized request_bytes pb.UpdateAppointmentRequest.Id pb.UpdateAppointmentRequest.Title pb.UpdateAppointmentRequest.Description pb.UpdateAppointmentRequest.StartTime pb.UpdateAppointmentRequest.EndTime pb.UpdateAppointmentRequest.Location pb.UpdateAppointmentRequest.AttendeeIds].
  intros (H0 & H1 & H2 & H3 & H4 & H5 & H6).
  rewrite <- (app_nil_r (List.concat (map (string_field x3a) x6))).
  rewrite <- ?app_assoc.
  decode_string manualUpdateAppointment_body_iteration manualUpdateAppointment_body_Id.
  decode_string manualUpdateAppointment_body_iteration manualUpdateAppointment_body_Title.
  decode_string manualUpdateAppointment_body_iteration manualUpdateAppointment_body_Description.
  decode_timestamp manualUpdateAppointment_body_iteration manualUpdateAppointment_body_StartTime.
  decode_timestamp manualUpdateAppointment_body_iteration manualUpdateAppointment_body_EndTime.
  decode_string manualUpdateAppointment_body_iteration manualUpdateAppointment_body_Location.
  rewrite (loop_repeated _ manualUpdateAppointment_body_iteration x3a pb.UpdateAppointmentRequest.AttendeeIds pb.UpdateAppointmentRequest.set_AttendeeIds x6
             manualUpdateAppointment_body_AttendeeIds);
    [ | try reflexivity; try assumption; try lia; try (intros []; reflexivity) ..].
  rewrite for_loop_nil. reflexivity.
Qed.

Lemma manualDeleteAppointment_decodes (ctx : Context) (r : pb.DeleteAppointmentRequest.t) :
  request_sized (CallDeleteAppointment ctx r) ->
  for_loop (S (List.length (request_bytes (CallDeleteAppointment ctx r)))) more manualDeleteAppointment_body
    (pb.DeleteAppointmentRequest.zero, request_bytes (CallDeleteAppointment ctx r))
  = ([], Val (Continue (r, []))).
Proof.
  destruct r as [x0]. cbn [request_sized request_bytes pb.DeleteAppointmentRequest.Id].
  intros H0.
  rewrite <- (app_nil_r (opt_string_field x0a x0)).
  decode_string manualDeleteAppointment_body_iteration manualDeleteAppointment_body_Id.
  rewrite for_loop_nil. reflexivity.
Qed.

Lemma In_contacts (e : Event) (t : list Event) :
  In e t -> is_contact e = true -> In e (contacts t).
Proof. intros H1 H2. apply filter_In. now split. Qed.

Lemma contacts_cons_Call (c : HandlerCall) (t : list Event) :
  contacts (Call c :: t) = Call c :: contacts t.
Proof. reflexivity. Qed.

(** X7.  Decoding inverts the proto3 encoding: for each of the seven methods, on
    the encoding of a request (strings that fit Go's [int], timestamps in
    the range of their types, empty strings and unset timestamps left out,
    attendees in order) the run completes and the handler is called once,
    with exactly that request and with the context of [handler_context]. *)
Theorem request_roundtrip (L : jwt.Lib auth.Claims) (b : Bridge) (hd : handler.Handler)
    (ctx : Context) (h : string) (c : HandlerCall) :
  direct b = Some hd ->
  request_sized c ->
  handler_context L b ctx h (call_method c) = Ok (call_context c) ->
  contacts (fst (manual L (call_method c) b ctx (request_bytes c) h)) = [Call c]
  /\ snd (manual L (call_method c) b ctx (request_bytes c) h) = Val tt.
Proof.
  intros Hd Hs Hc.
  destruct c as [cx r|cx r|cx r|cx r|cx r|cx r|cx r];
    cbn [call_method call_context handler_context manual] in *;
    unfold manualLogin, manualRegister, manualListAppointments,
      manualCreateAppointment, manualGetAppointment, manualUpdateAppointment,
      manualDeleteAppointment;
    try rewrite Hc; try (injection Hc as <-).
  - rewrite (manualLogin_decodes ctx r Hs), bind_val_l. cbv beta iota.
    rewrite Hd, must_Some, bind_ret_l, bind_emit_l. cbn [fst snd].
    rewrite contacts_cons_Call.
    destruct (handler.Login hd ctx r).
    + rewrite writeSuccess_frames. split; reflexivity.
    + rewrite writeError_frame. split; reflexivity.
  - rewrite (manualRegister_decodes ctx r Hs), bind_val_l. cbv beta iota.
    rewrite Hd, must_Some, bind_ret_l, bind_emit_l. cbn [fst snd].
    rewrite contacts_cons_Call.
    destruct (handler.Register hd ctx r).
    + rewrite writeSuccess_frames. split; reflexivity.
    + rewrite writeError_frame. split; reflexivity.
  - rewrite (manualListAppointments_decodes cx r Hs), bind_val_l. cbv beta iota.
    rewrite Hd, must_Some, bind_ret_l, bind_emit_l. cbn [fst snd].
    rewrite contacts_cons_Call.
    destruct (handler.ListAppointments hd cx r).
    + rewrite writeSuccess_frames. split; reflexivity.
    + rewrite writeError_frame. split; reflexivity.
  - rewrite (manualCreateAppointment_decodes cx r Hs), bind_val_l. cbv beta iota.
    rewrite Hd, must_Some, bind_ret_l, bind_emit_l. cbn [fst snd].
    rewrite contacts_cons_Call.
    destruct (handler.CreateAppointment hd cx r).
    + rewrite writeSuccess_frames. split; reflexivity.
    + rewrite writeError_frame. split; reflexivity.
  - rewrite (manualGetAppointment_decodes cx r Hs), bind_val_l. cbv beta iota.
    rewrite Hd, must_Some, bind_ret_l, bind_emit_l. cbn [fst snd].
    rewrite contacts_cons_Call.
    destruct (handler.GetAppointment hd cx r).
    + rewrite writeSuccess_frames. split; reflexivity.
    + rewrite writeError_frame. split; reflexivity.
  - rewrite (manualUpdateAppointment_decodes cx r Hs), bind_val_l. cbv beta iota.
    rewrite Hd, must_Some, bind_ret_l, bind_emit_l. cbn [fst snd].
    rewrite contacts_cons_Call.
    destruct (handler.UpdateAppointment hd cx r).
    + rewrite writeSuccess_frames. split; reflexivity.
    + rewrite writeError_frame. split; reflexivity.
  - rewrite (manualDeleteAppointment_decodes cx r Hs), bind_val_l. cbv beta iota.
    rewrite Hd, must_Some, bind_ret_l, bind_emit_l. cbn [fst snd].
    rewrite contacts_cons_Call.
    destruct (handler.DeleteAppointment hd cx r).
    + rewrite writeSuccess_frames. split; reflexivity.
    + rewrite writeError_frame. split; reflexivity.
Qed.

Lemma request_roundtrip_witness :
  contacts (fst (manual Fixture.lib MCreateAppointment Fixture.bridge (mkContext [] None)
                   (request_bytes
                      (CallCreateAppointment (mkContext [] (Some "u1"%string))
                         (pb.CreateAppointmentRequest.mk "Standup" ""
                            (Some (pb.mkTimestamp 2000 0)) (Some (pb.mkTimestamp 2060 5))
                            "Room 1" ["u2"%string; "u3"%string])))
                   "Bearer HS256.u1.s3cret"))
  = [Call (CallCreateAppointment (mkContext [] (Some "u1"%string))
             (pb.CreateAppointmentRequest.mk "Standup" ""
                (Some (pb.mkTimestamp 2000 0)) (Some (pb.mkTimestamp 2060 5))
                "Room 1" ["u2"%string; "u3"%string]))]
  /\ snd (manual Fixture.lib MCreateAppointment Fixture.bridge (mkContext [] None)
            (request_bytes
               (CallCreateAppointment (mkContext [] (Some "u1"%string))
                  (pb.CreateAppointmentRequest.mk "Standup" ""
                     (Some (pb.mkTimestamp 2000 0)) (Some (pb.mkTimestamp 2060 5))
                     "Room 1" ["u2"%string; "u3"%string])))
            "Bearer HS256.u1.s3cret")
     = Val tt.
Proof.
  apply (request_roundtrip Fixture.lib Fixture.bridge Fixture.spy (mkContext [] None)
           "Bearer HS256.u1.s3cret"
           (CallCreateAppointment (mkContext [] (Some "u1"%string))
              (pb.CreateAppointmentRequest.mk "Standup" ""
                 (Some (pb.mkTimestamp 2000 0)) (Some (pb.mkTimestamp 2060 5))
                 "Room 1" ["u2"%string; "u3"%string]))).
  - reflexivity.
  - cbn. unfold fits. repeat split; try reflexivity; try lia.
    repeat constructor.
  - reflexivity.
Defined.

Lemma no_call_in_response (P : Z -> Prop) (c : HandlerCall) (t : list Event) :
  contacts t = [] -> ~ In (Call c) t.
Proof.
  intros E H. apply In_contacts in H; [|reflexivity]. rewrite E in H. exact H.
Qed.

Lemma call_after_loop {St : Type} (fuel : nat) (payload : bytes)
    (body : St * bytes -> M (Ctl (St * bytes) unit)) (s0 : St)
    (mk : St -> HandlerCall) (k : handler.Handler -> St -> M unit) (b : Bridge)
    (c : HandlerCall) :
  (forall s p, p <> [] -> iteration parse_error_events p (body (s, p))) ->
  (List.length payload < fuel)%nat ->
  (forall hd s, contacts (fst (k hd s)) = []) ->
  In (Call c)
    (fst (c0 <- for_loop fuel more body (s0, payload) ;;
          match c0 with
          | Return _ => ret tt
          | Continue (req, _) =>
              hd <- must (direct b) ;;
              emit (Call (mk req)) ;;
              k hd req
          end)) ->
  exists req, c = mk req.
Proof.
  intros Hit Hf Hk H.
  destruct (loop_cases fuel payload body s0
              (fun req => hd <- must (direct b) ;; emit (Call (mk req)) ;; k hd req)
              Hit Hf) as [E | [E | [s E]]]; cbv zeta in E;
    rewrite E in H; clear E.
  - destruct H.
  - cbn in H. repeat (destruct H as [H|H]; [discriminate|]). destruct H.
  - destruct (direct b) as [hd|]; [|destruct H].
    rewrite must_Some, bind_ret_l, bind_emit_l in H. cbn [fst] in H.
    destruct H as [H|H].
    + exists s. congruence.
    + exfalso. revert H. apply (no_call_in_response (fun _ => True)). apply Hk.
Qed.

Lemma contacts_answer {A : Type} (r : result Status A) (enc : A -> bytes) :
  contacts (fst (match r with
                 | Err st => writeError (Code st) (Message st)
                 | Ok resp => writeSuccess (enc resp)
                 end)) = [].
Proof.
  destruct r; [apply contacts_writeSuccess | apply contacts_writeError].
Qed.

Lemma manual_call (L : jwt.Lib auth.Claims) (m : DirectMethod) (b : Bridge)
    (ctx : Context) (p : bytes) (h : string) (c : HandlerCall) :
  In (Call c) (fst (manual L m b ctx p h)) ->
  call_method c = m /\ handler_context L b ctx h m = Ok (call_context c).
Proof.
  intros H.
  assert (Hlt : (List.length p < S (List.length p))%nat) by lia.
  destruct m; cbn [manual handler_context] in *;
    unfold manualLogin, manualRegister, manualListAppointments,
      manualCreateAppointment, manualGetAppointment, manualUpdateAppointment,
      manualDeleteAppointment in H;
    try (destruct (manualAuth L b ctx h) as [ctx'|st];
         [| exfalso; revert H; apply (no_call_in_response (fun _ => True));
            apply contacts_writeError ]).
  - eapply (call_after_loop _ _ _ _ (CallLogin ctx)) in H;
      [ destruct H as [req ->]; split; reflexivity
      | exact manualLogin_body_iteration | exact Hlt
      | intros hd s; apply contacts_answer ].
  - eapply (call_after_loop _ _ _ _ (CallRegister ctx)) in H;
      [ destruct H as [req ->]; split; reflexivity
      | exact manualRegister_body_iteration | exact Hlt
      | intros hd s; apply contacts_answer ].
  - eapply (call_after_loop _ _ _ _ (CallListAppointments ctx')) in H;
      [ destruct H as [req ->]; split; reflexivity
      | exact manualListAppointments_body_iteration | exact Hlt
      | intros hd s; apply contacts_answer ].
  - eapply (call_after_loop _ _ _ _ (CallCreateAppointment ctx')) in H;
      [ destruct H as [req ->]; split; reflexivity
      | exact manualCreateAppointment_body_iteration | exact Hlt
      | intros hd s; apply contacts_answer ].
  - eapply (call_after_loop _ _ _ _ (CallGetAppointment ctx')) in H;
      [ destruct H as [req ->]; split; reflexivity
      | exact manualGetAppointment_body_iteration | exact Hlt
      | intros hd s; apply contacts_answer ].
  - eapply (call_after_loop _ _ _ _ (CallUpdateAppointment ctx')) in H;
      [ destruct H as [req ->]; split; reflexivity
      | exact manualUpdateAppointment_body_iteration | exact Hlt
      | intros hd s; apply contacts_answer ].
  - eapply (call_after_loop _ _ _ _ (CallDeleteAppointment ctx')) in H;
      [ destruct H as [req ->]; split; reflexivity
      | exact manualDeleteAppointment_body_iteration | exact Hlt
      | intros hd s; apply contacts_answer ].
Qed.

Lemma manualAuth_Ok (L : jwt.Lib auth.Claims) (b : Bridge) (ctx ctx' : Context)
    (h : string) :
  manualAuth L b ctx h = Ok ctx' ->
  h <> ""%string
  /\ exists claims,
       auth.ParseToken L (strings.TrimPrefix h "Bearer ") (secret b) = Ok claims
       /\ ctx' = mkContext (authorization_md ctx) (Some (auth.UserID claims)).
Proof.
  unfold manualAuth. destruct (String.eqb_spec h "") as [->|Hne]; [discriminate|].
  destruct (auth.ParseToken L (strings.TrimPrefix h "Bearer ") (secret b)) as [c|e];
    [|discriminate].
  intros [= <-]. split; [exact Hne|]. exists c. split; reflexivity.
Qed.

Lemma forward_call (L : jwt.Lib auth.Claims) (b : Bridge)
    (r : Request) (c : HandlerCall) :
  In (Call c) (fst (forward L b r)) ->
  direct_method (URLPath r) = Some (call_method c)
  /\ (call_method c = MLogin \/ call_method c = MRegister ->
      call_context c = mkContext (Header r "Authorization") None)
  /\ (call_method c <> MLogin -> call_method c <> MRegister ->
      exists claims,
        auth.ParseToken L
          (strings.TrimPrefix (Header_Get (Header r) "Authorization") "Bearer ")
          (secret b) = Ok claims
        /\ call_context c
           = mkContext (Header r "Authorization") (Some (auth.UserID claims))).
Proof.
  unfold forward. intros H.
  destruct (Body r) as [body|];
    [| exfalso; revert H; apply (no_call_in_response (fun _ => True));
       apply contacts_writeError ].
  destruct (frame_payload_total body) as [[E _] | [[payload E] | [msg E]]];
    rewrite E in H; clear E.
  - destruct H.
  - rewrite bind_val_l in H. cbv zeta in H.
    destruct (direct b) as [hd|] eqn:Hd; [destruct (direct_method (URLPath r)) as [m|]|].
    + apply manual_call in H. destruct H as [<- Hc]. split; [reflexivity|].
      split.
      * intros [Hm | Hm]; rewrite Hm in Hc; cbn [handler_context] in Hc;
          unfold Header_Values in Hc; congruence.
      * intros H1 H2.
        assert (Ha : manualAuth L b (mkContext (Header_Values (Header r) "Authorization") None)
                       (Header_Get (Header r) "Authorization") = Ok (call_context c)).
        { destruct (call_method c); try contradiction; exact Hc. }
        apply manualAuth_Ok in Ha. destruct Ha as [_ [claims [Hp Hx]]].
        exists claims. split; [exact Hp | exact Hx].
    + exfalso. rewrite invoke_raw_events in H.
      destruct (conn b _ _ _); cbn in H;
        repeat (destruct H as [H|H]; [discriminate|]); destruct H.
    + exfalso. rewrite invoke_raw_events in H.
      destruct (conn b _ _ _); cbn in H;
        repeat (destruct H as [H|H]; [discriminate|]); destruct H.
  - exfalso. rewrite bind_val_l in H. revert H.
    apply (no_call_in_response (fun _ => True)). apply contacts_writeError.
Qed.

(** ** The interceptors of the gRPC server *)

(** X8.  The interceptor of the gRPC server and [manualAuth] of the bridge make
    the same decision on the first authorization value: where [manualAuth]
    accepts, the interceptor calls the rest of the chain with the same
    context; where it refuses, the interceptor answers Unauthenticated
    without calling it, with the same message unless the value is the bare
    prefix, which the interceptor reports as a missing token. *)
Theorem interceptor_agrees_with_bridge {Req Resp : Type} (L : jwt.Lib auth.Claims)
    (b : Bridge) (md : middleware.MD) (ctx : Context) (req : Req) (fullMethod : string)
    (next : Context -> Req -> option (result Status Resp)) :
  middleware.open fullMethod = false ->
  match manualAuth L b ctx (Header_Get md "authorization") with
  | Ok ctx' =>
      middleware.Auth L (secret b) (Some md) ctx req fullMethod next = next ctx' req
  | Err st =>
      Code st = codes.Unauthenticated
      /\ middleware.Auth L (secret b) (Some md) ctx req fullMethod next
         = Some (Err (mkStatus codes.Unauthenticated
                        (if String.eqb
                              (strings.TrimPrefix (Header_Get md "authorization") "Bearer ")
                              ""
                         then "no token"%string else Message st)))
  end.
Proof.
  intros Ho. unfold middleware.Auth, manualAuth, Header_Get. rewrite Ho.
  destruct (md "authorization"%string) as [|v vals].
  - cbn. split; reflexivity.
  - destruct (String.eqb_spec v "") as [->|Hv].
    + cbn. split; reflexivity.
    + destruct (String.eqb_spec (strings.TrimPrefix v "Bearer ") "") as [Ht|Ht].
      * rewrite Ht, ParseToken_empty. split; reflexivity.
      * destruct (auth.ParseToken L (strings.TrimPrefix v "Bearer ") (secret b));
          [reflexivity | split; reflexivity].
Qed.

Lemma interceptor_agrees_with_bridge_witness :
  middleware.Auth Fixture.lib (secret Sample.bridge) (Some Sample.md) (mkContext [] None)
    (pb.GetAppointmentRequest.mk "a1") (Fixture.svc ++ "/GetAppointment")
    (impl.GetAppointment Sample.env Sample.h)
  = impl.GetAppointment Sample.env Sample.h (mkContext [] (Some "u1"%string))
      (pb.GetAppointmentRequest.mk "a1").
Proof.
  exact (interceptor_agrees_with_bridge Fixture.lib Sample.bridge Sample.md
           (mkContext [] None) (pb.GetAppointmentRequest.mk "a1")
           (Fixture.svc ++ "/GetAppointment")
           (impl.GetAppointment Sample.env Sample.h) eq_refl).
Defined.

(** ** The methods of the handler *)

Section HandlerProperties.

Context {Time E : Type}.
Variable env : impl.Env Time E.
Variable h : impl.Handler Time E.


(** X10.  A [Login] that succeeds had a non-empty e-mail address and password,
    found the user by that address, matched the password against the
    stored hash, and answers with that user's id and name and a token made
    for that id with the handler's secret. *)
Theorem Login_sound (ctx : Context) (req : pb.LoginRequest.t)
    (resp : pb.LoginResponse.t) :
  impl.Login env h ctx req = Ok resp ->
  pb.LoginRequest.Email req <> ""%string
  /\ pb.LoginRequest.Password req <> ""%string
  /\ exists u,
       pgstore.UserByEmail (impl.store h) (pb.LoginRequest.Email req) = Ok u
       /\ impl.CheckPassword env (model.User.PasswordHash u)
            (pb.LoginRequest.Password req) = true
       /\ impl.MakeToken env (model.User.ID u) (impl.secret h)
          = Ok (pb.LoginResponse.Token resp)
       /\ pb.LoginResponse.UserId resp = model.User.ID u
       /\ pb.LoginResponse.Name resp = model.User.Name u.
Proof.
  unfold impl.Login.
  destruct (String.eqb_spec (pb.LoginRequest.Email req) "") as [|He]; [discriminate|].
  destruct (String.eqb_spec (pb.LoginRequest.Password req) "") as [|Hp]; [discriminate|].
  cbn [orb].
  destruct (pgstore.UserByEmail (impl.store h) (pb.LoginRequest.Email req)) as [u|e];
    [|discriminate].
  destruct (impl.CheckPassword env (model.User.PasswordHash u)
              (pb.LoginRequest.Password req)) eqn:Hc; cbn [negb]; [|discriminate].
  destruct (impl.MakeToken env (model.User.ID u) (impl.secret h)) as [tok|] eqn:Ht;
    [|discriminate].
  intros [= <-]. repeat split; try assumption. exists u. repeat split; assumption.
Qed.

(** X11.  A [Register] that succeeds had a non-empty e-mail address and name and
    a password of at least eight bytes; the user it stored carries the new
    id and the hash of the password, and the token it answers with was
    made for that id. *)
Theorem Register_sound (ctx : Context) (req : pb.RegisterRequest.t)
    (resp : pb.RegisterResponse.t) :
  impl.Register env h ctx req = Ok resp ->
  pb.RegisterRequest.Email req <> ""%string
  /\ pb.RegisterRequest.Name req <> ""%string
  /\ 8 <= len (bytes_of (pb.RegisterRequest.Password req))
  /\ exists hash,
       impl.HashPassword env (pb.RegisterRequest.Password req) = Ok hash
       /\ pgstore.CreateUser (impl.store h)
            (model.User.mk (impl.NewString env) (pb.RegisterRequest.Email req) hash
               (pb.RegisterRequest.Name req) (impl.ZeroTime env) (impl.ZeroTime env))
          = None
       /\ impl.MakeToken env (impl.NewString env) (impl.secret h)
          = Ok (pb.RegisterResponse.Token resp)
       /\ pb.RegisterResponse.UserId resp = impl.NewString env.
Proof.
  unfold impl.Register.
  destruct (String.eqb_spec (pb.RegisterRequest.Email req) "") as [|He]; [discriminate|].
  destruct (String.eqb_spec (pb.RegisterRequest.Password req) "") as [|Hp]; [discriminate|].
  destruct (String.eqb_spec (pb.RegisterRequest.Name req) "") as [|Hn]; [discriminate|].
  cbn [orb].
  destruct (Z.ltb_spec (len (bytes_of (pb.RegisterRequest.Password req))) 8) as [|Hl];
    [discriminate|].
  destruct (impl.HashPassword env (pb.RegisterRequest.Password req)) as [hash|] eqn:Hh;
    [|discriminate].
  cbv zeta. cbn [model.User.ID].
  destruct (pgstore.CreateUser _ _) eqn:Hc; [discriminate|].
  destruct (impl.MakeToken env (impl.NewString env) (impl.secret h)) as [tok|] eqn:Ht;
    [|discriminate].
  intros [= <-]. repeat split; try assumption. exists hash. repeat split; assumption.
Qed.

(** X12.  [Register] refuses an empty e-mail address or name and a password
    shorter than eight bytes with InvalidArgument, whatever the store, the
    environment and the context are: the answer is the same for any two. *)
Theorem Register_validation_first (h' : impl.Handler Time E) (env' : impl.Env Time E)
    (ctx ctx' : Context) (req : pb.RegisterRequest.t) :
  pb.RegisterRequest.Email req = ""%string
  \/ pb.RegisterRequest.Name req = ""%string
  \/ len (bytes_of (pb.RegisterRequest.Password req)) < 8 ->
  impl.Register env h ctx req = impl.Register env' h' ctx' req
  /\ exists msg, impl.Register env h ctx req = Err (mkStatus codes.InvalidArgument msg).
Proof.
  intros H. unfold impl.Register.
  destruct (String.eqb_spec (pb.RegisterRequest.Email req) "") as [|He];
    [split; [reflexivity | eexists; reflexivity]|].
  destruct (String.eqb_spec (pb.RegisterRequest.Password req) "") as [|Hp];
    [split; [reflexivity | eexists; reflexivity]|].
  destruct (String.eqb_spec (pb.RegisterRequest.Name req) "") as [|Hn];
    [split; [reflexivity | eexists; reflexivity]|].
  cbn [orb].
  destruct (Z.ltb_spec (len (bytes_of (pb.RegisterRequest.Password req))) 8) as [|Hl];
    [split; [reflexivity | eexists; reflexivity]|].
  destruct H as [H | [H | H]]; [contradiction | contradiction | lia].
Qed.

Lemma GetAppointment_Ok (ctx : Context) (req : pb.GetAppointmentRequest.t)
    (resp : pb.GetAppointmentResponse.t) :
  impl.GetAppointment env h ctx req = Some (Ok resp) ->
  exists apt,
    pgstore.GetAppointment (impl.store h) (pb.GetAppointmentRequest.Id req) = Ok apt
    /\ UserIDValue ctx = Some (model.Appointment.UserID apt)
    /\ pb.GetAppointmentResponse.Appointment resp = Some (impl.toProto env apt).
Proof.
  unfold impl.GetAppointment, impl.uid.
  destruct (String.eqb (pb.GetAppointmentRequest.Id req) ""); [discriminate|].
  destruct (pgstore.GetAppointment _ _) as [apt|]; [|discriminate].
  destruct (UserIDValue ctx) as [u|]; [|discriminate].
  destruct (String.eqb_spec (model.Appointment.UserID apt) u) as [<-|];
    cbn [negb]; [|discriminate].
  intros [= <-]. exists apt. repeat split.
Qed.

(** X13.  For a caller with a user id, [GetAppointment] answers a non-empty id
    with the one status NotFound ["not found"] both when the store has no
    such appointment and when the appointment belongs to another user. *)
Theorem GetAppointment_hides_existence (ctx : Context) (req : pb.GetAppointmentRequest.t)
    (u : string) :
  UserIDValue ctx = Some u ->
  pb.GetAppointmentRequest.Id req <> ""%string ->
  (forall apt,
      pgstore.GetAppointment (impl.store h) (pb.GetAppointmentRequest.Id req) = Ok apt ->
      model.Appointment.UserID apt <> u) ->
  impl.GetAppointment env h ctx req = Some (Err (mkStatus codes.NotFound "not found")).
Proof.
  intros Hu Hid Hown. unfold impl.GetAppointment, impl.uid. rewrite Hu.
  destruct (String.eqb_spec (pb.GetAppointmentRequest.Id req) ""); [contradiction|].
  destruct (pgstore.GetAppointment _ _) as [apt|]; [|reflexivity].
  destruct (String.eqb_spec (model.Appointment.UserID apt) u) as [Heq|]; [|reflexivity].
  exfalso. now apply (Hown apt).
Qed.

(** X14.  A [CreateAppointment] that succeeds had a title and both times, an end
    after its start, a start not more than five minutes before the clock,
    and no overlap reported for the caller; the appointment it stored and
    answers with belongs to the caller, is confirmed and runs from that
    start to that end. *)
Theorem CreateAppointment_sound (ctx : Context) (req : pb.CreateAppointmentRequest.t)
    (resp : pb.CreateAppointmentResponse.t) :
  impl.CreateAppointment env h ctx req = Some (Ok resp) ->
  pb.CreateAppointmentRequest.Title req <> ""%string
  /\ exists u st en apt,
       UserIDValue ctx = Some u
       /\ pb.CreateAppointmentRequest.StartTime req = Some st
       /\ pb.CreateAppointmentRequest.EndTime req = Some en
       /\ impl.After env (impl.AsTime env en) (impl.AsTime env st) = true
       /\ impl.Before env (impl.AsTime env st)
            (impl.Add env (impl.Now env 0) (- 5 * impl.Minute)) = false
       /\ pgstore.HasOverlap (impl.store h) u (impl.AsTime env st) (impl.AsTime env en) ""
          = Ok false
       /\ pgstore.CreateAppointment (impl.store h) apt = None
       /\ model.Appointment.UserID apt = u
       /\ model.Appointment.Status apt = "confirmed"%string
       /\ model.Appointment.StartTime apt = impl.AsTime env st
       /\ model.Appointment.EndTime apt = impl.AsTime env en
       /\ pb.CreateAppointmentResponse.Appointment resp = Some (impl.toProto env apt).
Proof.
  unfold impl.CreateAppointment, impl.uid.
  destruct (UserIDValue ctx) as [u|]; [|discriminate].
  destruct (String.eqb_spec (pb.CreateAppointmentRequest.Title req) "") as [|Ht];
    [discriminate|].
  destruct (pb.CreateAppointmentRequest.StartTime req) as [st|]; [|discriminate].
  destruct (pb.CreateAppointmentRequest.EndTime req) as [en|]; [|discriminate].
  cbv zeta.
  destruct (impl.After env (impl.AsTime env en) (impl.AsTime env st)) eqn:Ha;
    cbn [negb]; [|discriminate].
  destruct (impl.Before env _ _) eqn:Hb; [discriminate|].
  destruct (pgstore.HasOverlap _ _ _ _ _) as [[|]|] eqn:Ho; try discriminate.
  destruct (pgstore.CreateAppointment _ _) eqn:Hc; [discriminate|].
  intros [= <-]. split; [exact Ht|].
  eexists u, st, en, _. repeat split; try eassumption; reflexivity.
Qed.

(** X15.  An [UpdateAppointment] that succeeds had an id, a title and both times,
    an end after its start, and no overlap reported for the caller apart
    from the appointment itself; the appointment it stored and answers with
    has that id and belongs to the caller. *)
Theorem UpdateAppointment_sound (ctx : Context) (req : pb.UpdateAppointmentRequest.t)
    (resp : pb.UpdateAppointmentResponse.t) :
  impl.UpdateAppointment env h ctx req = Some (Ok resp) ->
  pb.UpdateAppointmentRequest.Id req <> ""%string
  /\ pb.UpdateAppointmentRequest.Title req <> ""%string
  /\ exists u st en apt,
       UserIDValue ctx = Some u
       /\ pb.UpdateAppointmentRequest.StartTime req = Some st
       /\ pb.UpdateAppointmentRequest.EndTime req = Some en
       /\ impl.After env (impl.AsTime env en) (impl.AsTime env st) = true
       /\ pgstore.HasOverlap (impl.store h) u (impl.AsTime env st) (impl.AsTime env en)
            (pb.UpdateAppointmentRequest.Id req) = Ok false
       /\ pgstore.UpdateAppointment (impl.store h) apt = None
       /\ model.Appointment.ID apt = pb.UpdateAppointmentRequest.Id req
       /\ model.Appointment.UserID apt = u
       /\ pb.UpdateAppointmentResponse.Appointment resp = Some (impl.toProto env apt).
Proof.
  unfold impl.UpdateAppointment, impl.uid.
  destruct (UserIDValue ctx) as [u|]; [|discriminate].
  destruct (String.eqb_spec (pb.UpdateAppointmentRequest.Id req) "") as [|Hi];
    [discriminate|].
  destruct (String.eqb_spec (pb.UpdateAppointmentRequest.Title req) "") as [|Ht];
    [discriminate|].
  cbn [orb].
  destruct (pb.UpdateAppointmentRequest.StartTime req) as [st|]; [|discriminate].
  destruct (pb.UpdateAppointmentRequest.EndTime req) as [en|]; [|discriminate].
  cbv zeta.
  destruct (impl.After env (impl.AsTime env en) (impl.AsTime env st)) eqn:Ha;
    cbn [negb]; [|discriminate].
  destruct (pgstore.HasOverlap _ _ _ _ _) as [[|]|] eqn:Ho; try discriminate.
  destruct (pgstore.UpdateAppointment _ _) eqn:Hc; [discriminate|].
  intros [= <-]. split; [exact Hi|]. split; [exact Ht|].
  eexists u, st, en, _. repeat split; try eassumption; reflexivity.
Qed.

Ltac code_in := cbn [Code handler_codes In]; tauto.

(** X16.  Whenever one of the seven methods of the handler fails, the code of its
    status is InvalidArgument, NotFound, AlreadyExists, Internal or
    Unauthenticated; in particular it is never OK. *)
Theorem handlers_fail_with_known_codes (ctx : Context) (st : Status) :
  (forall req, impl.Register env h ctx req = Err st -> In (Code st) handler_codes)
  /\ (forall req, impl.Login env h ctx req = Err st -> In (Code st) handler_codes)
  /\ (forall req, failure (impl.ListAppointments env h ctx req) = Some st ->
                  In (Code st) handler_codes)
  /\ (forall req, failure (impl.CreateAppointment env h ctx req) = Some st ->
                  In (Code st) handler_codes)
  /\ (forall req, failure (impl.GetAppointment env h ctx req) = Some st ->
                  In (Code st) handler_codes)
  /\ (forall req, failure (impl.UpdateAppointment env h ctx req) = Some st ->
                  In (Code st) handler_codes)
  /\ (forall req, failure (impl.DeleteAppointment h ctx req) = Some st ->
                  In (Code st) handler_codes).
Proof.
  repeat split; intros req H;
    unfold impl.Register, impl.Login, impl.ListAppointments, impl.CreateAppointment,
      impl.GetAppointment, impl.UpdateAppointment, impl.DeleteAppointment, impl.uid,
      failure in H;
    cbv zeta in H;
    repeat match type of H with
           | context [match ?x with _ => _ end] =>
               lazymatch x with
               | context [match _ with _ => _ end] => fail
               | _ => destruct x eqn:?
               end
           end;
    try discriminate;
    first [ injection H as <- | injection H as H; injection H as <- ];
    code_in.
Qed.

End HandlerProperties.


Lemma Login_sound_witness :
  "ann@example.com"%string <> ""%string
  /\ "password1"%string <> ""%string
  /\ exists u,
       pgstore.UserByEmail (impl.store Sample.h) "ann@example.com" = Ok u
       /\ impl.CheckPassword Sample.env (model.User.PasswordHash u) "password1" = true
       /\ impl.MakeToken Sample.env (model.User.ID u) (impl.secret Sample.h)
          = Ok "HS256.u1.s3cret"%string
       /\ "u1"%string = model.User.ID u
       /\ "Ann"%string = model.User.Name u.
Proof.
  apply (Login_sound Sample.env Sample.h (mkContext [] None)
           (pb.LoginRequest.mk "ann@example.com" "password1")
           (pb.LoginResponse.mk "HS256.u1.s3cret" "u1" "Ann")).
  reflexivity.
Defined.

Lemma Register_sound_witness :
  "bob@example.com"%string <> ""%string
  /\ "Bob"%string <> ""%string
  /\ 8 <= len (bytes_of "password2")
  /\ exists hash,
       impl.HashPassword Sample.env "password2" = Ok hash
       /\ pgstore.CreateUser (impl.store Sample.h)
            (model.User.mk (impl.NewString Sample.env) "bob@example.com" hash "Bob"
               (impl.ZeroTime Sample.env) (impl.ZeroTime Sample.env))
          = None
       /\ impl.MakeToken Sample.env (impl.NewString Sample.env) (impl.secret Sample.h)
          = Ok "HS256.id-1.s3cret"%string
       /\ "id-1"%string = impl.NewString Sample.env.
Proof.
  apply (Register_sound Sample.env Sample.h (mkContext [] None)
           (pb.RegisterRequest.mk "bob@example.com" "password2" "Bob")
           (pb.RegisterResponse.mk "id-1" "HS256.id-1.s3cret")).
  reflexivity.
Defined.

Lemma Register_validation_first_witness :
  impl.Register Sample.env Sample.h (mkContext [] None)
    (pb.RegisterRequest.mk "bob@example.com" "short" "Bob")
  = impl.Register Sample.env (impl.mkHandler Z unit Sample.db "other") Sample.as_u1
      (pb.RegisterRequest.mk "bob@example.com" "short" "Bob")
  /\ exists msg,
       impl.Register Sample.env Sample.h (mkContext [] None)
         (pb.RegisterRequest.mk "bob@example.com" "short" "Bob")
       = Err (mkStatus codes.InvalidArgument msg).
Proof.
  apply (Register_validation_first Sample.env Sample.h
           (impl.mkHandler Z unit Sample.db "other") Sample.env
           (mkContext [] None) Sample.as_u1
           (pb.RegisterRequest.mk "bob@example.com" "short" "Bob")).
  right. right. reflexivity.
Defined.

Lemma GetAppointment_hides_existence_witness :
  impl.GetAppointment Sample.env Sample.h Sample.as_u1 (pb.GetAppointmentRequest.mk "a2")
  = Some (Err (mkStatus codes.NotFound "not found")).
Proof.
  apply (GetAppointment_hides_existence Sample.env Sample.h Sample.as_u1
           (pb.GetAppointmentRequest.mk "a2") "u1").
  - reflexivity.
  - discriminate.
  - intros apt E. injection E as <-. discriminate.
Defined.

Lemma CreateAppointment_sound_witness :
  "Standup"%string <> ""%string
  /\ exists u st en apt,
       UserIDValue Sample.as_u1 = Some u
       /\ Some (pb.mkTimestamp 2000 0) = Some st
       /\ Some (pb.mkTimestamp 2060 0) = Some en
       /\ impl.After Sample.env (impl.AsTime Sample.env en) (impl.AsTime Sample.env st)
          = true
       /\ impl.Before Sample.env (impl.AsTime Sample.env st)
            (impl.Add Sample.env (impl.Now Sample.env 0) (- 5 * impl.Minute)) = false
       /\ pgstore.HasOverlap (impl.store Sample.h) u (impl.AsTime Sample.env st)
            (impl.AsTime Sample.env en) "" = Ok false
       /\ pgstore.CreateAppointment (impl.store Sample.h) apt = None
       /\ model.Appointment.UserID apt = u
       /\ model.Appointment.Status apt = "confirmed"%string
       /\ model.Appointment.StartTime apt = impl.AsTime Sample.env st
       /\ model.Appointment.EndTime apt = impl.AsTime Sample.env en
       /\ Some (impl.toProto Sample.env
                  (model.Appointment.mk "id-1" "Standup" "" (2000 * 10 ^ 9)
                     (2060 * 10 ^ 9) "u1" "confirmed" "" [] 0 0))
          = Some (impl.toProto Sample.env apt).
Proof.
  apply (CreateAppointment_sound Sample.env Sample.h Sample.as_u1
           (pb.CreateAppointmentRequest.mk "Standup" "" (Some (pb.mkTimestamp 2000 0))
              (Some (pb.mkTimestamp 2060 0)) "" [])
           (pb.CreateAppointmentResponse.mk
              (Some (impl.toProto Sample.env
                       (model.Appointment.mk "id-1" "Standup" "" (2000 * 10 ^ 9)
                          (2060 * 10 ^ 9) "u1" "confirmed" "" [] 0 0))))).
  reflexivity.
Defined.

Lemma UpdateAppointment_sound_witness :
  "a1"%string <> ""%string
  /\ "Standup"%string <> ""%string
  /\ exists u st en apt,
       UserIDValue Sample.as_u1 = Some u
       /\ Some (pb.mkTimestamp 2000 0) = Some st
       /\ Some (pb.mkTimestamp 2060 0) = Some en
       /\ impl.After Sample.env (impl.AsTime Sample.env en) (impl.AsTime Sample.env st)
          = true
       /\ pgstore.HasOverlap (impl.store Sample.h) u (impl.AsTime Sample.env st)
            (impl.AsTime Sample.env en) "a1" = Ok false
       /\ pgstore.UpdateAppointment (impl.store Sample.h) apt = None
       /\ model.Appointment.ID apt = "a1"%string
       /\ model.Appointment.UserID apt = u
       /\ Some (impl.toProto Sample.env
                  (model.Appointment.mk "a1" "Standup" "" (2000 * 10 ^ 9)
                     (2060 * 10 ^ 9) "u1" "" "" [] 0 0))
          = Some (impl.toProto Sample.env apt).
Proof.
  apply (UpdateAppointment_sound Sample.env Sample.h Sample.as_u1
           (pb.UpdateAppointmentRequest.mk "a1" "Standup" ""
              (Some (pb.mkTimestamp 2000 0)) (Some (pb.mkTimestamp 2060 0)) "" [])
           (pb.UpdateAppointmentResponse.mk
              (Some (impl.toProto Sample.env
                       (model.Appointment.mk "a1" "Standup" "" (2000 * 10 ^ 9)
                          (2060 * 10 ^ 9) "u1" "" "" [] 0 0))))).
  reflexivity.
Defined.

(** ** The handler behind the interceptor and behind the bridge *)

Section BehindInterceptor.

Context {Time E : Type}.
Variable L : jwt.Lib auth.Claims.
Variable env : impl.Env Time E.
Variable h : impl.Handler Time E.

Lemma Auth_cases {Req Resp : Type} (secret : string) (incoming : option middleware.MD)
    (ctx : Context) (req : Req) (fullMethod : string)
    (next : Context -> Req -> option (result Status Resp)) :
  middleware.open fullMethod = false ->
  (exists msg,
      middleware.Auth L secret incoming ctx req fullMethod next
      = Some (Err (mkStatus codes.Unauthenticated msg)))
  \/ (exists md claims,
         incoming = Some md
         /\ auth.ParseToken L
              (strings.TrimPrefix (Header_Get md "authorization") "Bearer ") secret
            = Ok claims
         /\ middleware.Auth L secret incoming ctx req fullMethod next
            = next (mkContext (authorization_md ctx) (Some (auth.UserID claims))) req).
Proof.
  intros Ho. unfold middleware.Auth, Header_Get. rewrite Ho.
  destruct incoming as [md|]; [|left; eexists; reflexivity].
  cbv zeta.
  destruct (md "authorization"%string) as [|v vals] eqn:Hv; [left; eexists; reflexivity|].
  destruct (String.eqb (strings.TrimPrefix v "Bearer ") ""); [left; eexists; reflexivity|].
  destruct (auth.ParseToken L (strings.TrimPrefix v "Bearer ") secret) as [c|e] eqn:Hp;
    [|left; eexists; reflexivity].
  right. exists md, c. rewrite Hv. repeat split. exact Hp.
Qed.

(** X17.  Behind the interceptor, for a method that is not exempt, none of the
    five methods that read the user id panics: the interceptor either
    answers itself or calls them with a context that has one. *)
Theorem no_panic_behind_interceptor (secret : string) (incoming : option middleware.MD)
    (ctx : Context) (fullMethod : string) :
  middleware.open fullMethod = false ->
  (forall req, middleware.Auth L secret incoming ctx req fullMethod
                 (impl.ListAppointments env h) <> None)
  /\ (forall req, middleware.Auth L secret incoming ctx req fullMethod
                    (impl.CreateAppointment env h) <> None)
  /\ (forall req, middleware.Auth L secret incoming ctx req fullMethod
                    (impl.GetAppointment env h) <> None)
  /\ (forall req, middleware.Auth L secret incoming ctx req fullMethod
                    (impl.UpdateAppointment env h) <> None)
  /\ (forall req, middleware.Auth L secret incoming ctx req fullMethod
                    (impl.DeleteAppointment h) <> None).
Proof.
  intros Ho. repeat split; intros req;
    (destruct (Auth_cases secret incoming ctx req fullMethod
                 ltac:(first [ exact (impl.ListAppointments env h)
                             | exact (impl.CreateAppointment env h)
                             | exact (impl.GetAppointment env h)
                             | exact (impl.UpdateAppointment env h)
                             | exact (impl.DeleteAppointment h) ]) Ho)
       as [[msg ->] | (md & claims & _ & _ & ->)]; [discriminate|]);
    unfold impl.ListAppointments, impl.CreateAppointment, impl.GetAppointment,
      impl.UpdateAppointment, impl.DeleteAppointment, impl.uid;
    cbn [UserIDValue];
    repeat match goal with
           | |- context [match ?x with _ => _ end] =>
               lazymatch x with
               | context [match _ with _ => _ end] => fail
               | _ => destruct x
               end
           end;
    discriminate.
Qed.

(** X18.  Over gRPC, a [GetAppointment] that succeeds for a method that is not
    exempt returns an appointment of the store whose owner is the user of
    the token in the first authorization value. *)
Theorem GetAppointment_behind_interceptor (secret : string) (md : middleware.MD)
    (ctx : Context) (fullMethod : string) (req : pb.GetAppointmentRequest.t)
    (resp : pb.GetAppointmentResponse.t) :
  middleware.open fullMethod = false ->
  middleware.Auth L secret (Some md) ctx req fullMethod (impl.GetAppointment env h)
  = Some (Ok resp) ->
  exists claims apt,
    auth.ParseToken L
      (strings.TrimPrefix (Header_Get md "authorization") "Bearer ") secret = Ok claims
    /\ pgstore.GetAppointment (impl.store h) (pb.GetAppointmentRequest.Id req) = Ok apt
    /\ model.Appointment.UserID apt = auth.UserID claims
    /\ pb.GetAppointmentResponse.Appointment resp = Some (impl.toProto env apt).
Proof.
  intros Ho H.
  destruct (Auth_cases secret (Some md) ctx req fullMethod (impl.GetAppointment env h) Ho)
    as [[msg E1] | (md' & claims & Hmd & Hp & E1)]; rewrite E1 in H; [discriminate|].
  injection Hmd as <-.
  destruct (GetAppointment_Ok env h _ req resp H) as (apt & Hs & Hu & Hr).
  cbn [UserIDValue] in Hu. exists claims, apt. repeat split; try assumption.
  congruence.
Qed.

End BehindInterceptor.

Lemma no_panic_behind_interceptor_witness :
  (forall req, middleware.Auth Fixture.lib "s3cret" (Some Sample.md) (mkContext [] None)
                 req (Fixture.svc ++ "/ListAppointments")
                 (impl.ListAppointments Sample.env Sample.h) <> None)
  /\ (forall req, middleware.Auth Fixture.lib "s3cret" (Some Sample.md)
                    (mkContext [] None) req (Fixture.svc ++ "/ListAppointments")
                    (impl.CreateAppointment Sample.env Sample.h) <> None)
  /\ (forall req, middleware.Auth Fixture.lib "s3cret" (Some Sample.md)
                    (mkContext [] None) req (Fixture.svc ++ "/ListAppointments")
                    (impl.GetAppointment Sample.env Sample.h) <> None)
  /\ (forall req, middleware.Auth Fixture.lib "s3cret" (Some Sample.md)
                    (mkContext [] None) req (Fixture.svc ++ "/ListAppointments")
                    (impl.UpdateAppointment Sample.env Sample.h) <> None)
  /\ (forall req, middleware.Auth Fixture.lib "s3cret" (Some Sample.md)
                    (mkContext [] None) req (Fixture.svc ++ "/ListAppointments")
                    (impl.DeleteAppointment Sample.h) <> None).
Proof.
  apply (no_panic_behind_interceptor Fixture.lib Sample.env Sample.h "s3cret"
           (Some Sample.md) (mkContext [] None) (Fixture.svc ++ "/ListAppointments")).
  reflexivity.
Defined.

Lemma GetAppointment_behind_interceptor_witness :
  exists claims apt,
    auth.ParseToken Fixture.lib
      (strings.TrimPrefix (Header_Get Sample.md "authorization") "Bearer ") "s3cret"
    = Ok claims
    /\ pgstore.GetAppointment (impl.store Sample.h) "a1" = Ok apt
    /\ model.Appointment.UserID apt = auth.UserID claims
    /\ Some (impl.toProto Sample.env Sample.a1) = Some (impl.toProto Sample.env apt).
Proof.
  apply (GetAppointment_behind_interceptor Fixture.lib Sample.env Sample.h "s3cret"
           Sample.md (mkContext [] None) (Fixture.svc ++ "/GetAppointment")
           (pb.GetAppointmentRequest.mk "a1")
           (pb.GetAppointmentResponse.mk (Some (impl.toProto Sample.env Sample.a1)))).
  - reflexivity.
  - reflexivity.
Defined.

Lemma Handler_events (L : jwt.Lib auth.Claims) (b : Bridge) (r : Request) :
  fst (Handler L b r) = cors_headers r ++ fst (forward L b r)
  \/ (exists e, fst (Handler L b r) = cors_headers r ++ [e] /\ is_contact e = false).
Proof.
  unfold Handler. rewrite !bind_emit_l. cbn [fst snd].
  destruct (String.eqb (Method r) "OPTIONS"); [right; eexists; split; reflexivity|].
  destruct (String.eqb (Method r) "POST"); cbn [negb];
    [|right; eexists; split; reflexivity].
  destruct (strings.HasPrefix _ _); cbn [negb];
    [|right; eexists; split; reflexivity].
  left. reflexivity.
Qed.

Lemma Handler_call (L : jwt.Lib auth.Claims) (b : Bridge) (r : Request)
    (c : HandlerCall) :
  In (Call c) (fst (Handler L b r)) -> In (Call c) (fst (forward L b r)).
Proof.
  intros H. destruct (Handler_events L b r) as [E | (e & E & He)]; rewrite E in H;
    apply in_app_or in H; destruct H as [H | H]; try assumption.
  - exfalso. cbn in H. repeat (destruct H as [H|H]; [discriminate|]). exact H.
  - exfalso. cbn in H. repeat (destruct H as [H|H]; [discriminate|]). exact H.
  - exfalso. destruct H as [-> | []]. discriminate.
Qed.

(** X19.  Whenever a request to [Handler] leads to a call of the direct handler,
    the path ends in the name of the called method; [Login] and [Register]
    are called with the context of the request, and every other method
    with that context extended by the user id of the token that
    [ParseToken] accepted from the Authorization header. *)
Theorem handler_called_as_token_subject (L : jwt.Lib auth.Claims) (b : Bridge)
    (r : Request) (c : HandlerCall) :
  In (Call c) (fst (Handler L b r)) ->
  direct_method (URLPath r) = Some (call_method c)
  /\ (call_method c = MLogin \/ call_method c = MRegister ->
      call_context c = mkContext (Header r "Authorization") None)
  /\ (call_method c <> MLogin -> call_method c <> MRegister ->
      exists claims,
        auth.ParseToken L
          (strings.TrimPrefix (Header_Get (Header r) "Authorization") "Bearer ")
          (secret b) = Ok claims
        /\ call_context c
           = mkContext (Header r "Authorization") (Some (auth.UserID claims))).
Proof.
  intros H. apply forward_call. now apply Handler_call.
Qed.

Lemma handler_called_as_token_subject_witness :
  direct_method (URLPath (Sample.get "a1"))
  = Some (call_method (CallGetAppointment Sample.as_u1 (pb.GetAppointmentRequest.mk "a1")))
  /\ exists claims,
       auth.ParseToken Fixture.lib
         (strings.TrimPrefix (Header_Get (Header (Sample.get "a1")) "Authorization")
            "Bearer ")
         (secret Sample.bridge) = Ok claims
       /\ Sample.as_u1
          = mkContext (Header (Sample.get "a1") "Authorization")
              (Some (auth.UserID claims)).
Proof.
  destruct (handler_called_as_token_subject Fixture.lib Sample.bridge (Sample.get "a1")
              (CallGetAppointment Sample.as_u1 (pb.GetAppointmentRequest.mk "a1")))
    as (H1 & _ & H3).
  - vm_compute. do 5 right. left. reflexivity.
  - split; [exact H1|]. apply H3; discriminate.
Defined.

(** X20.  [parseTimestamp] inverts [appendTimestamp]: for seconds in the range of
    [int64] and nanoseconds in the range of [int32], the submessage that
    [appendTimestamp] writes is read back as the same timestamp. *)
Theorem timestamp_roundtrip (out : bytes) (num : Z) (ts : pb.Timestamp) :
  - 2 ^ 63 <= pb.Seconds ts < 2 ^ 63 -> - 2 ^ 31 <= pb.Nanos ts < 2 ^ 31 ->
  exists inner,
    appendTimestamp out num (Some ts) = AppendBytes (AppendTag out num BytesType) inner
    /\ parseTimestamp inner = ([], Val (Some ts)).
Proof.
  intros Hs Hn. exists (timestamp_inner ts). split.
  - apply appendTimestamp_Some.
  - now apply parseTimestamp_timestamp_inner.
Qed.

Lemma timestamp_roundtrip_witness :
  exists inner,
    appendTimestamp [] 4 (Some (pb.mkTimestamp 1700000000 (- 5)))
    = AppendBytes (AppendTag [] 4 BytesType) inner
    /\ parseTimestamp inner = ([], Val (Some (pb.mkTimestamp 1700000000 (- 5)))).
Proof.
  apply (timestamp_roundtrip [] 4 (pb.mkTimestamp 1700000000 (- 5))).
  - cbn. lia.
  - cbn. lia.
Defined.

(** X21.  Over gRPC-Web, with the handler of [internal/handler] as the direct
    handler: whenever the bridge calls [GetAppointment] and the call
    succeeds, the appointment returned is one of the store whose owner is
    the user of the token in the Authorization header. *)
Theorem bridge_GetAppointment_owner {Time E : Type} (L : jwt.Lib auth.Claims)
    (env : impl.Env Time E) (h : impl.Handler Time E) (hd : handler.Handler)
    (b : Bridge) (r : Request) (ctx : Context) (req : pb.GetAppointmentRequest.t)
    (resp : pb.GetAppointmentResponse.t) :
  implements env h hd ->
  In (Call (CallGetAppointment ctx req)) (fst (Handler L b r)) ->
  handler.GetAppointment hd ctx req = Ok resp ->
  exists claims apt,
    auth.ParseToken L
      (strings.TrimPrefix (Header_Get (Header r) "Authorization") "Bearer ") (secret b)
    = Ok claims
    /\ pgstore.GetAppointment (impl.store h) (pb.GetAppointmentRequest.Id req) = Ok apt
    /\ model.Appointment.UserID apt = auth.UserID claims
    /\ pb.GetAppointmentResponse.Appointment resp = Some (impl.toProto env apt).
Proof.
  intros (_ & _ & _ & _ & HG & _) HC HR.
  apply Handler_call, forward_call in HC. cbn [call_method call_context] in HC.
  destruct HC as (_ & _ & HC).
  destruct HC as (claims & Hp & Hc); [discriminate | discriminate |].
  assert (Hu : UserIDValue ctx = Some (auth.UserID claims)) by (rewrite Hc; reflexivity).
  destruct (impl.GetAppointment env h ctx req) as [res|] eqn:HI.
  - rewrite (HG ctx req res HI) in HR. subst res.
    destruct (GetAppointment_Ok env h ctx req resp HI) as (apt & Hs & Ho & Hr).
    exists claims, apt. repeat split; try assumption. congruence.
  - exfalso. unfold impl.GetAppointment, impl.uid in HI. rewrite Hu in HI.
    destruct (String.eqb _ _); [discriminate|].
    destruct (pgstore.GetAppointment _ _); [|discriminate].
    destruct (negb _); discriminate.
Qed.

Lemma bridge_GetAppointment_owner_witness :
  exists claims apt,
    auth.ParseToken Fixture.lib
      (strings.TrimPrefix (Header_Get (Header (Sample.get "a1")) "Authorization")
         "Bearer ")
      (secret Sample.bridge) = Ok claims
    /\ pgstore.GetAppointment (impl.store Sample.h) "a1" = Ok apt
    /\ model.Appointment.UserID apt = auth.UserID claims
    /\ Some (impl.toProto Sample.env Sample.a1) = Some (impl.toProto Sample.env apt).
Proof.
  apply (bridge_GetAppointment_owner Fixture.lib Sample.env Sample.h Sample.direct
           Sample.bridge (Sample.get "a1") Sample.as_u1
           (pb.GetAppointmentRequest.mk "a1")
           (pb.GetAppointmentResponse.mk (Some (impl.toProto Sample.env Sample.a1)))).
  - repeat split; intros ctx req; try reflexivity; intros r E;
      unfold Sample.direct; cbn [handler.ListAppointments handler.CreateAppointment
        handler.GetAppointment handler.UpdateAppointment handler.DeleteAppointment];
      rewrite E; reflexivity.
  - vm_compute. do 5 right. left. reflexivity.
  - reflexivity.
Defined.

(** X22.  The chain of the gRPC server, [RateLimit] then [Auth]: the methods that
    the limiter covers are the ones exempt from authentication.  An exempt
    method reaches the rest of the chain, with its context unchanged, if
    and only if the limiter allows the peer, and is answered
    ResourceExhausted otherwise; any other method reaches it only with the
    user id of an accepted token, and is answered Unauthenticated
    otherwise. *)
Theorem chain_guards_every_method {Req Resp : Type} (L : jwt.Lib auth.Claims)
    (Allow : string -> bool) (secret : string) (peer : option string)
    (incoming : option middleware.MD) (ctx : Context) (req : Req) (fullMethod : string)
    (next : Context -> Req -> option (result Status Resp)) :
  let run := middleware.chain L Allow secret peer incoming ctx req fullMethod next in
  let ip := match peer with Some addr => addr | None => "unknown"%string end in
  middleware.limited fullMethod = middleware.open fullMethod
  /\ (middleware.open fullMethod = true ->
      run = if Allow ip then next ctx req
            else Some (Err (mkStatus codes.ResourceExhausted "too many requests")))
  /\ (middleware.open fullMethod = false ->
      match incoming with
      | None => run = Some (Err (mkStatus codes.Unauthenticated "missing metadata"))
      | Some md =>
          match auth.ParseToken L
                  (strings.TrimPrefix (Header_Get md "authorization") "Bearer ") secret
          with
          | Ok claims =>
              run = next (mkContext (authorization_md ctx) (Some (auth.UserID claims)))
                      req
          | Err _ => exists msg, run = Some (Err (mkStatus codes.Unauthenticated msg))
          end
      end).
Proof.
  cbv zeta. unfold middleware.chain, middleware.RateLimit.
  split; [reflexivity|].
  change (middleware.limited fullMethod) with (middleware.open fullMethod).
  split; intros Ho; rewrite Ho; cbn [negb].
  - destruct (Allow _); cbn [negb]; [|reflexivity].
    unfold middleware.Auth. rewrite Ho. reflexivity.
  - unfold middleware.Auth, Header_Get. rewrite Ho.
    destruct incoming as [md|]; [|reflexivity]. cbv zeta.
    destruct (md "authorization"%string) as [|v vals].
    + rewrite ParseToken_empty. now eexists.
    + destruct (String.eqb_spec (strings.TrimPrefix v "Bearer ") "") as [E|E].
      * rewrite E, ParseToken_empty. now eexists.
      * destruct (auth.ParseToken L (strings.TrimPrefix v "Bearer ") secret);
          [reflexivity | now eexists].
Qed.

Lemma wire_fields_three (a b c : bytes) :
  len a < 2 ^ 63 -> len b < 2 ^ 63 -> len c < 2 ^ 63 ->
  wire_fields ((x0a :: varint 10 (uint64 (len a)) ++ a)
               ++ (x12 :: varint 10 (uint64 (len b)) ++ b)
               ++ (x1a :: varint 10 (uint64 (len c)) ++ c))
  = Some [(1, BytesType, a); (2, BytesType, b); (3, BytesType, c)].
Proof.
  intros Ha Hb Hc. rewrite !uint64_len by assumption.
  pose proof (wire_fields_bytes_field x1a c []) as H3.
  rewrite app_nil_r, wire_fields_nil in H3.
  cbn [app]. rewrite <- !app_assoc.
  rewrite (wire_fields_bytes_field x0a) by first [reflexivity | lia | (vm_compute; congruence)].
  cbn [app].
  rewrite (wire_fields_bytes_field x12) by first [reflexivity | lia | (vm_compute; congruence)].
  rewrite H3 by first [reflexivity | lia | (vm_compute; congruence)].
  reflexivity.
Qed.

(** X23.  A Login over direct dispatch, end to end: on the encoding of a request
    to which the handler answers with a response, the bridge calls the
    handler once with that request and writes the two success frames, and
    the payload of the Data frame reads back as the three strings of the
    response in fields 1, 2 and 3. *)
Theorem login_roundtrip (L : jwt.Lib auth.Claims) (b : Bridge) (hd : handler.Handler)
    (ctx : Context) (h : string) (req : pb.LoginRequest.t) (resp : pb.LoginResponse.t) :
  direct b = Some hd ->
  request_sized (CallLogin ctx req) ->
  handler.Login hd ctx req = Ok resp ->
  fits (pb.LoginResponse.Token resp) -> fits (pb.LoginResponse.UserId resp) ->
  fits (pb.LoginResponse.Name resp) ->
  exists payload,
    manual L MLogin b ctx (request_bytes (CallLogin ctx req)) h
    = ([Call (CallLogin ctx req);
        SetHeader "Content-Type" "application/grpc-web+proto"; WriteHeader 200;
        Write (frame x00 payload); Write (frame x80 (bytes_of ok_trailer))], Val tt)
    /\ wire_fields payload
       = Some [(1, BytesType, bytes_of (pb.LoginResponse.Token resp));
               (2, BytesType, bytes_of (pb.LoginResponse.UserId resp));
               (3, BytesType, bytes_of (pb.LoginResponse.Name resp))].
Proof.
  intros Hd Hs Hr Ht Hu Hn.
  cbn [manual]. unfold manualLogin.
  rewrite (manualLogin_decodes ctx req Hs), bind_val_l. cbv beta iota.
  rewrite Hd, must_Some, bind_ret_l, bind_emit_l, Hr. cbv zeta.
  rewrite writeSuccess_frames. cbn [fst snd].
  eexists. split; [reflexivity|].
  rewrite (AppendString_field [] 1 x0a) by reflexivity.
  rewrite (AppendString_field _ 2 x12) by reflexivity.
  rewrite (AppendString_field _ 3 x1a) by reflexivity.
  cbn [app]. unfold string_field. rewrite <- app_assoc. cbn [app].
  apply wire_fields_three; assumption.
Qed.

Lemma login_roundtrip_witness :
  exists payload,
    manual Fixture.lib MLogin Sample.bridge (mkContext [] None)
      (request_bytes (CallLogin (mkContext [] None)
                        (pb.LoginRequest.mk "ann@example.com" "password1"))) ""
    = ([Call (CallLogin (mkContext [] None)
                (pb.LoginRequest.mk "ann@example.com" "password1"));
        SetHeader "Content-Type" "application/grpc-web+proto"; WriteHeader 200;
        Write (frame x00 payload); Write (frame x80 (bytes_of ok_trailer))], Val tt)
    /\ wire_fields payload
       = Some [(1, protowire.BytesType, bytes_of "HS256.u1.s3cret");
               (2, protowire.BytesType, bytes_of "u1");
               (3, protowire.BytesType, bytes_of "Ann")].
Proof.
  apply (login_roundtrip Fixture.lib Sample.bridge Sample.direct (mkContext [] None) ""
           (pb.LoginRequest.mk "ann@example.com" "password1")
           (pb.LoginResponse.mk "HS256.u1.s3cret" "u1" "Ann")).
  - reflexivity.
  - split; reflexivity.
  - reflexivity.
  - reflexivity.
  - reflexivity.
  - reflexivity.
Defined.
